(** * Leaderboard engine of the Nakama server: [server/core_leaderboard.go]

    A shallow embedding of the record writer, the keyset-paginated record
    lister, the haystack lister, the cursor codec and the reset-schedule
    arithmetic, followed by the properties established for them.

    Conventions of the embedding.
    - Go's [int], [int64] are integers in [Z]; every arithmetic operation of
      the source that can leave the 64-bit range is written with [wrap64].
    - Go strings are [string]; byte slices are [list byte].
    - A Go function returning [(T, error)] returns an [outcome T]; a run-time
      panic (index out of range, negative capacity, [uuid.Must]) is the
      [Panic] outcome.
    - The SQL statements of the source are interpreted over an in-memory
      table; the statement that each definition interprets is quoted above it.
*)

From Stdlib Require Import ZArith Lia List Ascii String Bool Sorted Permutation.
From Stdlib.Strings Require Import Byte.
From stdpp Require Import base option list sorting strings.

Open Scope Z_scope.

(* ================================================================== *)
(** ** Outcomes of a call *)
(* ================================================================== *)

(** Errors of the PostgreSQL driver as the source tells them apart:
    [sql.ErrNoRows], and a [pgconn.PgError] with its code and message. *)
Inductive sql_error : Type :=
| sqlErrNoRows
| PgError (Code : string) (Message : string).

(** The package-level error values of the source (lines 38-43), and a store
    error passed on as it is. *)
Inductive error : Type :=
| ErrLeaderboardNotFound
| ErrLeaderboardAuthoritative
| ErrLeaderboardInvalidCursor
| ErrInvalidOperator
| ErrStore (e : sql_error).

Inductive outcome (A : Type) : Type :=
| Ok (a : A)
| Err (e : error)
| Panic.
Arguments Ok {A} a.
Arguments Err {A} e.
Arguments Panic {A}.

#[global] Instance outcome_ret : MRet outcome := fun A a => Ok a.

#[global] Instance outcome_bind : MBind outcome := fun A B k m =>
  match m with
  | Ok a => k a
  | Err e => Err e
  | Panic => Panic
  end.

(* ================================================================== *)
(** ** Machine integers *)
(* ================================================================== *)

Definition min_int64 : Z := - 2 ^ 63.
Definition max_int64 : Z := 2 ^ 63 - 1.

Definition in_int64 (z : Z) : Prop := min_int64 <= z <= max_int64.

Definition in_int64b (z : Z) : bool := (min_int64 <=? z) && (z <=? max_int64).

(** Two's-complement wrap-around of a 64-bit signed integer. *)
Definition wrap64 (z : Z) : Z := (z + 2 ^ 63) mod 2 ^ 64 - 2 ^ 63.

(** [uint32(x)] of a signed integer. *)
Definition to_uint32 (z : Z) : Z := z mod 2 ^ 32.

(* ================================================================== *)
(** ** Bytes *)
(* ================================================================== *)

Definition Z_of_byte (b : byte) : Z := Z.of_N (Byte.to_N b).

Definition byte_of_Z (z : Z) : byte :=
  match Byte.of_N (Z.to_N (z mod 256)) with
  | Some b => b
  | None => x00
  end.

Definition bytes_of_string (s : string) : list byte := list_byte_of_string s.
Definition string_of_bytes (bs : list byte) : string := string_of_list_byte bs.

(* ================================================================== *)
(** ** [encoding/base64]: [base64.URLEncoding]

    The URL-safe alphabet of RFC 4648 with [=] padding, as
    [EncodeToString] and [DecodeString] of the Go library implement it:
    three bytes give four characters; a last group of one or two bytes is
    padded to four characters; the decoder skips carriage returns and line
    feeds, wants full padded quanta, and does not inspect the unused low
    bits of a padded quantum. *)
(* ================================================================== *)

Module Base64URL.

Definition alphabet : string :=
  "ABCDEFGHIJKLMNOPQRSTUVWXYZabcdefghijklmnopqrstuvwxyz0123456789-_".

Definition padChar : ascii := "="%char.

Definition enc6 (n : Z) : ascii :=
  match String.get (Z.to_nat n) alphabet with
  | Some c => c
  | None => padChar
  end.

Fixpoint index_of (c : ascii) (s : string) (i : Z) : option Z :=
  match s with
  | EmptyString => None
  | String d s' => if Ascii.eqb c d then Some i else index_of c s' (i + 1)
  end.

Definition dec6 (c : ascii) : option Z := index_of c alphabet 0.

Fixpoint encode_bytes (bs : list byte) : list ascii :=
  match bs with
  | [] => []
  | [b1] =>
      let x1 := Z_of_byte b1 in
      [enc6 (x1 / 4); enc6 ((x1 mod 4) * 16); padChar; padChar]
  | [b1; b2] =>
      let x1 := Z_of_byte b1 in
      let x2 := Z_of_byte b2 in
      [enc6 (x1 / 4); enc6 ((x1 mod 4) * 16 + x2 / 16);
       enc6 ((x2 mod 16) * 4); padChar]
  | b1 :: b2 :: b3 :: rest =>
      let x1 := Z_of_byte b1 in
      let x2 := Z_of_byte b2 in
      let x3 := Z_of_byte b3 in
      enc6 (x1 / 4) :: enc6 ((x1 mod 4) * 16 + x2 / 16)
        :: enc6 ((x2 mod 16) * 4 + x3 / 64) :: enc6 (x3 mod 64)
        :: encode_bytes rest
  end.

Definition EncodeToString (bs : list byte) : string :=
  string_of_list_ascii (encode_bytes bs).

Definition is_newline (c : ascii) : bool :=
  Ascii.eqb c "010"%char || Ascii.eqb c "013"%char.

Fixpoint decode_chars (cs : list ascii) : option (list byte) :=
  match cs with
  | [] => Some []
  | c1 :: c2 :: c3 :: c4 :: rest =>
      match dec6 c1, dec6 c2 with
      | Some s1, Some s2 =>
          let y1 := byte_of_Z (s1 * 4 + s2 / 16) in
          match dec6 c3, dec6 c4 with
          | Some s3, Some s4 =>
              let y2 := byte_of_Z ((s2 mod 16) * 16 + s3 / 4) in
              let y3 := byte_of_Z ((s3 mod 4) * 64 + s4) in
              match decode_chars rest with
              | Some out => Some (y1 :: y2 :: y3 :: out)
              | None => None
              end
          | Some s3, None =>
              if Ascii.eqb c4 padChar && bool_decide (rest = [])
              then Some [y1; byte_of_Z ((s2 mod 16) * 16 + s3 / 4)]
              else None
          | None, _ =>
              if Ascii.eqb c3 padChar && Ascii.eqb c4 padChar
                 && bool_decide (rest = [])
              then Some [y1]
              else None
          end
      | _, _ => None
      end
  | _ => None
  end.

Definition DecodeString (s : string) : option (list byte) :=
  decode_chars (List.filter (fun c => negb (is_newline c)) (list_ascii_of_string s)).

End Base64URL.

(* ================================================================== *)
(** ** [encoding/gob]: the wire format of a flat struct

    The stream that [gob.NewEncoder(buf).Encode(&v)] writes for a struct [v]
    whose fields are of type [bool], [int64] and [string], in the format of
    the package documentation: a message that defines the struct type (its
    name, and the name and type id of each field), then a message with the
    value, in which each non-zero field is sent as the distance from the
    previous field number followed by the field's value, and a zero ends the
    struct.  The struct's type id is the first user id, 65.

    The decoder reads the streams of this encoder: the definition it accepts
    is the one of the receiving struct itself. *)
(* ================================================================== *)

Module Gob.

(** [k] bytes of [x], most significant first. *)
Fixpoint be_bytes (k : nat) (x : Z) : list byte :=
  match k with
  | O => []
  | S k' => byte_of_Z (x / 256 ^ Z.of_nat k') :: be_bytes k' x
  end.

(** [for _, b := range buf { x = x<<8 | uint64(b) }] *)
Fixpoint be_value (acc : Z) (bs : list byte) : Z :=
  match bs with
  | [] => acc
  | b :: rest => be_value (acc * 256 + Z_of_byte b) rest
  end.

(** [encodeUint]: a value up to 0x7F is one byte; otherwise the negated
    byte count, then the bytes without leading zeros. *)
Definition encodeUint (x : Z) : list byte :=
  if x <=? 127 then [byte_of_Z x]
  else
    let bc := (63 - Z.log2 x) / 8 in
    byte_of_Z (bc - 8) :: drop (Z.to_nat bc) (be_bytes 8 x).

(** [encodeInt]: the sign goes to bit 0, a negative value is complemented. *)
Definition encodeInt (i : Z) : list byte :=
  encodeUint
    (if i <? 0
     then Z.lor (Z.shiftl (Z.lnot i) 1 mod 2 ^ 64) 1
     else Z.shiftl i 1 mod 2 ^ 64).

Definition decodeUint (bs : list byte) : option (Z * list byte) :=
  match bs with
  | [] => None
  | b :: rest =>
      let v := Z_of_byte b in
      if v <=? 127 then Some (v, rest)
      else
        let n := 256 - v in
        if 8 <? n then None
        else if Z.of_nat (length rest) <? n then None
        else Some (be_value 0 (take (Z.to_nat n) rest), drop (Z.to_nat n) rest)
  end.

Definition decodeInt (bs : list byte) : option (Z * list byte) :=
  match decodeUint bs with
  | Some (x, rest) =>
      Some (if Z.odd x then Z.lnot (Z.shiftr x 1) else Z.shiftr x 1, rest)
  | None => None
  end.

Inductive gobType : Type := tBool | tInt | tString.

Inductive gobValue : Type :=
| vBool (b : bool)
| vInt (i : Z)
| vString (s : string).

(** The predefined type ids of the package. *)
Definition typeId (t : gobType) : Z :=
  match t with
  | tBool => 1
  | tInt => 2
  | tString => 6
  end.

Definition zeroValue (t : gobType) : gobValue :=
  match t with
  | tBool => vBool false
  | tInt => vInt 0
  | tString => vString ""
  end.

Definition isZero (v : gobValue) : bool :=
  match v with
  | vBool b => negb b
  | vInt i => i =? 0
  | vString s => bool_decide (s = "")
  end.

Definition encodeString (s : string) : list byte :=
  encodeUint (Z.of_nat (length (bytes_of_string s))) ++ bytes_of_string s.

Definition encodeValue (v : gobValue) : list byte :=
  match v with
  | vBool b => encodeUint (if b then 1 else 0)
  | vInt i => encodeInt i
  | vString s => encodeString s
  end.

(** The fields of a struct from field number [fieldnum] on, [prev] being the
    number of the last field sent; zero values are not sent. *)
Fixpoint encodeFields (prev fieldnum : Z) (vs : list gobValue) : list byte :=
  match vs with
  | [] => encodeUint 0
  | v :: vs' =>
      if isZero v then encodeFields prev (fieldnum + 1) vs'
      else encodeUint (fieldnum - prev) ++ encodeValue v
             ++ encodeFields fieldnum (fieldnum + 1) vs'
  end.

Definition encodeStruct (vs : list gobValue) : list byte :=
  encodeFields (-1) 0 vs.

Definition firstUserId : Z := 65.

(** [fieldType{Name, Id}] and [CommonType{Name, Id}]. *)
Definition encodeNameId (name : string) (id : Z) : list byte :=
  encodeStruct [vString name; vInt id].

(** [wireType{StructT: &structType{CommonType, Field}}]: [StructT] is the
    third field of [wireType]. *)
Definition encodeWireType (name : string) (fields : list (string * gobType)) : list byte :=
  encodeUint 3
    ++ (encodeUint 1 ++ encodeNameId name firstUserId)
    ++ (encodeUint 1 ++ encodeUint (Z.of_nat (length fields))
          ++ concat (map (fun f => encodeNameId (fst f) (typeId (snd f))) fields))
    ++ encodeUint 0
    ++ encodeUint 0.

Definition message (body : list byte) : list byte :=
  encodeUint (Z.of_nat (length body)) ++ body.

Definition typeDefinition (name : string) (fields : list (string * gobType)) : list byte :=
  message (encodeInt (- firstUserId) ++ encodeWireType name fields).

Definition Encode (name : string) (fields : list (string * gobType))
    (vs : list gobValue) : list byte :=
  typeDefinition name fields ++ message (encodeInt firstUserId ++ encodeStruct vs).

Definition decodeValue (t : gobType) (bs : list byte) : option (gobValue * list byte) :=
  match t with
  | tBool =>
      match decodeUint bs with
      | Some (x, rest) => Some (vBool (negb (x =? 0)), rest)
      | None => None
      end
  | tInt =>
      match decodeInt bs with
      | Some (i, rest) => Some (vInt i, rest)
      | None => None
      end
  | tString =>
      match decodeUint bs with
      | Some (n, rest) =>
          if Z.of_nat (length rest) <? n then None
          else Some (vString (string_of_bytes (take (Z.to_nat n) rest)),
                     drop (Z.to_nat n) rest)
      | None => None
      end
  end.

(** [decodeStruct]: while the buffer is not empty, read a delta; zero ends
    the struct; a field number past the last field is an error. Each round
    moves to a later field, so [fuel] is the number of fields plus one. *)
Fixpoint decodeFields (fuel : nat) (schema : list gobType) (fieldnum : Z)
    (vals : list gobValue) (bs : list byte) : option (list gobValue * list byte) :=
  match fuel with
  | O => None
  | S fuel' =>
      match bs with
      | [] => Some (vals, [])
      | _ =>
          match decodeUint bs with
          | None => None
          | Some (delta, rest) =>
              if 2 ^ 63 <=? delta then None
              else if delta =? 0 then Some (vals, rest)
              else if Z.of_nat (length schema) - delta <=? fieldnum then None
              else
                let fn := fieldnum + delta in
                match schema !! Z.to_nat fn with
                | None => None
                | Some t =>
                    match decodeValue t rest with
                    | None => None
                    | Some (v, rest') =>
                        decodeFields fuel' schema fn (<[Z.to_nat fn := v]> vals) rest'
                    end
                end
          end
      end
  end.

Definition decodeStruct (schema : list gobType) (bs : list byte)
    : option (list gobValue * list byte) :=
  decodeFields (S (length schema)) schema (-1) (map zeroValue schema) bs.

Fixpoint strip_prefix (p bs : list byte) : option (list byte) :=
  match p, bs with
  | [], _ => Some bs
  | a :: p', b :: bs' => if Byte.eqb a b then strip_prefix p' bs' else None
  | _ :: _, [] => None
  end.

Definition readMessage (bs : list byte) : option (list byte * list byte) :=
  match decodeUint bs with
  | Some (n, rest) =>
      if Z.of_nat (length rest) <? n then None
      else Some (take (Z.to_nat n) rest, drop (Z.to_nat n) rest)
  | None => None
  end.

Definition Decode (name : string) (fields : list (string * gobType))
    (bs : list byte) : option (list gobValue) :=
  match strip_prefix (typeDefinition name fields) bs with
  | None => None
  | Some rest =>
      match readMessage rest with
      | None => None
      | Some (body, _) =>
          match decodeInt body with
          | None => None
          | Some (id, payload) =>
              if id =? firstUserId then
                match decodeStruct (map snd fields) payload with
                | Some (vals, _) => Some vals
                | None => None
                end
              else None
          end
      end
  end.

End Gob.

(* ================================================================== *)
(** ** Collaborators outside [core_leaderboard.go] *)
(* ================================================================== *)

(** [time]: an instant is a count of nanoseconds since the Unix epoch; a
    [Duration] is a 64-bit count of nanoseconds, and [Sub] saturates at the
    ends of that range as the library does. *)
Module time.

Definition Time : Type := Z.
Definition Duration : Type := Z.

Definition Second : Z := 1000000000.

(** [time.Unix(sec, nsec)] *)
Definition Unix (sec nsec : Z) : Time := sec * Second + nsec.

(** The method [t.Unix()]. *)
Definition Time_Unix (t : Time) : Z := t / Second.

Definition minDuration : Duration := min_int64.
Definition maxDuration : Duration := max_int64.

(** The method [t.Sub(u)]. *)
Definition Sub (t u : Time) : Duration :=
  if t - u <? minDuration then minDuration
  else if maxDuration <? t - u then maxDuration
  else t - u.

(** The method [t.Add(d)]. *)
Definition Add (t : Time) (d : Duration) : Time := t + d.

(** The method [t.Before(u)]. *)
Definition Before (t u : Time) : bool := t <? u.

End time.

(** [github.com/gofrs/uuid]: an id is held in its canonical text form. *)
Module uuid.

Definition UUID : Type := string.

Definition Nil : UUID := "00000000-0000-0000-0000-000000000000".

End uuid.

(** [internal/cronexpr] is not part of the sources at hand.  A schedule is
    taken as given by the two methods the engine calls on it: [Next], the
    first reset after an instant, and [NextN], the first [n] resets after an
    instant (fewer when the schedule ends). *)
Module cronexpr.

Record Expression : Type := {
  Next : time.Time -> time.Time;
  NextN : time.Time -> Z -> list time.Time
}.

End cronexpr.

(** [github.com/heroiclabs/nakama-common/api] *)
Module api.

Inductive Operator : Type :=
| Operator_NO_OVERRIDE
| Operator_BEST
| Operator_SET
| Operator_INCREMENT
| Operator_DECREMENT
| Operator_unknown (n : Z).

Record LeaderboardRecord : Type := {
  LeaderboardId : string;
  OwnerId : string;
  Username : option string;
  Score : Z;
  Subscore : Z;
  NumScore : Z;
  MaxNumScore : Z;
  Metadata : string;
  CreateTime : Z;
  UpdateTime : Z;
  ExpiryTime : option Z;
  Rank : Z
}.

Definition set_Rank (rank : Z) (r : LeaderboardRecord) : LeaderboardRecord :=
  {| LeaderboardId := LeaderboardId r; OwnerId := OwnerId r;
     Username := Username r; Score := Score r; Subscore := Subscore r;
     NumScore := NumScore r; MaxNumScore := MaxNumScore r;
     Metadata := Metadata r; CreateTime := CreateTime r;
     UpdateTime := UpdateTime r; ExpiryTime := ExpiryTime r; Rank := rank |}.

Record LeaderboardRecordList : Type := {
  Records : list LeaderboardRecord;
  OwnerRecords : list LeaderboardRecord;
  NextCursor : string;
  PrevCursor : string
}.

End api.

(** The leaderboard definition of the definition cache
    ([leaderboard_cache.go], not part of the sources at hand), with the
    fields the engine reads.  [IsTournament] stands for the method of that
    name. *)
Inductive LeaderboardSortOrder : Type :=
| LeaderboardSortOrderAscending
| LeaderboardSortOrderDescending.

Inductive LeaderboardOperator : Type :=
| LeaderboardOperatorBest
| LeaderboardOperatorSet
| LeaderboardOperatorIncrement
| LeaderboardOperatorDecrement.

Record Leaderboard : Type := {
  Id : string;
  Authoritative : bool;
  SortOrder : LeaderboardSortOrder;
  Operator : LeaderboardOperator;
  ResetSchedule : option cronexpr.Expression;
  Metadata : string;
  CreateTime : Z;
  StartTime : Z;
  EndTime : Z;
  Duration : Z;
  IsTournament : bool
}.

(** [LeaderboardCache]: the engine calls [Get] only. *)
Definition LeaderboardCache : Type := string -> option Leaderboard.

(** [LeaderboardRankCache], over the state [RC] of an implementation.
    [rank_Fill] gives the rank that [Fill] writes into a record.

    Modelled from the spec: the rank index (section 6): [get] returns a
    rank, [insert] upserts and returns the rank after insertion, [delete]
    removes, [fill] mutates the rank field on each record. *)
Class LeaderboardRankCache (RC : Type) : Type := {
  rank_Get : RC -> string -> Z -> uuid.UUID -> Z;
  rank_Insert : RC -> string -> Z -> LeaderboardSortOrder -> uuid.UUID -> Z -> Z -> Z * RC;
  rank_Delete : RC -> string -> Z -> uuid.UUID -> RC;
  rank_Fill : RC -> string -> Z -> api.LeaderboardRecord -> Z
}.

(* ================================================================== *)
(** ** The cursor and its codec (lines 45-55, 351-382) *)
(* ================================================================== *)

Record leaderboardRecordListCursor : Type := {
  IsNext : bool;
  LeaderboardId : string;
  ExpiryTime : Z;
  Score : Z;
  Subscore : Z;
  OwnerId : string;
  Rank : Z
}.

Definition cursorTypeName : string := "leaderboardRecordListCursor".

Definition cursorFields : list (string * Gob.gobType) :=
  [("IsNext", Gob.tBool); ("LeaderboardId", Gob.tString);
   ("ExpiryTime", Gob.tInt); ("Score", Gob.tInt); ("Subscore", Gob.tInt);
   ("OwnerId", Gob.tString); ("Rank", Gob.tInt)].

Definition cursorValues (c : leaderboardRecordListCursor) : list Gob.gobValue :=
  [Gob.vBool (IsNext c); Gob.vString (LeaderboardId c); Gob.vInt (ExpiryTime c);
   Gob.vInt (Score c); Gob.vInt (Subscore c); Gob.vString (OwnerId c);
   Gob.vInt (Rank c)].

Definition cursorOfValues (vs : list Gob.gobValue) : option leaderboardRecordListCursor :=
  match vs with
  | [Gob.vBool b; Gob.vString l; Gob.vInt e; Gob.vInt s; Gob.vInt ss;
     Gob.vString o; Gob.vInt r] =>
      Some {| IsNext := b; LeaderboardId := l; ExpiryTime := e; Score := s;
              Subscore := ss; OwnerId := o; Rank := r |}
  | _ => None
  end.

(** [gob.NewEncoder(cursorBuf).Encode(cursor)] *)
Definition gobEncodeCursor (c : leaderboardRecordListCursor) : list byte :=
  Gob.Encode cursorTypeName cursorFields (cursorValues c).

(** [gob.NewDecoder(bytes.NewReader(cb)).Decode(incomingCursor)] into a
    zero cursor. *)
Definition gobDecodeCursor (cb : list byte) : option leaderboardRecordListCursor :=
  match Gob.Decode cursorTypeName cursorFields cb with
  | Some vs => cursorOfValues vs
  | None => None
  end.

Definition marshalLeaderboardRecordsListCursor (cursor : leaderboardRecordListCursor)
    : outcome string :=
  let cursorBuf := gobEncodeCursor cursor in
  Ok (Base64URL.EncodeToString cursorBuf).

Definition unmarshalLeaderboardRecordsListCursor (leaderboardId : string)
    (expiryTime : Z) (cursor : string) : outcome (option leaderboardRecordListCursor) :=
  if bool_decide (cursor <> "") then
    match Base64URL.DecodeString cursor with
    | None => Err ErrLeaderboardInvalidCursor
    | Some cb =>
        match gobDecodeCursor cb with
        | None => Err ErrLeaderboardInvalidCursor
        | Some incomingCursor =>
            if bool_decide (leaderboardId <> LeaderboardId incomingCursor) then
              Err ErrLeaderboardInvalidCursor
            else if bool_decide (expiryTime <> ExpiryTime incomingCursor) then
              Err ErrLeaderboardInvalidCursor
            else Ok (Some incomingCursor)
        end
    end
  else Ok None.

(* ================================================================== *)
(** ** The record store: table [leaderboard_record]

    Rows of the table, and the SQL statements of the source interpreted
    over a list of rows.  Timestamps are instants of [time]; the primary
    key is [(leaderboard_id, owner_id, expiry_time)]. *)
(* ================================================================== *)

Module db.

Record Row : Type := {
  leaderboard_id : string;
  owner_id : string;
  username : option string;
  score : Z;
  subscore : Z;
  num_score : Z;
  max_num_score : Z;
  metadata : string;
  create_time : time.Time;
  update_time : time.Time;
  expiry_time : time.Time
}.

Definition Table : Type := list Row.

(** The result of a statement: rows, or the driver's error. *)
Definition result (A : Type) : Type := A + sql_error.

Definition same_key (leaderboardId ownerID : string) (expiry : time.Time) (r : Row) : bool :=
  bool_decide (leaderboard_id r = leaderboardId)
  && bool_decide (owner_id r = ownerID)
  && (expiry_time r =? expiry).

Definition in_board (leaderboardId : string) (expiry : time.Time) (r : Row) : bool :=
  bool_decide (leaderboard_id r = leaderboardId) && (expiry_time r =? expiry).

(** The composite sort key [(score, subscore, owner_id)] and its row
    comparison: lexicographic, the owner ids by their bytes. *)
Definition key : Type := Z * Z * string.

Definition key_of (r : Row) : key := (score r, subscore r, owner_id r).

Definition key_compare (a b : key) : comparison :=
  match a, b with
  | (s1, ss1, o1), (s2, ss2, o2) =>
      match s1 ?= s2 with
      | Eq =>
          match ss1 ?= ss2 with
          | Eq => String.compare o1 o2
          | c => c
          end
      | c => c
      end
  end.

Definition key_ltb (a b : key) : bool :=
  match key_compare a b with
  | Lt => true
  | _ => false
  end.

Definition key_leb (a b : key) : bool := negb (key_ltb b a).

(** [ORDER BY score ASC, subscore ASC, owner_id ASC] and
    [ORDER BY score DESC, subscore DESC, owner_id DESC] *)
Inductive Order : Type := ASC | DESC.

Definition row_leb (o : Order) (a b : Row) : bool :=
  match o with
  | ASC => key_leb (key_of a) (key_of b)
  | DESC => key_leb (key_of b) (key_of a)
  end.

Fixpoint insert_sorted (o : Order) (x : Row) (l : list Row) : list Row :=
  match l with
  | [] => [x]
  | y :: l' => if row_leb o x y then x :: l else y :: insert_sorted o x l'
  end.

Definition order_by (o : Order) (l : list Row) : list Row :=
  foldr (insert_sorted o) [] l.

Definition invalid_row_count : sql_error :=
  PgError "2201W" "LIMIT must not be negative".

Definition numeric_out_of_range (what : string) : sql_error :=
  PgError "22003" what.

(** [SELECT ... FROM leaderboard_record WHERE <cond> ORDER BY <o> LIMIT <n>] *)
Definition select_ordered (t : Table) (cond : Row -> bool) (o : Order) (n : Z)
    : result (list Row) :=
  if n <? 0 then inr invalid_row_count
  else inl (take (Z.to_nat n) (order_by o (List.filter cond t))).

(** [SELECT ... WHERE leaderboard_id = $1 AND owner_id = $2 AND expiry_time = $3],
    read with [QueryRowContext(...).Scan]. *)
Definition select_record (t : Table) (leaderboardId ownerID : string)
    (expiry : time.Time) : result Row :=
  match List.find (same_key leaderboardId ownerID expiry) t with
  | Some r => inl r
  | None => inr sqlErrNoRows
  end.

(** [DELETE FROM leaderboard_record WHERE leaderboard_id = $1 AND owner_id = $2 AND expiry_time = $3] *)
Definition delete_record (t : Table) (leaderboardId ownerID : string)
    (expiry : time.Time) : Table :=
  List.filter (fun r => negb (same_key leaderboardId ownerID expiry r)) t.

(** The [SET] clause of the upsert, chosen by the operator (lines 421-459). *)
Inductive opSQL : Type :=
| op_increment   (* score = leaderboard_record.score + $8, subscore = leaderboard_record.subscore + $9 *)
| op_decrement   (* score = GREATEST(leaderboard_record.score - $8, 0), subscore = GREATEST(leaderboard_record.subscore - $9, 0) *)
| op_set         (* score = $4, subscore = $5 *)
| op_least       (* score = LEAST(leaderboard_record.score, $4), subscore = LEAST(leaderboard_record.subscore, $5) *)
| op_greatest.   (* score = GREATEST(leaderboard_record.score, $4), subscore = GREATEST(leaderboard_record.subscore, $5) *)

(** The [WHERE] clause of the [DO UPDATE]. *)
Inductive filterSQL : Type :=
| filter_delta_nonzero  (* WHERE $8 <> 0 OR $9 <> 0 *)
| filter_differs        (* WHERE leaderboard_record.score <> $4 OR leaderboard_record.subscore <> $5 *)
| filter_greater        (* WHERE leaderboard_record.score > $4 OR leaderboard_record.subscore > $5 *)
| filter_less.          (* WHERE leaderboard_record.score < $4 OR leaderboard_record.subscore < $5 *)

(** The parameters [$1 .. $9] of the upsert. *)
Record upsertParams : Type := {
  p1_leaderboard_id : string;
  p2_owner_id : string;
  p3_username : option string;
  p4_score : Z;
  p5_subscore : Z;
  p6_metadata : option string;
  p7_expiry_time : time.Time;
  p8_score_delta : Z;
  p9_subscore_delta : Z
}.

(** A [BIGINT] expression out of range is an error of the statement. *)
Definition bigint (z : Z) : result Z :=
  if in_int64b z then inl z else inr (numeric_out_of_range "bigint out of range").

(** An [INT] expression likewise. *)
Definition integer (z : Z) : result Z :=
  if (- 2 ^ 31 <=? z) && (z <=? 2 ^ 31 - 1) then inl z
  else inr (numeric_out_of_range "integer out of range").

Definition eval_op (op : opSQL) (p : upsertParams) (old : Row) : result (Z * Z) :=
  match op with
  | op_increment =>
      match bigint (score old + p8_score_delta p), bigint (subscore old + p9_subscore_delta p) with
      | inl s, inl ss => inl (s, ss)
      | inr e, _ => inr e
      | _, inr e => inr e
      end
  | op_decrement =>
      match bigint (score old - p8_score_delta p), bigint (subscore old - p9_subscore_delta p) with
      | inl s, inl ss => inl (Z.max s 0, Z.max ss 0)
      | inr e, _ => inr e
      | _, inr e => inr e
      end
  | op_set => inl (p4_score p, p5_subscore p)
  | op_least => inl (Z.min (score old) (p4_score p), Z.min (subscore old) (p5_subscore p))
  | op_greatest => inl (Z.max (score old) (p4_score p), Z.max (subscore old) (p5_subscore p))
  end.

Definition eval_filter (f : filterSQL) (p : upsertParams) (old : Row) : bool :=
  match f with
  | filter_delta_nonzero =>
      negb (p8_score_delta p =? 0) || negb (p9_subscore_delta p =? 0)
  | filter_differs =>
      negb (score old =? p4_score p) || negb (subscore old =? p5_subscore p)
  | filter_greater =>
      (p4_score p <? score old) || (p5_subscore p <? subscore old)
  | filter_less =>
      (score old <? p4_score p) || (subscore old <? p5_subscore p)
  end.

(** [COALESCE(a, b)] *)
Definition coalesce {A : Type} (a : option A) (b : A) : A :=
  match a with
  | Some x => x
  | None => b
  end.

(** Replace the row of the given key. *)
Definition replace_record (t : Table) (new : Row) : Table :=
  map (fun r => if same_key (leaderboard_id new) (owner_id new) (expiry_time new) r
                then new else r) t.

(** The upsert of the writer (lines 461-465):

    [INSERT INTO leaderboard_record (leaderboard_id, owner_id, username, score, subscore, metadata, expiry_time)
     VALUES ($1, $2, $3, $4, $5, COALESCE($6, '{}'::JSONB), $7)
     ON CONFLICT (owner_id, leaderboard_id, expiry_time)
     DO UPDATE SET <op>, num_score = leaderboard_record.num_score + 1,
       metadata = COALESCE($6, leaderboard_record.metadata),
       username = COALESCE($3, leaderboard_record.username), update_time = now() <filter>
     RETURNING ...]

    [now] is the value of [now()].  A statement that returns no row gives
    [sql.ErrNoRows] to [Scan].

    Modelled from the spec: the column defaults of the table, which the
    statement leaves to the schema: [num_score = 1] on insert (section
    4.3), [create_time] and [update_time] the time of the insert;
    [max_num_score] takes the schema's default, [default_max_num_score]. *)
Definition upsert (default_max_num_score : Z) (now : time.Time) (t : Table)
    (op : opSQL) (f : filterSQL) (p : upsertParams) : result Row * Table :=
  match List.find (same_key (p1_leaderboard_id p) (p2_owner_id p) (p7_expiry_time p)) t with
  | None =>
      let new :=
        {| leaderboard_id := p1_leaderboard_id p;
           owner_id := p2_owner_id p;
           username := p3_username p;
           score := p4_score p;
           subscore := p5_subscore p;
           num_score := 1;
           max_num_score := default_max_num_score;
           metadata := coalesce (p6_metadata p) "{}";
           create_time := now;
           update_time := now;
           expiry_time := p7_expiry_time p |} in
      (inl new, t ++ [new])
  | Some old =>
      if eval_filter f p old then
        match eval_op op p old, integer (num_score old + 1) with
        | inl (s, ss), inl n =>
            let new :=
              {| leaderboard_id := leaderboard_id old;
                 owner_id := owner_id old;
                 username :=
                   match p3_username p with
                   | Some u => Some u
                   | None => username old
                   end;
                 score := s;
                 subscore := ss;
                 num_score := n;
                 max_num_score := max_num_score old;
                 metadata := coalesce (p6_metadata p) (metadata old);
                 create_time := create_time old;
                 update_time := now;
                 expiry_time := expiry_time old |} in
            (inl new, replace_record t new)
        | inr e, _ => (inr e, t)
        | _, inr e => (inr e, t)
        end
      else (inr sqlErrNoRows, t)
  end.

End db.

(* ================================================================== *)
(** ** The engine: [core_leaderboard.go] *)
(* ================================================================== *)

(** What a call can touch: the table behind [db], the rank cache, the
    clock, and the record of the interactions with the store and the rank
    cache, latest first. *)
Inductive Event : Type :=
| db_QueryContext
| db_QueryRowContext
| db_ExecContext
| rankCache_Get
| rankCache_Insert
| rankCache_Delete
| rankCache_Fill.

Record World (RC : Type) : Type := {
  table : db.Table;
  rankCache : RC;
  now : time.Time;
  events : list Event
}.
Arguments table {RC} _.
Arguments rankCache {RC} _.
Arguments now {RC} _.
Arguments events {RC} _.

(** A call: from the world before to the outcome and the world after. *)
Definition M (RC A : Type) : Type := World RC -> outcome A * World RC.

#[global] Instance M_ret {RC : Type} : MRet (M RC) := fun A a w => (Ok a, w).

#[global] Instance M_bind {RC : Type} : MBind (M RC) := fun A B k m w =>
  match m w with
  | (Ok a, w') => k a w'
  | (Err e, w') => (Err e, w')
  | (Panic, w') => (Panic, w')
  end.

Definition fail {RC A : Type} (e : error) : M RC A := fun w => (Err e, w).

Definition panic {RC A : Type} : M RC A := fun w => (Panic, w).

Definition lift {RC A : Type} (o : outcome A) : M RC A := fun w => (o, w).

Definition time_Now {RC : Type} : M RC time.Time := fun w => (Ok (now w), w).

Definition record_event {RC : Type} (e : Event) (w : World RC) : World RC :=
  {| table := table w; rankCache := rankCache w; now := now w;
     events := e :: events w |}.

(** A statement that reads the table. *)
Definition db_read {RC A : Type} (e : Event) (q : db.Table -> db.result A)
    : M RC (db.result A) :=
  fun w => (Ok (q (table w)), record_event e w).

(** A statement that may change the table; it sees the clock as [now()]. *)
Definition db_write {RC A : Type} (e : Event)
    (q : time.Time -> db.Table -> db.result A * db.Table) : M RC (db.result A) :=
  fun w =>
    let '(r, t) := q (now w) (table w) in
    (Ok r, {| table := t; rankCache := rankCache w; now := now w;
              events := e :: events w |}).

(** [strings.Contains] *)
Fixpoint strings_Contains (s substr : string) : bool :=
  String.prefix substr s
  || match s with
     | EmptyString => false
     | String _ s' => strings_Contains s' substr
     end.

(** [dbErrorUniqueViolation] of [db_error.go]: the SQLSTATE of a unique
    violation. *)
Definition dbErrorUniqueViolation : string := "23505".

(** Index [i] of a slice: a panic outside its bounds. *)
Definition index {RC A : Type} (l : list A) (i : Z) : M RC A :=
  if i <? 0 then panic
  else match l !! Z.to_nat i with
       | Some x => mret x
       | None => panic
       end.

(** [l[lo:hi]] of a slice whose capacity is its length. *)
Definition slice {RC A : Type} (l : list A) (lo hi : Z) : M RC (list A) :=
  if (lo <? 0) || (hi <? lo) || (Z.of_nat (length l) <? hi) then panic
  else mret (take (Z.to_nat (hi - lo)) (drop (Z.to_nat lo) l)).

(** Go's [/] on [int]: truncated division. *)
Definition int_div (a b : Z) : Z := wrap64 (Z.quot a b).

Section Engine.

Context {RC : Type} `{!LeaderboardRankCache RC}.

(** [uuid.FromString] of [github.com/gofrs/uuid]. *)
Variable uuid_FromString : string -> option uuid.UUID.

(** [calculateTournamentDeadlines] of [core_tournament.go], not part of the
    sources at hand. *)
Variable calculateTournamentDeadlines :
  Z -> Z -> Z -> option cronexpr.Expression -> time.Time -> Z * Z * Z.

(** The schema's default of column [max_num_score]. *)
Variable default_max_num_score : Z.

(** [uuid.Must(uuid.FromString(s))] *)
Definition uuid_Must_FromString (s : string) : M RC uuid.UUID :=
  match uuid_FromString s with
  | Some u => mret u
  | None => panic
  end.

Definition do_rank_Get (leaderboardId : string) (expiryTime : Z) (ownerID : uuid.UUID)
    : M RC Z :=
  fun w => (Ok (rank_Get (rankCache w) leaderboardId expiryTime ownerID),
            record_event rankCache_Get w).

Definition do_rank_Insert (leaderboardId : string) (expiryTime : Z)
    (sortOrder : LeaderboardSortOrder) (ownerID : uuid.UUID) (score subscore : Z)
    : M RC Z :=
  fun w =>
    let '(rank, rc) :=
      rank_Insert (rankCache w) leaderboardId expiryTime sortOrder ownerID score subscore in
    (Ok rank, {| table := table w; rankCache := rc; now := now w;
                 events := rankCache_Insert :: events w |}).

Definition do_rank_Delete (leaderboardId : string) (expiryTime : Z) (ownerID : uuid.UUID)
    : M RC unit :=
  fun w =>
    (Ok tt, {| table := table w;
               rankCache := rank_Delete (rankCache w) leaderboardId expiryTime ownerID;
               now := now w; events := rankCache_Delete :: events w |}).

(** [rankCache.Fill(leaderboardId, expiryTime, records)]: the records with
    their rank fields written. *)
Definition do_rank_Fill (leaderboardId : string) (expiryTime : Z)
    (records : list api.LeaderboardRecord) : M RC (list api.LeaderboardRecord) :=
  fun w =>
    (Ok (map (fun r => api.set_Rank (rank_Fill (rankCache w) leaderboardId expiryTime r) r)
             records),
     record_event rankCache_Fill w).

(** *** [calculateExpiryOverride] (lines 904-919) *)
Definition calculateExpiryOverride (overrideExpiry : Z) (leaderboard : Leaderboard)
    : M RC (Z * bool) :=
  if overrideExpiry =? 0 then
    if IsTournament leaderboard then
      now ← time_Now;
      let '(_, _, expiryTime) :=
        calculateTournamentDeadlines (StartTime leaderboard) (EndTime leaderboard)
          (Duration leaderboard) (ResetSchedule leaderboard) now in
      if negb (expiryTime =? 0) && (expiryTime <=? time.Time_Unix now) then
        mret (0, false)
      else mret (expiryTime, true)
    else
      match ResetSchedule leaderboard with
      | Some resetSchedule =>
          now ← time_Now;
          mret (time.Time_Unix (cronexpr.Next resetSchedule now), true)
      | None => mret (overrideExpiry, true)
      end
  else mret (overrideExpiry, true).

(** *** [calculatePrevReset] (lines 646-663) *)
Definition calculatePrevReset (currentTime : time.Time) (startTime : Z)
    (resetSchedule : option cronexpr.Expression) : outcome Z :=
  match resetSchedule with
  | None => Ok 0
  | Some resetSchedule =>
      let nextResets := cronexpr.NextN resetSchedule currentTime 2 in
      match nextResets !! 0%nat, nextResets !! 1%nat with
      | Some t1, Some t2 =>
          let resetPeriod := time.Sub t2 t1 in
          let prevReset := time.Add t1 (wrap64 (resetPeriod * -1)) in
          if time.Before prevReset (time.Unix startTime 0) then Ok 0
          else Ok (time.Time_Unix prevReset)
      | _, _ => Panic
      end
  end.

(** *** [LeaderboardRecordsList] (lines 118-349) *)

(** The variables of the row loop (lines 170-185) that live across its
    rounds: the page so far, the two boundary cursors, the running rank, and
    the columns of the row scanned last. *)
Record listState : Type := {
  ls_records : list api.LeaderboardRecord;
  ls_nextCursor : option leaderboardRecordListCursor;
  ls_prevCursor : option leaderboardRecordListCursor;
  ls_rank : Z;
  ls_dbOwnerID : string;
  ls_dbScore : Z;
  ls_dbSubscore : Z
}.

Definition listState_init (limitNumber : Z)
    (incomingCursor : option leaderboardRecordListCursor) : listState :=
  {| ls_records := [];
     ls_nextCursor := None;
     ls_prevCursor := None;
     ls_rank := match incomingCursor with
                | Some c => Rank c
                | None => 0
                end;
     ls_dbOwnerID := "";
     ls_dbScore := 0;
     ls_dbSubscore := 0 |}.

(** One round of [for rows.Next() { ... }] (lines 186-245). *)
Definition listRow (leaderboardId : string) (expiryTime limitNumber : Z)
    (incomingCursor : option leaderboardRecordListCursor)
    (st : listState) (row : db.Row) : listState :=
  let nextCursor :=
    if limitNumber <=? Z.of_nat (length (ls_records st)) then
      Some {| IsNext := true;
              LeaderboardId := leaderboardId;
              ExpiryTime := expiryTime;
              Score := ls_dbScore st;
              Subscore := ls_dbSubscore st;
              OwnerId := ls_dbOwnerID st;
              Rank := ls_rank st |}
    else ls_nextCursor st in
  (* rows.Scan(&dbOwnerID, &dbUsername, &dbScore, &dbSubscore, ...) *)
  let dbOwnerID := db.owner_id row in
  let dbScore := db.score row in
  let dbSubscore := db.subscore row in
  let rank :=
    match incomingCursor with
    | Some c => if negb (IsNext c) then wrap64 (ls_rank st - 1) else wrap64 (ls_rank st + 1)
    | None => wrap64 (ls_rank st + 1)
    end in
  let record :=
    {| api.LeaderboardId := leaderboardId;
       api.OwnerId := dbOwnerID;
       api.Username := db.username row;
       api.Score := dbScore;
       api.Subscore := dbSubscore;
       api.NumScore := db.num_score row;
       api.MaxNumScore := to_uint32 (db.max_num_score row);
       api.Metadata := db.metadata row;
       api.CreateTime := time.Time_Unix (db.create_time row);
       api.UpdateTime := time.Time_Unix (db.update_time row);
       api.ExpiryTime := if expiryTime =? 0 then None else Some expiryTime;
       api.Rank := rank |} in
  let prevCursor :=
    match incomingCursor, ls_prevCursor st with
    | Some _, None =>
        Some {| IsNext := false;
                LeaderboardId := leaderboardId;
                ExpiryTime := expiryTime;
                Score := dbScore;
                Subscore := dbSubscore;
                OwnerId := dbOwnerID;
                Rank := rank |}
    | _, p => p
    end in
  {| ls_records := ls_records st ++ [record];
     ls_nextCursor := nextCursor;
     ls_prevCursor := prevCursor;
     ls_rank := rank;
     ls_dbOwnerID := dbOwnerID;
     ls_dbScore := dbScore;
     ls_dbSubscore := dbSubscore |}.

Definition set_IsNext_Rank (isNext : bool) (rank : Z) (c : leaderboardRecordListCursor)
    : leaderboardRecordListCursor :=
  {| IsNext := isNext; LeaderboardId := LeaderboardId c; ExpiryTime := ExpiryTime c;
     Score := Score c; Subscore := Subscore c; OwnerId := OwnerId c; Rank := rank |}.

(** The cursor swap of a previous-page listing (lines 250-258).  In the
    first branch the tuple assignment reads, before it assigns anything,
    both cursor pointers and the [IsNext] and [Rank] of both cursors; so the
    two cursor objects trade places, and each takes the other's [IsNext] and
    [Rank]. *)
Definition swapCursors (nextCursor prevCursor : option leaderboardRecordListCursor)
    : option leaderboardRecordListCursor * option leaderboardRecordListCursor :=
  match nextCursor, prevCursor with
  | Some n, Some p =>
      (Some (set_IsNext_Rank (IsNext n) (Rank n) p),
       Some (set_IsNext_Rank (IsNext p) (Rank p) n))
  | Some n, None => (None, Some (set_IsNext_Rank (negb (IsNext n)) (Rank n) n))
  | None, Some p => (Some (set_IsNext_Rank (negb (IsNext p)) (Rank p) p), None)
  | None, None => (None, None)
  end.

(** The body of the reversal loop (line 261):

    [records[i], records[i].Rank, records[j], records[j].Rank =
       records[j], records[j].Rank, records[i], records[i].Rank]

    [records] is a slice of pointers; [heap] holds the record objects, a
    pointer being an index into it.  Go evaluates a tuple assignment in two
    phases: first the operands of the index expressions and pointer
    indirections on the left and all expressions on the right, then the
    assignments from left to right.  The two [.Rank] on the left therefore
    write through the pointers that [records[i]] and [records[j]] held
    before the assignment. *)
Definition swapRecords (i j : Z) (records : list nat) (heap : list api.LeaderboardRecord)
    : option (list nat * list api.LeaderboardRecord) :=
  if (i <? 0) || (j <? 0) then None
  else
    (* phase 1 *)
    match records !! Z.to_nat i, records !! Z.to_nat j with
    | Some p_i, Some p_j =>
        match heap !! p_i, heap !! p_j with
        | Some o_i, Some o_j =>
            let rank_i := api.Rank o_i in
            let rank_j := api.Rank o_j in
            (* phase 2 *)
            let records := <[Z.to_nat i := p_j]> records in
            let heap := alter (api.set_Rank rank_j) p_i heap in
            let records := <[Z.to_nat j := p_i]> records in
            let heap := alter (api.set_Rank rank_i) p_j heap in
            Some (records, heap)
        | _, _ => None
        end
    | _, _ => None
    end.

(** [for i, j := 0, len(records)-1; i < j; i, j = i+1, j-1 { ... }]; the
    loop makes fewer rounds than the slice has elements. *)
Fixpoint reverseLoop (fuel : nat) (i j : Z) (records : list nat)
    (heap : list api.LeaderboardRecord)
    : option (list nat * list api.LeaderboardRecord) :=
  if i <? j then
    match fuel with
    | O => None
    | S fuel' =>
        match swapRecords i j records heap with
        | Some (records', heap') => reverseLoop fuel' (i + 1) (j - 1) records' heap'
        | None => None
        end
    end
  else Some (records, heap).

(** The loop run on the page: each record is an object of its own, in the
    order of allocation. *)
Definition reverseRecords (records : list api.LeaderboardRecord)
    : outcome (list api.LeaderboardRecord) :=
  let n := length records in
  match reverseLoop n 0 (Z.of_nat n - 1) (seq 0 n) records with
  | Some (pointers, heap) =>
      match mapM (fun p => heap !! p) pointers with
      | Some l => Ok l
      | None => Panic
      end
  | None => Panic
  end.

(** The literal row comparison of the paginated query (lines 151, 154):
    [(leaderboard_id, expiry_time, score, subscore, owner_id) ? ($1, $2, $4, $5, $6)]. *)
Definition board_key_compare (a b : string * time.Time * db.key) : comparison :=
  match a, b with
  | (l1, e1, k1), (l2, e2, k2) =>
      match String.compare l1 l2 with
      | Eq =>
          match e1 ?= e2 with
          | Eq => db.key_compare k1 k2
          | c => c
          end
      | c => c
      end
  end.

Definition board_key_of (r : db.Row) : string * time.Time * db.key :=
  (db.leaderboard_id r, db.expiry_time r, db.key_of r).

Definition cursor_key (c : leaderboardRecordListCursor) : db.key :=
  (Score c, Subscore c, OwnerId c).

(** The [WHERE] and [ORDER BY] of the paginated query (lines 141-156). *)
Definition listQuery (sortOrder : LeaderboardSortOrder) (leaderboardId : string)
    (expiry : time.Time) (incomingCursor : option leaderboardRecordListCursor)
    : (db.Row -> bool) * db.Order :=
  match incomingCursor with
  | None =>
      match sortOrder with
      | LeaderboardSortOrderAscending => (db.in_board leaderboardId expiry, db.ASC)
      | LeaderboardSortOrderDescending => (db.in_board leaderboardId expiry, db.DESC)
      end
  | Some c =>
      let bound := (leaderboardId, expiry, cursor_key c) in
      match sortOrder, IsNext c with
      | LeaderboardSortOrderAscending, true
      | LeaderboardSortOrderDescending, false =>
          (* Ascending and next page == descending and previous page. *)
          (fun r => db.in_board leaderboardId expiry r
                    && match board_key_compare (board_key_of r) bound with
                       | Gt => true
                       | _ => false
                       end,
           db.ASC)
      | _, _ =>
          (* Ascending and previous page == descending and next page. *)
          (fun r => db.in_board leaderboardId expiry r
                    && match board_key_compare (board_key_of r) bound with
                       | Lt => true
                       | _ => false
                       end,
           db.DESC)
      end
  end.

Definition marshalOpt (c : option leaderboardRecordListCursor) : M RC string :=
  match c with
  | Some c => lift (marshalLeaderboardRecordsListCursor c)
  | None => mret ""
  end.

Definition is_prev (incomingCursor : option leaderboardRecordListCursor) : bool :=
  match incomingCursor with
  | Some c => negb (IsNext c)
  | None => false
  end.

(** The branch [if limit != nil { ... }] (lines 134-279): the page and the
    two cursor strings. *)
Definition listPage (leaderboard : Leaderboard) (leaderboardId : string)
    (expiryTime limitNumber : Z) (cursor : string)
    : M RC (list api.LeaderboardRecord * string * string) :=
  incomingCursor ← lift (unmarshalLeaderboardRecordsListCursor leaderboardId expiryTime cursor);
  let '(cond, order) :=
    listQuery (SortOrder leaderboard) leaderboardId (time.Unix expiryTime 0) incomingCursor in
  rows ← db_read db_QueryContext
           (fun t => db.select_ordered t cond order (wrap64 (limitNumber + 1)));
  match rows with
  | inr err => fail (ErrStore err)
  | inl rows =>
      (* records = make([]*api.LeaderboardRecord, 0, limitNumber) *)
      if limitNumber <? 0 then panic
      else
        let st := foldl (listRow leaderboardId expiryTime limitNumber incomingCursor)
                        (listState_init limitNumber incomingCursor) rows in
        '(nextCursor, prevCursor, records) ←
          (if is_prev incomingCursor then
             let '(nextCursor, prevCursor) :=
               swapCursors (ls_nextCursor st) (ls_prevCursor st) in
             records ← lift (reverseRecords (ls_records st));
             mret (nextCursor, prevCursor, records)
           else mret (ls_nextCursor st, ls_prevCursor st, ls_records st));
        nextCursorStr ← marshalOpt nextCursor;
        prevCursorStr ← marshalOpt prevCursor;
        mret (records, nextCursorStr, prevCursorStr)
  end.

(** The owner batch (lines 281-338):
    [... WHERE leaderboard_id = $1 AND expiry_time = $2 AND owner_id IN (...)]. *)
Definition ownerRow (leaderboardId : string) (expiryTime : Z) (row : db.Row)
    : api.LeaderboardRecord :=
  {| api.LeaderboardId := leaderboardId;
     api.OwnerId := db.owner_id row;
     api.Username := db.username row;
     api.Score := db.score row;
     api.Subscore := db.subscore row;
     api.NumScore := db.num_score row;
     api.MaxNumScore := to_uint32 (db.max_num_score row);
     api.Metadata := db.metadata row;
     api.CreateTime := time.Time_Unix (db.create_time row);
     api.UpdateTime := time.Time_Unix (db.update_time row);
     api.ExpiryTime := if expiryTime =? 0 then None else Some expiryTime;
     api.Rank := 0 |}.

Definition listOwners (leaderboardId : string) (expiryTime : Z) (ownerIds : list string)
    : M RC (list api.LeaderboardRecord) :=
  match ownerIds with
  | [] => mret []
  | _ =>
      rows ← db_read db_QueryContext
               (fun t => inl (List.filter
                                (fun r => db.in_board leaderboardId (time.Unix expiryTime 0) r
                                          && bool_decide (db.owner_id r ∈ ownerIds)) t));
      match rows with
      | inr err => fail (ErrStore err)
      | inl rows => mret (map (ownerRow leaderboardId expiryTime) rows)
      end
  end.

Definition LeaderboardRecordsList (leaderboardCache : LeaderboardCache)
    (leaderboardId : string) (limit : option Z) (cursor : string)
    (ownerIds : list string) (overrideExpiry : Z) : M RC api.LeaderboardRecordList :=
  match leaderboardCache leaderboardId with
  | None => fail ErrLeaderboardNotFound
  | Some leaderboard =>
      '(expiryTime, recordsPossible) ← calculateExpiryOverride overrideExpiry leaderboard;
      if negb recordsPossible then
        (* If the expiry time is in the past, we wont have any records to return. *)
        mret {| api.Records := []; api.OwnerRecords := [];
                api.NextCursor := ""; api.PrevCursor := "" |}
      else
        '(records, nextCursorStr, prevCursorStr) ←
          match limit with
          | Some limitNumber =>
              listPage leaderboard leaderboardId expiryTime limitNumber cursor
          | None => mret ([], "", "")
          end;
        ownerRecords ← listOwners leaderboardId expiryTime ownerIds;
        (* Bulk fill in the ranks of any owner records requested. *)
        ownerRecords ← do_rank_Fill leaderboardId expiryTime ownerRecords;
        mret {| api.Records := records; api.OwnerRecords := ownerRecords;
                api.NextCursor := nextCursorStr; api.PrevCursor := prevCursorStr |}
  end.

(** *** [LeaderboardRecordWrite] (lines 384-545) *)

(** The operator that applies (lines 399-413). *)
Definition effectiveOperator (leaderboard : Leaderboard) (overrideOperator : api.Operator)
    : outcome LeaderboardOperator :=
  match overrideOperator with
  | api.Operator_NO_OVERRIDE => Ok (Operator leaderboard)
  | api.Operator_INCREMENT => Ok LeaderboardOperatorIncrement
  | api.Operator_SET => Ok LeaderboardOperatorSet
  | api.Operator_BEST => Ok LeaderboardOperatorBest
  | api.Operator_DECREMENT => Ok LeaderboardOperatorDecrement
  | api.Operator_unknown _ => Err ErrInvalidOperator
  end.

(** What the [switch operator] (lines 421-459) leaves in [opSQL],
    [filterSQL], [scoreDelta], [subscoreDelta], [scoreAbs], [subscoreAbs]. *)
Record writePlan : Type := {
  wp_opSQL : db.opSQL;
  wp_filterSQL : db.filterSQL;
  wp_scoreDelta : Z;
  wp_subscoreDelta : Z;
  wp_scoreAbs : Z;
  wp_subscoreAbs : Z
}.

Definition planWrite (operator : LeaderboardOperator) (sortOrder : LeaderboardSortOrder)
    (score subscore : Z) : writePlan :=
  match operator with
  | LeaderboardOperatorIncrement =>
      {| wp_opSQL := db.op_increment; wp_filterSQL := db.filter_delta_nonzero;
         wp_scoreDelta := score; wp_subscoreDelta := subscore;
         wp_scoreAbs := score; wp_subscoreAbs := subscore |}
  | LeaderboardOperatorDecrement =>
      {| wp_opSQL := db.op_decrement; wp_filterSQL := db.filter_delta_nonzero;
         wp_scoreDelta := score; wp_subscoreDelta := subscore;
         wp_scoreAbs := 0; wp_subscoreAbs := 0 |}
  | LeaderboardOperatorSet =>
      {| wp_opSQL := db.op_set; wp_filterSQL := db.filter_differs;
         wp_scoreDelta := score; wp_subscoreDelta := subscore;
         wp_scoreAbs := score; wp_subscoreAbs := subscore |}
  | LeaderboardOperatorBest =>
      match sortOrder with
      | LeaderboardSortOrderAscending =>
          (* Lower score is better. *)
          {| wp_opSQL := db.op_least; wp_filterSQL := db.filter_greater;
             wp_scoreDelta := score; wp_subscoreDelta := subscore;
             wp_scoreAbs := score; wp_subscoreAbs := subscore |}
      | LeaderboardSortOrderDescending =>
          (* Higher score is better. *)
          {| wp_opSQL := db.op_greatest; wp_filterSQL := db.filter_less;
             wp_scoreDelta := score; wp_subscoreDelta := subscore;
             wp_scoreAbs := score; wp_subscoreAbs := subscore |}
      end
  end.

(** [nil] for an empty string (lines 468-478). *)
Definition nullable (s : string) : option string :=
  if bool_decide (s = "") then None else Some s.

(** The parameters of the upsert (lines 466-482).  [$8] and [$9] are
    appended for increment and decrement only, the operators whose SQL
    names them. *)
Definition writeParams (leaderboardId ownerID username metadata : string)
    (expiryTime : Z) (plan : writePlan) : db.upsertParams :=
  {| db.p1_leaderboard_id := leaderboardId;
     db.p2_owner_id := ownerID;
     db.p3_username := nullable username;
     db.p4_score := wp_scoreAbs plan;
     db.p5_subscore := wp_subscoreAbs plan;
     db.p6_metadata := nullable metadata;
     db.p7_expiry_time := time.Unix expiryTime 0;
     db.p8_score_delta := wp_scoreDelta plan;
     db.p9_subscore_delta := wp_subscoreDelta plan |}.

(** The error test of line 498: neither [sql.ErrNoRows] nor a unique
    violation of the primary key. *)
Definition is_fatal_write_error (err : sql_error) : bool :=
  match err with
  | sqlErrNoRows => false
  | PgError code message =>
      negb (bool_decide (code = dbErrorUniqueViolation)
            && strings_Contains message "leaderboard_record_pkey")
  end.

Definition currentExpiry (leaderboard : Leaderboard) : M RC Z :=
  match ResetSchedule leaderboard with
  | Some resetSchedule =>
      now ← time_Now;
      mret (time.Time_Unix (cronexpr.Next resetSchedule now))
  | None => mret 0
  end.

Definition LeaderboardRecordWrite (leaderboardCache : LeaderboardCache)
    (caller : uuid.UUID) (leaderboardId ownerID username : string)
    (score subscore : Z) (metadata : string) (overrideOperator : api.Operator)
    : M RC api.LeaderboardRecord :=
  match leaderboardCache leaderboardId with
  | None => fail ErrLeaderboardNotFound
  | Some leaderboard =>
      if Authoritative leaderboard && bool_decide (caller <> uuid.Nil) then
        fail ErrLeaderboardAuthoritative
      else
        expiryTime ← currentExpiry leaderboard;
        operator ← lift (effectiveOperator leaderboard overrideOperator);
        let plan := planWrite operator (SortOrder leaderboard) score subscore in
        let params := writeParams leaderboardId ownerID username metadata expiryTime plan in
        res ← db_write db_QueryRowContext
                (fun now t => db.upsert default_max_num_score now t
                                (wp_opSQL plan) (wp_filterSQL plan) params);
        (* Track if the database record actually updates or not. *)
        '(row, unchanged) ←
          match res with
          | inl row => mret (row, false)
          | inr err =>
              if is_fatal_write_error err then fail (ErrStore err)
              else
                res ← db_read db_QueryRowContext
                        (fun t => db.select_record t leaderboardId ownerID
                                    (time.Unix expiryTime 0));
                match res with
                | inr err => fail (ErrStore err)
                | inl row => mret (row, true)
                end
          end;
        owner ← uuid_Must_FromString ownerID;
        rank ←
          (if unchanged : bool then do_rank_Get leaderboardId expiryTime owner
           else
             (* Ensure we have the latest dbscore, dbsubscore if there was an update. *)
             do_rank_Insert leaderboardId expiryTime (SortOrder leaderboard) owner
               (db.score row) (db.subscore row));
        mret {| api.Rank := rank;
                api.LeaderboardId := leaderboardId;
                api.OwnerId := ownerID;
                api.Score := db.score row;
                api.Subscore := db.subscore row;
                api.NumScore := db.num_score row;
                api.MaxNumScore := to_uint32 (db.max_num_score row);
                api.Metadata := db.metadata row;
                api.CreateTime := time.Time_Unix (db.create_time row);
                api.UpdateTime := time.Time_Unix (db.update_time row);
                api.Username := db.username row;
                api.ExpiryTime := if expiryTime =? 0 then None else Some expiryTime |}
  end.

(** *** [LeaderboardRecordDelete] (lines 547-571) *)
Definition LeaderboardRecordDelete (leaderboardCache : LeaderboardCache)
    (caller : uuid.UUID) (leaderboardId ownerID : string) : M RC unit :=
  match leaderboardCache leaderboardId with
  | None => fail ErrLeaderboardNotFound
  | Some leaderboard =>
      if Authoritative leaderboard && bool_decide (caller <> uuid.Nil) then
        fail ErrLeaderboardAuthoritative
      else
        expiryTime ← currentExpiry leaderboard;
        res ← db_write db_ExecContext
                (fun _ t => (inl tt : db.result unit,
                             db.delete_record t leaderboardId ownerID
                               (time.Unix expiryTime 0)));
        match res with
        | inr err => fail (ErrStore err)
        | inl _ =>
            owner ← uuid_Must_FromString ownerID;
            do_rank_Delete leaderboardId expiryTime owner
        end
  end.

(** *** [parseLeaderboardRecords] (lines 858-902) *)
Definition parseLeaderboardRecord (row : db.Row) : api.LeaderboardRecord :=
  {| api.LeaderboardId := db.leaderboard_id row;
     api.OwnerId := db.owner_id row;
     api.Username := db.username row;
     api.Score := db.score row;
     api.Subscore := db.subscore row;
     api.NumScore := db.num_score row;
     api.MaxNumScore := to_uint32 (db.max_num_score row);
     api.Metadata := db.metadata row;
     api.CreateTime := time.Time_Unix (db.create_time row);
     api.UpdateTime := time.Time_Unix (db.update_time row);
     api.ExpiryTime :=
       let expiryTime := time.Time_Unix (db.expiry_time row) in
       if expiryTime =? 0 then None else Some expiryTime;
     api.Rank := 0 |}.

Definition parseLeaderboardRecords (rows : list db.Row) : list api.LeaderboardRecord :=
  map parseLeaderboardRecord rows.

(** *** [getLeaderboardRecordsHaystack] (lines 665-856) *)

(** [int32(limit)] *)
Definition to_int32 (z : Z) : Z := (z + 2 ^ 31) mod 2 ^ 32 - 2 ^ 31.

(** The two one-sided queries (lines 719-735, 761-774): the rows of the
    board strictly before or after the owner's key, from the owner outward. *)
Inductive Side : Type := Better | Worse.

Definition haystackQuery (sortOrder : LeaderboardSortOrder) (side : Side)
    (leaderboardId : string) (expiryTime : time.Time) (ownerKey : db.key)
    : (db.Row -> bool) * db.Order :=
  match sortOrder, side with
  | LeaderboardSortOrderAscending, Better
  | LeaderboardSortOrderDescending, Worse =>
      (* (score, subscore, owner_id) < ($3, $4, $5) ORDER BY ... DESC *)
      (fun r => db.in_board leaderboardId expiryTime r
                && db.key_ltb (db.key_of r) ownerKey,
       db.DESC)
  | _, _ =>
      (* (score, subscore, owner_id) > ($3, $4, $5) ORDER BY ... ASC *)
      (fun r => db.in_board leaderboardId expiryTime r
                && db.key_ltb ownerKey (db.key_of r),
       db.ASC)
  end.

Definition haystackCursor (isNext : bool) (expiryTime : time.Time)
    (r : api.LeaderboardRecord) : leaderboardRecordListCursor :=
  {| IsNext := isNext;
     LeaderboardId := api.LeaderboardId r;
     ExpiryTime := time.Time_Unix expiryTime;
     Score := api.Score r;
     Subscore := api.Subscore r;
     OwnerId := api.OwnerId r;
     Rank := api.Rank r |}.

Definition getLeaderboardRecordsHaystack (leaderboardCache : LeaderboardCache)
    (ownerID : uuid.UUID) (limit : Z) (leaderboardId cursor : string)
    (sortOrder : LeaderboardSortOrder) (expiryTime : time.Time)
    : M RC api.LeaderboardRecordList :=
  if bool_decide (cursor = "") then
    (* WHERE owner_id = $1 AND leaderboard_id = $2 AND expiry_time = $3 *)
    res ← db_read db_QueryRowContext
            (fun t => db.select_record t leaderboardId ownerID expiryTime);
    match res with
    | inr sqlErrNoRows =>
        mret {| api.Records := []; api.OwnerRecords := [];
                api.NextCursor := ""; api.PrevCursor := "" |}
    | inr err => fail (ErrStore err)
    | inl row =>
        let ownerRecord := parseLeaderboardRecord row in
        if limit =? 1 then
          rank ← do_rank_Get leaderboardId (time.Time_Unix expiryTime) ownerID;
          mret {| api.Records := [api.set_Rank rank ownerRecord]; api.OwnerRecords := [];
                  api.NextCursor := ""; api.PrevCursor := "" |}
        else
          let ownerKey := (api.Score ownerRecord, api.Subscore ownerRecord, ownerID) in
          (* First half. *)
          let '(cond, order) := haystackQuery sortOrder Better leaderboardId expiryTime ownerKey in
          res ← db_read db_QueryContext
                  (fun t => db.select_ordered t cond order (wrap64 (limit + 1)));
          match res with
          | inr err => fail (ErrStore err)
          | inl firstRows =>
              let firstRecords := parseLeaderboardRecords firstRows in
              '(setNextCursor, firstRecords) ←
                (if limit <? Z.of_nat (length firstRecords) then
                   (* Check if there might be a next cursor *)
                   firstRecords ← slice firstRecords 0 (Z.of_nat (length firstRecords) - 1);
                   mret (true, firstRecords)
                 else mret (false, firstRecords));
              (* We went 'up' on the leaderboard, so reverse the first half of records. *)
              let firstRecords := reverse firstRecords in
              let '(cond, order) :=
                haystackQuery sortOrder Worse leaderboardId expiryTime ownerKey in
              let secondLimit := int_div limit 2 in
              let secondLimit :=
                let l := Z.of_nat (length firstRecords) in
                if l <? secondLimit then wrap64 (limit - l) else secondLimit in
              res ← db_read db_QueryContext
                      (fun t => db.select_ordered t cond order (wrap64 (secondLimit + 1)));
              match res with
              | inr err => fail (ErrStore err)
              | inl secondRows =>
                  let secondRecords := parseLeaderboardRecords secondRows in
                  '(setPrevCursor, secondRecords) ←
                    (if secondLimit <? Z.of_nat (length secondRecords) then
                       (* Check if there might be a prev cursor *)
                       secondRecords ← slice secondRecords 0
                                         (Z.of_nat (length secondRecords) - 1);
                       mret (true, secondRecords)
                     else mret (false, secondRecords));
                  let records := firstRecords ++ [ownerRecord] in
                  let records := records ++ secondRecords in
                  let numRecords := Z.of_nat (length records) in
                  let start := wrap64 (numRecords - limit) in
                  let start :=
                    if (start <? 0) || (Z.of_nat (length firstRecords) <? int_div limit 2)
                    then 0 else start in
                  let end_ := wrap64 (start + limit) in
                  let end_ := if numRecords <? end_ then numRecords else end_ in
                  records ← slice records start end_;
                  records ← do_rank_Fill leaderboardId (time.Time_Unix expiryTime) records;
                  nextCursorStr ←
                    (if setNextCursor : bool then
                       firstRecord ← index records 0;
                       lift (marshalLeaderboardRecordsListCursor
                               (haystackCursor false expiryTime firstRecord))
                     else mret "");
                  prevCursorStr ←
                    (if setPrevCursor : bool then
                       lastRecord ← index records (Z.of_nat (length records) - 1);
                       lift (marshalLeaderboardRecordsListCursor
                               (haystackCursor true expiryTime lastRecord))
                     else mret "");
                  mret {| api.Records := records; api.OwnerRecords := [];
                          api.PrevCursor := prevCursorStr; api.NextCursor := nextCursorStr |}
              end
          end
    end
  else
    (* If a cursor is passed, then this becomes a regular record listing operation. *)
    LeaderboardRecordsList leaderboardCache leaderboardId (Some (to_int32 limit)) cursor []
      (time.Time_Unix expiryTime).

(** *** [LeaderboardRecordsHaystack] (lines 595-608) *)
Definition LeaderboardRecordsHaystack (leaderboardCache : LeaderboardCache)
    (leaderboardId cursor : string) (ownerID : uuid.UUID) (limit overrideExpiry : Z)
    : M RC api.LeaderboardRecordList :=
  match leaderboardCache leaderboardId with
  | None => fail ErrLeaderboardNotFound
  | Some leaderboard =>
      '(expiryTime, recordsPossible) ← calculateExpiryOverride overrideExpiry leaderboard;
      if negb recordsPossible then
        mret {| api.Records := []; api.OwnerRecords := [];
                api.NextCursor := ""; api.PrevCursor := "" |}
      else
        getLeaderboardRecordsHaystack leaderboardCache ownerID limit (Id leaderboard) cursor
          (SortOrder leaderboard) (time.Unix expiryTime 0)
  end.

End Engine.

(* ================================================================== *)
(** ** A small installation, for the examples

    A rank cache that ranks nothing (it answers 0 and leaves records as they
    are), leaderboards without a schedule, and a board of five owners. *)
(* ================================================================== *)

Module Example.

#[global] Instance noRankCache : LeaderboardRankCache unit := {
  rank_Get _ _ _ _ := 0;
  rank_Insert _ _ _ _ _ _ _ := (0, tt);
  rank_Delete _ _ _ _ := tt;
  rank_Fill _ _ _ r := api.Rank r
}.

(** Ids are accepted as they are written. *)
Definition uuid_FromString (s : string) : option uuid.UUID := Some s.

Definition noTournament (startTime endTime duration : Z)
    (resetSchedule : option cronexpr.Expression) (t : time.Time) : Z * Z * Z :=
  (0, 0, 0).

Definition default_max_num_score : Z := 1000000.

Definition board (sortOrder : LeaderboardSortOrder) (operator : LeaderboardOperator)
    (authoritative : bool) : Leaderboard :=
  {| Id := "lb"; Authoritative := authoritative; SortOrder := sortOrder;
     Operator := operator; ResetSchedule := None; Metadata := "{}";
     CreateTime := 0; StartTime := 0; EndTime := 0; Duration := 0;
     IsTournament := false |}.

Definition cache (l : Leaderboard) : LeaderboardCache :=
  fun id => if bool_decide (id = Id l) then Some l else None.

Definition row (owner : string) (score : Z) : db.Row :=
  {| db.leaderboard_id := "lb"; db.owner_id := owner; db.username := None;
     db.score := score; db.subscore := 0; db.num_score := 1;
     db.max_num_score := default_max_num_score; db.metadata := "{}";
     db.create_time := 0; db.update_time := 0; db.expiry_time := 0 |}.

Definition world (t : db.Table) : World unit :=
  {| table := t; rankCache := tt; now := 0; events := [] |}.

(** Five owners scoring 50 down to 10, in no particular order of insertion. *)
Definition five : db.Table :=
  [row "o3" 30; row "o1" 50; row "o5" 10; row "o2" 40; row "o4" 20].

Definition descending : Leaderboard :=
  board LeaderboardSortOrderDescending LeaderboardOperatorBest false.

Definition cursor (isNext : bool) (score : Z) (owner : string) (rank : Z)
    : leaderboardRecordListCursor :=
  {| IsNext := isNext; LeaderboardId := "lb"; ExpiryTime := 0; Score := score;
     Subscore := 0; OwnerId := owner; Rank := rank |}.

Definition token (c : leaderboardRecordListCursor) : string :=
  match marshalLeaderboardRecordsListCursor c with
  | Ok s => s
  | _ => ""
  end.

(** A page as a client sees it: owner, score and rank of each record. *)
Definition page (l : api.LeaderboardRecordList) : list (string * Z * Z) :=
  map (fun r => (api.OwnerId r, api.Score r, api.Rank r)) (api.Records l).

Definition list_ (l : Leaderboard) (t : db.Table) (limit : Z) (cursor : string)
    : outcome api.LeaderboardRecordList :=
  fst (LeaderboardRecordsList noTournament (cache l) "lb" (Some limit) cursor [] 0 (world t)).

Definition write (l : Leaderboard) (t : db.Table) (caller : uuid.UUID) (owner : string)
    (score subscore : Z) (metadata : string)
    : outcome api.LeaderboardRecord * World unit :=
  LeaderboardRecordWrite uuid_FromString default_max_num_score (cache l) caller "lb"
    owner "" score subscore metadata api.Operator_NO_OVERRIDE (world t).


End Example.

(* ================================================================== *)
(** ** Values that the codec carries

    A field value fits its gob type when an integer is a 64-bit integer and
    a string is shorter than 2^30 bytes, which keeps every message under the
    size that gob accepts.  A cursor is well formed when its fields fit. *)
(* ================================================================== *)

Definition gob_value_ok (t : Gob.gobType) (v : Gob.gobValue) : Prop :=
  match t, v with
  | Gob.tBool, Gob.vBool _ => True
  | Gob.tInt, Gob.vInt i => in_int64 i
  | Gob.tString, Gob.vString s => Z.of_nat (String.length s) < 2 ^ 30
  | _, _ => False
  end.

Definition cursor_wf (c : leaderboardRecordListCursor) : Prop :=
  Z.of_nat (String.length (LeaderboardId c)) < 2 ^ 30
  /\ in_int64 (ExpiryTime c)
  /\ in_int64 (Score c)
  /\ in_int64 (Subscore c)
  /\ Z.of_nat (String.length (OwnerId c)) < 2 ^ 30
  /\ in_int64 (Rank c).

(* ================================================================== *)
(** ** Vocabulary of the statements *)
(* ================================================================== *)

(** The expiry that the writer and the deleter bind a record to (lines
    394-397, 557-560): the next reset after [now] in epoch seconds, or 0
    for a board that never resets. *)
Definition expiryAt (leaderboard : Leaderboard) (now : time.Time) : Z :=
  match ResetSchedule leaderboard with
  | Some resetSchedule => time.Time_Unix (cronexpr.Next resetSchedule now)
  | None => 0
  end.

(** The primary key of a row, and a table that holds each key once. *)
Definition primary_key (r : db.Row) : string * string * time.Time :=
  (db.leaderboard_id r, db.owner_id r, db.expiry_time r).

Definition keys_unique (t : db.Table) : Prop := NoDup (map primary_key t).

(** The sort key of a record of the API. *)
Definition record_key (r : api.LeaderboardRecord) : db.key :=
  (api.Score r, api.Subscore r, api.OwnerId r).

(** The guard of the writer and the deleter lets a caller through. *)
Definition may_write (leaderboard : Leaderboard) (caller : uuid.UUID) : Prop :=
  Authoritative leaderboard = false \/ caller = uuid.Nil.

(** What the operator asks of a submission that meets a stored row: whether
    the row is to change, and the score and subscore it is to take. *)
Definition write_admits (operator : LeaderboardOperator) (sortOrder : LeaderboardSortOrder)
    (old : db.Row) (score subscore : Z) : Prop :=
  match operator, sortOrder with
  | LeaderboardOperatorIncrement, _
  | LeaderboardOperatorDecrement, _ => score <> 0 \/ subscore <> 0
  | LeaderboardOperatorSet, _ => db.score old <> score \/ db.subscore old <> subscore
  | LeaderboardOperatorBest, LeaderboardSortOrderAscending =>
      score < db.score old \/ subscore < db.subscore old
  | LeaderboardOperatorBest, LeaderboardSortOrderDescending =>
      db.score old < score \/ db.subscore old < subscore
  end.


(** The sums and differences of increment and decrement stay 64-bit. *)
Definition write_in_range (operator : LeaderboardOperator) (old : db.Row)
    (score subscore : Z) : Prop :=
  match operator with
  | LeaderboardOperatorIncrement =>
      in_int64 (db.score old + score) /\ in_int64 (db.subscore old + subscore)
  | LeaderboardOperatorDecrement =>
      in_int64 (db.score old - score) /\ in_int64 (db.subscore old - subscore)
  | _ => True
  end.

(** The record that the writer returns for a row (lines 525-542). *)
Definition written_record (leaderboardId ownerID : string) (expiryTime rank : Z)
    (row : db.Row) : api.LeaderboardRecord :=
  {| api.Rank := rank;
     api.LeaderboardId := leaderboardId;
     api.OwnerId := ownerID;
     api.Score := db.score row;
     api.Subscore := db.subscore row;
     api.NumScore := db.num_score row;
     api.MaxNumScore := to_uint32 (db.max_num_score row);
     api.Metadata := db.metadata row;
     api.CreateTime := time.Time_Unix (db.create_time row);
     api.UpdateTime := time.Time_Unix (db.update_time row);
     api.Username := db.username row;
     api.ExpiryTime := if expiryTime =? 0 then None else Some expiryTime |}.


(** A page after the reversal loop of a previous-page listing: the records
    in reverse order, the rank values in the order they had. *)
Definition mirror_ranks (l : list api.LeaderboardRecord) : list api.LeaderboardRecord :=
  zip_with (fun r rank => api.set_Rank rank r) (reverse l) (map api.Rank l).

(** The reversal loop after [k] rounds on a page [l] of [n] records: the
    elements [k] from either end have been exchanged. *)
Definition swapped (n k i : nat) : bool := (i <? k)%nat || (n - k <=? i)%nat.

Definition pointers_after (n k : nat) : list nat :=
  map (fun i => if swapped n k i then (n - 1 - i)%nat else i) (seq 0 n).

Definition heap_after (l : list api.LeaderboardRecord) (k : nat)
    : list api.LeaderboardRecord :=
  imap (fun p o =>
          if swapped (length l) k p
          then api.set_Rank (default 0 (api.Rank <$> l !! (length l - 1 - p)%nat)) o
          else o) l.

(** The rank that the row loop gives the next row (lines 206-210), and the
    rank after [n] rows. *)
Definition next_rank (incomingCursor : option leaderboardRecordListCursor) (rank : Z) : Z :=
  if is_prev incomingCursor then wrap64 (rank - 1) else wrap64 (rank + 1).

Definition rank_after (incomingCursor : option leaderboardRecordListCursor) (rank : Z)
    (n : nat) : Z :=
  Nat.iter n (next_rank incomingCursor) rank.

(** The record that the row loop makes of a row (lines 212-229). *)
Definition listed_record (leaderboardId : string) (expiryTime rank : Z) (row : db.Row)
    : api.LeaderboardRecord :=
  {| api.LeaderboardId := leaderboardId;
     api.OwnerId := db.owner_id row;
     api.Username := db.username row;
     api.Score := db.score row;
     api.Subscore := db.subscore row;
     api.NumScore := db.num_score row;
     api.MaxNumScore := to_uint32 (db.max_num_score row);
     api.Metadata := db.metadata row;
     api.CreateTime := time.Time_Unix (db.create_time row);
     api.UpdateTime := time.Time_Unix (db.update_time row);
     api.ExpiryTime := if expiryTime =? 0 then None else Some expiryTime;
     api.Rank := rank |}.

(** The records of rows fetched in this order, ranked onward from [rank]. *)
Fixpoint page_records (leaderboardId : string) (expiryTime : Z)
    (incomingCursor : option leaderboardRecordListCursor) (rank : Z)
    (rows : list db.Row) : list api.LeaderboardRecord :=
  match rows with
  | [] => []
  | row :: rest =>
      let rank' := next_rank incomingCursor rank in
      listed_record leaderboardId expiryTime rank' row
        :: page_records leaderboardId expiryTime incomingCursor rank' rest
  end.

(** The rows that the paginated query fetches (lines 141-164). *)
Definition fetched_rows (sortOrder : LeaderboardSortOrder) (leaderboardId : string)
    (expiryTime limitNumber : Z) (incomingCursor : option leaderboardRecordListCursor)
    (t : db.Table) : list db.Row :=
  let '(cond, order) :=
    listQuery sortOrder leaderboardId (time.Unix expiryTime 0) incomingCursor in
  take (Z.to_nat (limitNumber + 1)) (db.order_by order (List.filter cond t)).

(** The cursor string of an optional cursor (lines 265-278). *)
Definition cursor_token (c : option leaderboardRecordListCursor) : string :=
  match c with
  | Some c => Base64URL.EncodeToString (gobEncodeCursor c)
  | None => ""
  end.

(** The boundary cursor keyed on a row. *)
Definition row_cursor (isNext : bool) (leaderboardId : string) (expiryTime rank : Z)
    (row : db.Row) : leaderboardRecordListCursor :=
  {| IsNext := isNext; LeaderboardId := leaderboardId; ExpiryTime := expiryTime;
     Score := db.score row; Subscore := db.subscore row; OwnerId := db.owner_id row;
     Rank := rank |}.

(** The order of keys, and lists of keys in ascending and in descending
    order. *)
Definition key_le (a b : db.key) : Prop := db.key_leb a b = true.

Definition key_lt (a b : db.key) : Prop := db.key_ltb a b = true.

Definition keys_in_order (sortOrder : LeaderboardSortOrder) (ks : list db.key) : Prop :=
  match sortOrder with
  | LeaderboardSortOrderAscending => StronglySorted key_le ks
  | LeaderboardSortOrderDescending => StronglySorted (flip key_le) ks
  end.

(** Rows in the order of a query. *)
Definition row_le (o : db.Order) (a b : db.Row) : Prop := db.row_leb o a b = true.

(** A key lies beyond a cursor, on the side that the cursor's query looks
    at: after the cursor in the order of the board for a next-page cursor,
    before it for a previous-page one. *)
Definition beyond_cursor (sortOrder : LeaderboardSortOrder)
    (c : leaderboardRecordListCursor) (k : db.key) : Prop :=
  match sortOrder, IsNext c with
  | LeaderboardSortOrderAscending, true
  | LeaderboardSortOrderDescending, false => key_lt (cursor_key c) k
  | _, _ => key_lt k (cursor_key c)
  end.

(** The rows that the paginated query selects before its [LIMIT]. *)
Definition eligible_rows (sortOrder : LeaderboardSortOrder) (leaderboardId : string)
    (expiryTime : Z) (incomingCursor : option leaderboardRecordListCursor)
    (t : db.Table) : list db.Row :=
  List.filter
    (fst (listQuery sortOrder leaderboardId (time.Unix expiryTime 0) incomingCursor)) t.

(** The order in which the paginated query fetches. *)
Definition fetch_order (sortOrder : LeaderboardSortOrder)
    (incomingCursor : option leaderboardRecordListCursor) : db.Order :=
  match sortOrder, is_prev incomingCursor with
  | LeaderboardSortOrderAscending, false
  | LeaderboardSortOrderDescending, true => db.ASC
  | _, _ => db.DESC
  end.

(** The rank that a listing starts from (lines 166-169). *)
Definition start_rank (incomingCursor : option leaderboardRecordListCursor) : Z :=
  match incomingCursor with
  | Some c => Rank c
  | None => 0
  end.

(** The cursor string that points further in the direction of travel, and
    the one that points back. *)
Definition onward_cursor (incomingCursor : option leaderboardRecordListCursor)
    (l : api.LeaderboardRecordList) : string :=
  if is_prev incomingCursor then api.PrevCursor l else api.NextCursor l.

Definition backward_cursor (incomingCursor : option leaderboardRecordListCursor)
    (l : api.LeaderboardRecordList) : string :=
  if is_prev incomingCursor then api.NextCursor l else api.PrevCursor l.

(** The boundary cursor that the row loop leaves in [nextCursor] (lines
    187-197): none unless a row beyond the limit is fetched; then it is keyed
    on the columns scanned before that row, which are the zero values when
    the limit is 0, and carries the rank reached after [limitNumber] rows. *)
Definition loop_nextCursor (leaderboardId : string) (expiryTime limitNumber : Z)
    (incomingCursor : option leaderboardRecordListCursor) (rows : list db.Row)
    : option leaderboardRecordListCursor :=
  if limitNumber <? Z.of_nat (length rows) then
    let scanned := last (take (Z.to_nat limitNumber) rows) in
    Some {| IsNext := true;
            LeaderboardId := leaderboardId;
            ExpiryTime := expiryTime;
            Score := default 0 (db.score <$> scanned);
            Subscore := default 0 (db.subscore <$> scanned);
            OwnerId := default "" (db.owner_id <$> scanned);
            Rank := rank_after incomingCursor (start_rank incomingCursor)
                      (Z.to_nat limitNumber) |}
  else None.

(** The boundary cursor that the row loop leaves in [prevCursor] (lines
    233-244): keyed on the first row fetched, when the listing had a cursor. *)
Definition loop_prevCursor (leaderboardId : string) (expiryTime : Z)
    (incomingCursor : option leaderboardRecordListCursor) (rows : list db.Row)
    : option leaderboardRecordListCursor :=
  match incomingCursor, rows with
  | Some _, row :: _ =>
      Some (row_cursor false leaderboardId expiryTime
              (next_rank incomingCursor (start_rank incomingCursor)) row)
  | _, _ => None
  end.

(** The list that a paginated listing answers with, from the rows fetched
    for the page and the rows of the owner batch. *)
Definition listing_of {RC : Type} `{!LeaderboardRankCache RC} (cache : RC)
    (leaderboardId : string) (expiryTime limitNumber : Z)
    (incomingCursor : option leaderboardRecordListCursor)
    (rows ownerRows : list db.Row) : api.LeaderboardRecordList :=
  let records :=
    page_records leaderboardId expiryTime incomingCursor (start_rank incomingCursor) rows in
  let nextCursor := loop_nextCursor leaderboardId expiryTime limitNumber incomingCursor rows in
  let prevCursor := loop_prevCursor leaderboardId expiryTime incomingCursor rows in
  {| api.Records := if is_prev incomingCursor then mirror_ranks records else records;
     api.OwnerRecords :=
       map (fun r => api.set_Rank (rank_Fill cache leaderboardId expiryTime r) r)
         (map (ownerRow leaderboardId expiryTime) ownerRows);
     api.NextCursor :=
       cursor_token (if is_prev incomingCursor
                     then fst (swapCursors nextCursor prevCursor) else nextCursor);
     api.PrevCursor :=
       cursor_token (if is_prev incomingCursor
                     then snd (swapCursors nextCursor prevCursor) else prevCursor) |}.

(** The rows of the owner batch (lines 281-338). *)
Definition owner_rows (leaderboardId : string) (expiryTime : Z) (ownerIds : list string)
    (t : db.Table) : list db.Row :=
  List.filter (fun r => db.in_board leaderboardId (time.Unix expiryTime 0) r
                        && bool_decide (db.owner_id r ∈ ownerIds)) t.



(** Key [k1] is met no later than key [k2] by a query that fetches in
    order [o]. *)
Definition fetched_le (o : db.Order) (k1 k2 : db.key) : Prop :=
  match o with
  | db.ASC => key_le k1 k2
  | db.DESC => key_le k2 k1
  end.

(** The record that the owner batch makes of a row, its rank filled in by
    the rank cache (lines 305-341). *)
Definition owner_record {RC : Type} `{!LeaderboardRankCache RC} (cache : RC)
    (leaderboardId : string) (expiryTime : Z) (row : db.Row) : api.LeaderboardRecord :=
  let r := ownerRow leaderboardId expiryTime row in
  api.set_Rank (rank_Fill cache leaderboardId expiryTime r) r.

(** The empty answer. *)
Definition no_records : api.LeaderboardRecordList :=
  {| api.Records := []; api.OwnerRecords := []; api.NextCursor := ""; api.PrevCursor := "" |}.

(** A tournament for the examples: its deadlines put the expiry at its end
    time, second 50, and the clock of [world] stands at second 100. *)
Module Tournament.

Definition board : Leaderboard :=
  {| Id := "lb"; Authoritative := false; SortOrder := LeaderboardSortOrderDescending;
     Operator := LeaderboardOperatorBest; ResetSchedule := None; Metadata := "{}";
     CreateTime := 0; StartTime := 0; EndTime := 50; Duration := 50;
     IsTournament := true |}.

Definition deadlines (startTime endTime duration : Z) (_ : option cronexpr.Expression)
    (_ : time.Time) : Z * Z * Z :=
  (startTime, endTime, endTime).

Definition world : World unit :=
  {| table := Example.five; rankCache := tt; now := time.Unix 100 0; events := [] |}.

End Tournament.

(** *** The haystack *)

(** The rows on one side of the owner's key, from the owner outward (lines
    719-735, 761-774, before the [LIMIT]). *)
Definition side_rows (sortOrder : LeaderboardSortOrder) (side : Side)
    (leaderboardId : string) (expiryTime : time.Time) (ownerKey : db.key) (t : db.Table)
    : list db.Row :=
  let '(cond, order) := haystackQuery sortOrder side leaderboardId expiryTime ownerKey in
  db.order_by order (List.filter cond t).

(** The limit of the second query (lines 775-778), given how many records
    the first half holds. *)
Definition second_limit (limit : Z) (first : nat) : Z :=
  if Z.of_nat first <? limit / 2 then limit - Z.of_nat first else limit / 2.

(** The two halves around the owner's row, as rows: the better side, at
    most [limit] rows, in the order of the board; the worse side, at most
    [second_limit] rows. *)
Definition first_half (sortOrder : LeaderboardSortOrder) (leaderboardId : string)
    (expiryTime : time.Time) (limit : Z) (row : db.Row) (t : db.Table) : list db.Row :=
  reverse (take (Z.to_nat limit)
             (side_rows sortOrder Better leaderboardId expiryTime (db.key_of row) t)).

Definition second_half (sortOrder : LeaderboardSortOrder) (leaderboardId : string)
    (expiryTime : time.Time) (limit : Z) (row : db.Row) (t : db.Table) : list db.Row :=
  take (Z.to_nat (second_limit limit
                    (length (first_half sortOrder leaderboardId expiryTime limit row t))))
    (side_rows sortOrder Worse leaderboardId expiryTime (db.key_of row) t).

(** The bounds of the window cut out of the two halves and the owner's row
    (lines 790-800). *)
Definition window_start (limit : Z) (first second : nat) : Z :=
  let numRecords := Z.of_nat (first + 1 + second) in
  if (numRecords - limit <? 0) || (Z.of_nat first <? limit / 2) then 0
  else numRecords - limit.

Definition window_end (limit : Z) (first second : nat) : Z :=
  Z.min (window_start limit first second + limit) (Z.of_nat (first + 1 + second)).

(** The rows of the window. *)
Definition haystack_rows (sortOrder : LeaderboardSortOrder) (leaderboardId : string)
    (expiryTime : time.Time) (limit : Z) (row : db.Row) (t : db.Table) : list db.Row :=
  let first := first_half sortOrder leaderboardId expiryTime limit row t in
  let second := second_half sortOrder leaderboardId expiryTime limit row t in
  let start := window_start limit (length first) (length second) in
  let end_ := window_end limit (length first) (length second) in
  take (Z.to_nat (end_ - start)) (drop (Z.to_nat start) (first ++ row :: second)).

(** The record that the haystack makes of a row, its rank filled in by the
    rank cache (line 802). *)
Definition haystack_record {RC : Type} `{!LeaderboardRankCache RC} (cache : RC)
    (leaderboardId : string) (expiryTime : time.Time) (row : db.Row)
    : api.LeaderboardRecord :=
  let r := parseLeaderboardRecord row in
  api.set_Rank (rank_Fill cache leaderboardId (time.Time_Unix expiryTime) r) r.

(** The cursor string made of a record at an end of the window (lines
    804-838). *)
Definition haystack_token (isNext : bool) (expiryTime : time.Time)
    (r : option api.LeaderboardRecord) : string :=
  match r with
  | Some r => cursor_token (Some (haystackCursor isNext expiryTime r))
  | None => ""
  end.

(** The answer of the haystack around an owner's row. *)
Definition haystack_of {RC : Type} `{!LeaderboardRankCache RC} (cache : RC)
    (sortOrder : LeaderboardSortOrder) (leaderboardId : string) (expiryTime : time.Time)
    (limit : Z) (row : db.Row) (t : db.Table) : api.LeaderboardRecordList :=
  let records :=
    map (haystack_record cache leaderboardId expiryTime)
      (haystack_rows sortOrder leaderboardId expiryTime limit row t) in
  let better := side_rows sortOrder Better leaderboardId expiryTime (db.key_of row) t in
  let worse := side_rows sortOrder Worse leaderboardId expiryTime (db.key_of row) t in
  let first := first_half sortOrder leaderboardId expiryTime limit row t in
  {| api.Records := records;
     api.OwnerRecords := [];
     api.NextCursor :=
       if limit <? Z.of_nat (length better)
       then haystack_token false expiryTime (head records) else "";
     api.PrevCursor :=
       if second_limit limit (length first) <? Z.of_nat (length worse)
       then haystack_token true expiryTime (last records) else "" |}.

(** A row lies strictly on one side of a key in the order of the board:
    before it (better) or after it (worse). *)
Definition on_side (sortOrder : LeaderboardSortOrder) (side : Side) (k : db.key)
    (x : db.Row) : Prop :=
  match sortOrder, side with
  | LeaderboardSortOrderAscending, Better
  | LeaderboardSortOrderDescending, Worse => key_lt (db.key_of x) k
  | _, _ => key_lt k (db.key_of x)
  end.

(** The order of the board on keys. *)
Definition board_le (sortOrder : LeaderboardSortOrder) : db.key -> db.key -> Prop :=
  match sortOrder with
  | LeaderboardSortOrderAscending => key_le
  | LeaderboardSortOrderDescending => flip key_le
  end.

(* ================================================================== *)
(** ** The account-wide operations and the board listing by id *)
(* ================================================================== *)

(** [api.Leaderboard], as [LeaderboardsGet] fills it.  The sort order and
    the operator are integer constants declared outside this file; the
    conversions [uint32(l.SortOrder)] and [OperatorIntToEnum[l.Operator]]
    keep which constant it is. *)
Record api_Leaderboard : Type := {
  al_Id : string;
  al_SortOrder : LeaderboardSortOrder;
  al_Operator : api.Operator;
  al_PrevReset : Z;
  al_NextReset : Z;
  al_Metadata : string;
  al_CreateTime : Z
}.

(** [OperatorIntToEnum] (lines 57-64) *)
Definition OperatorIntToEnum (o : LeaderboardOperator) : api.Operator :=
  match o with
  | LeaderboardOperatorBest => api.Operator_BEST
  | LeaderboardOperatorSet => api.Operator_SET
  | LeaderboardOperatorIncrement => api.Operator_INCREMENT
  | LeaderboardOperatorDecrement => api.Operator_DECREMENT
  end.

Section Accounts.

Context {RC : Type} `{!LeaderboardRankCache RC}.



(** *** [LeaderboardsGet] (lines 610-644) *)

(** The body of the loop for one id: nothing for an id the cache does not
    know or for a tournament, one [api.Leaderboard] otherwise. *)
Definition leaderboardsGetOne (leaderboardCache : LeaderboardCache) (id : string)
    : M RC (option api_Leaderboard) :=
  match leaderboardCache id with
  | None => mret None
  | Some l =>
      if IsTournament l then mret None
      else
        now ← time_Now;
        '(prevReset, nextReset) ←
          match ResetSchedule l with
          | Some resetSchedule =>
              prevReset ← lift (calculatePrevReset now (CreateTime l) (ResetSchedule l));
              let next := cronexpr.Next resetSchedule now in
              mret (prevReset, time.Time_Unix next)
          | None => mret (0, 0)
          end;
        mret (Some {| al_Id := Id l;
                      al_SortOrder := SortOrder l;
                      al_Operator := OperatorIntToEnum (Operator l);
                      al_PrevReset := to_uint32 prevReset;
                      al_NextReset := to_uint32 nextReset;
                      al_Metadata := Metadata l;
                      al_CreateTime := CreateTime l |})
  end.

Fixpoint LeaderboardsGet (leaderboardCache : LeaderboardCache) (leaderboardIDs : list string)
    : M RC (list api_Leaderboard) :=
  match leaderboardIDs with
  | [] => mret []
  | id :: rest =>
      one ← leaderboardsGetOne leaderboardCache id;
      leaderboards ← LeaderboardsGet leaderboardCache rest;
      mret (match one with
            | Some l => l :: leaderboards
            | None => leaderboards
            end)
  end.

End Accounts.

(** The board that [LeaderboardsGet] lists for an id: the one the cache
    holds, unless it is a tournament. *)
Definition listed_board (leaderboardCache : LeaderboardCache) (id : string)
    : option Leaderboard :=
  match leaderboardCache id with
  | Some l => if IsTournament l then None else Some l
  | None => None
  end.

(** A board whose reset schedule yields fewer than two resets after an
    instant. *)
Definition runs_out (now : time.Time) (l : Leaderboard) : Prop :=
  exists resetSchedule,
    ResetSchedule l = Some resetSchedule
    /\ (length (cronexpr.NextN resetSchedule now 2) < 2)%nat.

(* ================================================================== *)
(** * Properties *)
(* ================================================================== *)

(** ** Authoritative leaderboards *)

Section Guards.

Context {RC : Type} `{!LeaderboardRankCache RC}.
Variable uuid_FromString : string -> option uuid.UUID.
Variable default_max_num_score : Z.

(** C8. A write to an authoritative leaderboard by a caller other than the
    server (a caller id that is not the nil id) fails with
    [ErrLeaderboardAuthoritative], and the world after the call is the world
    before it: the table and the rank cache are as they were, and no
    interaction with either has taken place. *)
Theorem write_authoritative_refused
    (leaderboardCache : LeaderboardCache) (leaderboard : Leaderboard)
    (caller : uuid.UUID) (leaderboardId ownerID username : string)
    (score subscore : Z) (metadata : string) (overrideOperator : api.Operator)
    (w : World RC) :
  leaderboardCache leaderboardId = Some leaderboard ->
  Authoritative leaderboard = true ->
  caller <> uuid.Nil ->
  LeaderboardRecordWrite uuid_FromString default_max_num_score leaderboardCache caller
    leaderboardId ownerID username score subscore metadata overrideOperator w
  = (Err ErrLeaderboardAuthoritative, w).
Proof.
  intros Hget Hauth Hcaller.
  unfold LeaderboardRecordWrite.
  rewrite Hget, Hauth.
  rewrite bool_decide_eq_true_2 by assumption.
  reflexivity.
Qed.

(** C10. A delete on an authoritative leaderboard by a caller other than the
    server fails with [ErrLeaderboardAuthoritative] before anything is
    touched: the world after the call is the world before it. *)
Theorem delete_authoritative_refused
    (leaderboardCache : LeaderboardCache) (leaderboard : Leaderboard)
    (caller : uuid.UUID) (leaderboardId ownerID : string) (w : World RC) :
  leaderboardCache leaderboardId = Some leaderboard ->
  Authoritative leaderboard = true ->
  caller <> uuid.Nil ->
  LeaderboardRecordDelete uuid_FromString leaderboardCache caller leaderboardId ownerID w
  = (Err ErrLeaderboardAuthoritative, w).
Proof.
  intros Hget Hauth Hcaller.
  unfold LeaderboardRecordDelete.
  rewrite Hget, Hauth.
  rewrite bool_decide_eq_true_2 by assumption.
  reflexivity.
Qed.

End Guards.

(** The guard at work: a player is refused on an authoritative board that
    holds five records, and nothing has moved. *)
Lemma write_authoritative_refused_witness :
  Example.write (Example.board LeaderboardSortOrderDescending LeaderboardOperatorBest true)
    Example.five "player" "player" 60 0 ""
  = (Err ErrLeaderboardAuthoritative, Example.world Example.five).
Proof.
  apply (write_authoritative_refused Example.uuid_FromString Example.default_max_num_score
           _ (Example.board LeaderboardSortOrderDescending LeaderboardOperatorBest true)).
  - reflexivity.
  - reflexivity.
  - discriminate.
Defined.

Lemma delete_authoritative_refused_witness :
  LeaderboardRecordDelete Example.uuid_FromString
    (Example.cache (Example.board LeaderboardSortOrderDescending LeaderboardOperatorBest true))
    "player" "lb" "o1" (Example.world Example.five)
  = (Err ErrLeaderboardAuthoritative, Example.world Example.five).
Proof.
  apply (delete_authoritative_refused Example.uuid_FromString
           _ (Example.board LeaderboardSortOrderDescending LeaderboardOperatorBest true)).
  - reflexivity.
  - reflexivity.
  - discriminate.
Defined.

(** ** Machine integers *)

Lemma wrap64_id (z : Z) : in_int64 z -> wrap64 z = z.
Proof.
  unfold in_int64, min_int64, max_int64, wrap64. intros Hz.
  rewrite Z.mod_small by lia. lia.
Qed.


(** ** The reset schedule *)



(** ** The cursor codec *)



(** ** Bytes *)

Lemma Z_of_byte_range (b : byte) : 0 <= Z_of_byte b < 256.
Proof.
  unfold Z_of_byte. pose proof (Byte.to_N_bounded b). lia.
Qed.

Lemma byte_of_Z_of_byte (b : byte) : byte_of_Z (Z_of_byte b) = b.
Proof.
  unfold byte_of_Z. pose proof (Z_of_byte_range b) as Hb.
  rewrite Z.mod_small by lia. unfold Z_of_byte.
  rewrite N2Z.id, Byte.of_to_N. reflexivity.
Qed.

Lemma Z_of_byte_of_Z (z : Z) : 0 <= z < 256 -> Z_of_byte (byte_of_Z z) = z.
Proof.
  intros Hz. unfold byte_of_Z, Z_of_byte. rewrite Z.mod_small by lia.
  pose proof (Byte.to_of_N_option_map (Z.to_N z)) as Hn.
  destruct (Byte.of_N (Z.to_N z)) as [b|] eqn:Hb; cbn in Hn.
  - destruct (N.leb_spec (Z.to_N z) 255); [|discriminate].
    injection Hn as ->. lia.
  - destruct (N.leb_spec (Z.to_N z) 255); [discriminate|lia].
Qed.

Lemma Z_of_byte_of_Z_mod (z : Z) : Z_of_byte (byte_of_Z z) = z mod 256.
Proof.
  pose proof (Z.mod_pos_bound z 256 ltac:(lia)) as Hm.
  rewrite <- (Z_of_byte_of_Z (z mod 256)) by lia.
  unfold byte_of_Z. rewrite Z.mod_mod by lia. reflexivity.
Qed.

Lemma length_bytes_of_string (s : string) :
  length (bytes_of_string s) = String.length s.
Proof.
  unfold bytes_of_string, list_byte_of_string.
  rewrite length_map. induction s as [|c s IH]; cbn; [reflexivity|].
  rewrite IH. reflexivity.
Qed.

Lemma string_of_bytes_of_string (s : string) : string_of_bytes (bytes_of_string s) = s.
Proof. apply string_of_list_byte_of_string. Qed.

(** ** Base64 *)

Module Base64URLFacts.
Import Base64URL.

Lemma sextet_cases (P : Z -> Prop) :
  (forall k : nat, (k < 64)%nat -> P (Z.of_nat k)) ->
  forall n, 0 <= n < 64 -> P n.
Proof.
  intros H n Hn. rewrite <- (Z2Nat.id n) by lia. apply H. lia.
Qed.

Lemma dec6_enc6 (n : Z) : 0 <= n < 64 -> dec6 (enc6 n) = Some n.
Proof.
  revert n. apply sextet_cases. intros k Hk.
  do 64 (destruct k as [|k]; [vm_compute; reflexivity|]). lia.
Qed.

Lemma enc6_not_newline (n : Z) : is_newline (enc6 n) = false.
Proof.
  destruct (Z_lt_le_dec n 0) as [Hneg|Hpos].
  - unfold enc6. rewrite Z2Nat.nonpos by lia. reflexivity.
  - destruct (Z_lt_le_dec n 64) as [Hlt|Hge].
    + revert n Hpos Hlt.
      assert (H : forall n, 0 <= n < 64 -> is_newline (enc6 n) = false).
      { apply sextet_cases. intros k Hk.
        do 64 (destruct k as [|k]; [vm_compute; reflexivity|]). lia. }
      intros n H1 H2. apply H. lia.
    + unfold enc6.
      assert (Hnone : String.get (Z.to_nat n) alphabet = None).
      { assert (Hlen : (String.length alphabet <= Z.to_nat n)%nat)
          by (change (String.length alphabet) with 64%nat; lia).
        revert Hlen. generalize (Z.to_nat n). generalize alphabet.
        induction s as [|c s IH]; intros m Hm; [destruct m; reflexivity|].
        destruct m as [|m]; cbn in *; [lia|]. apply IH. lia. }
      rewrite Hnone. reflexivity.
Qed.

Lemma dec6_padChar : dec6 padChar = None.
Proof. vm_compute. reflexivity. Qed.

Lemma decode_encode_bytes (bs : list byte) : decode_chars (encode_bytes bs) = Some bs.
Proof.
  remember (length bs) as n eqn:Hn. revert bs Hn.
  induction n as [n IH] using lt_wf_ind. intros bs Hn.
  destruct bs as [|b1 [|b2 [|b3 rest]]].
  - reflexivity.
  - pose proof (Z_of_byte_range b1) as H1.
    cbn [encode_bytes decode_chars].
    rewrite !dec6_enc6 by (Z.div_mod_to_equations; lia).
    rewrite dec6_padChar. cbn -[Z.div Z.modulo Z.mul Z.add byte_of_Z].
    replace (Z_of_byte b1 / 4 * 4 + Z_of_byte b1 mod 4 * 16 / 16) with (Z_of_byte b1)
      by (Z.div_mod_to_equations; lia).
    rewrite byte_of_Z_of_byte. reflexivity.
  - pose proof (Z_of_byte_range b1) as H1. pose proof (Z_of_byte_range b2) as H2.
    cbn [encode_bytes decode_chars].
    rewrite !dec6_enc6 by (Z.div_mod_to_equations; lia).
    rewrite dec6_padChar. cbn -[Z.div Z.modulo Z.mul Z.add byte_of_Z].
    replace (Z_of_byte b1 / 4 * 4 + (Z_of_byte b1 mod 4 * 16 + Z_of_byte b2 / 16) / 16)
      with (Z_of_byte b1) by (Z.div_mod_to_equations; lia).
    replace ((Z_of_byte b1 mod 4 * 16 + Z_of_byte b2 / 16) mod 16 * 16
             + Z_of_byte b2 mod 16 * 4 / 4)
      with (Z_of_byte b2) by (Z.div_mod_to_equations; lia).
    rewrite !byte_of_Z_of_byte. reflexivity.
  - pose proof (Z_of_byte_range b1) as H1. pose proof (Z_of_byte_range b2) as H2.
    pose proof (Z_of_byte_range b3) as H3.
    cbn [encode_bytes decode_chars].
    rewrite !dec6_enc6 by (Z.div_mod_to_equations; lia).
    rewrite (IH (length rest)) by (subst n; cbn; lia || reflexivity).
    replace (Z_of_byte b1 / 4 * 4 + (Z_of_byte b1 mod 4 * 16 + Z_of_byte b2 / 16) / 16)
      with (Z_of_byte b1) by (Z.div_mod_to_equations; lia).
    replace ((Z_of_byte b1 mod 4 * 16 + Z_of_byte b2 / 16) mod 16 * 16
             + (Z_of_byte b2 mod 16 * 4 + Z_of_byte b3 / 64) / 4)
      with (Z_of_byte b2) by (Z.div_mod_to_equations; lia).
    replace ((Z_of_byte b2 mod 16 * 4 + Z_of_byte b3 / 64) mod 4 * 64 + Z_of_byte b3 mod 64)
      with (Z_of_byte b3) by (Z.div_mod_to_equations; lia).
    rewrite !byte_of_Z_of_byte. reflexivity.
Qed.

Lemma encode_bytes_no_newline (bs : list byte) :
  List.filter (fun c => negb (is_newline c)) (encode_bytes bs) = encode_bytes bs.
Proof.
  remember (length bs) as n eqn:Hn. revert bs Hn.
  induction n as [n IH] using lt_wf_ind. intros bs Hn.
  destruct bs as [|b1 [|b2 [|b3 rest]]]; cbn [encode_bytes List.filter].
  - reflexivity.
  - rewrite !enc6_not_newline. reflexivity.
  - rewrite !enc6_not_newline. reflexivity.
  - rewrite !enc6_not_newline. cbn [negb].
    rewrite (IH (length rest)) by (subst n; cbn; lia || reflexivity). reflexivity.
Qed.

Lemma DecodeString_EncodeToString (bs : list byte) :
  DecodeString (EncodeToString bs) = Some bs.
Proof.
  unfold DecodeString, EncodeToString.
  rewrite list_ascii_of_string_of_list_ascii, encode_bytes_no_newline.
  apply decode_encode_bytes.
Qed.

Lemma EncodeToString_nonempty (bs : list byte) : bs <> [] -> EncodeToString bs <> "".
Proof.
  intros Hne. unfold EncodeToString.
  destruct bs as [|b1 [|b2 [|b3 rest]]]; [congruence| | |]; cbn; discriminate.
Qed.

End Base64URLFacts.

(** ** Gob *)

Module GobFacts.
Import Gob.

Lemma be_value_be_bytes (k : nat) (x acc : Z) :
  0 <= x ->
  be_value acc (be_bytes k x) = acc * 256 ^ Z.of_nat k + x mod 256 ^ Z.of_nat k.
Proof.
  intros Hx. revert acc. induction k as [|k IH]; intros acc.
  - cbn. rewrite Z.mod_1_r. lia.
  - cbn [be_bytes be_value]. rewrite IH, Z_of_byte_of_Z_mod.
    rewrite Nat2Z.inj_succ, Z.pow_succ_r by lia.
    assert (Hp : 0 < 256 ^ Z.of_nat k) by (apply Z.pow_pos_nonneg; lia).
    rewrite (Z.mul_comm 256 (256 ^ Z.of_nat k)).
    rewrite (Z.rem_mul_r x (256 ^ Z.of_nat k) 256) by lia.
    lia.
Qed.

Lemma drop_be_bytes (a b : nat) (x : Z) : drop a (be_bytes (a + b) x) = be_bytes b x.
Proof.
  induction a as [|a IH]; [reflexivity|]. cbn. exact IH.
Qed.

Lemma length_be_bytes (k : nat) (x : Z) : length (be_bytes k x) = k.
Proof.
  induction k as [|k IH]; [reflexivity|]. cbn. rewrite IH. reflexivity.
Qed.

Lemma encodeUint_cons (x : Z) : exists b bs, encodeUint x = b :: bs.
Proof.
  unfold encodeUint. destruct (x <=? 127); eauto.
Qed.

Lemma decodeUint_encodeUint (x : Z) (rest : list byte) :
  0 <= x < 2 ^ 64 ->
  decodeUint (encodeUint x ++ rest) = Some (x, rest).
Proof.
  intros Hx. unfold encodeUint.
  destruct (Z.leb_spec x 127) as [Hs|Hb].
  - cbn. rewrite Z_of_byte_of_Z by lia.
    destruct (Z.leb_spec x 127); [reflexivity|lia].
  - pose proof (Z.log2_spec x ltac:(lia)) as [Hlo Hhi].
    assert (HL : 7 <= Z.log2 x <= 63).
    { split.
      - change 7 with (Z.log2 128). apply Z.log2_le_mono. lia.
      - assert (Z.log2 x < 64) by (apply Z.log2_lt_pow2; lia). lia. }
    set (bc := (63 - Z.log2 x) / 8).
    assert (Hbc : 0 <= bc <= 7) by (subst bc; Z.div_mod_to_equations; lia).
    assert (Hfit : x < 256 ^ (8 - bc)).
    { eapply Z.lt_le_trans; [exact Hhi|].
      replace 256 with (2 ^ 8) by reflexivity. rewrite <- Z.pow_mul_r by lia.
      apply Z.pow_le_mono_r; [lia|]. subst bc. Z.div_mod_to_equations. lia. }
    cbn [app decodeUint].
    rewrite Z_of_byte_of_Z_mod.
    replace ((bc - 8) mod 256) with (248 + bc) by (Z.div_mod_to_equations; lia).
    destruct (Z.leb_spec (248 + bc) 127); [lia|].
    replace (256 - (248 + bc)) with (8 - bc) by lia.
    destruct (Z.ltb_spec 8 (8 - bc)); [lia|].
    replace 8%nat with (Z.to_nat bc + Z.to_nat (8 - bc))%nat by lia.
    rewrite drop_be_bytes.
    rewrite length_app, length_be_bytes.
    destruct (Z.ltb_spec (Z.of_nat (Z.to_nat (8 - bc) + length rest)) (8 - bc)); [lia|].
    rewrite take_app_length' by (symmetry; apply length_be_bytes).
    rewrite drop_app_length' by (symmetry; apply length_be_bytes).
    rewrite be_value_be_bytes by lia.
    rewrite Z2Nat.id by lia. rewrite Z.mod_small by lia.
    reflexivity.
Qed.

Lemma lor_shiftl_1 (k : Z) : 0 <= k -> Z.lor (Z.shiftl k 1) 1 = 2 * k + 1.
Proof.
  intros Hk. destruct k as [|p|p]; [reflexivity|reflexivity|lia].
Qed.

Lemma decodeInt_encodeInt (i : Z) (rest : list byte) :
  in_int64 i ->
  decodeInt (encodeInt i ++ rest) = Some (i, rest).
Proof.
  unfold in_int64, min_int64, max_int64. intros Hi.
  unfold encodeInt, decodeInt.
  destruct (Z.ltb_spec i 0) as [Hneg|Hpos].
  - assert (Hn : Z.lnot i = - i - 1) by (unfold Z.lnot; lia).
    rewrite Hn, Z.shiftl_mul_pow2 by lia.
    rewrite Z.mod_small by lia.
    rewrite <- (Z.shiftl_mul_pow2 (- i - 1) 1) by lia.
    rewrite lor_shiftl_1 by lia.
    rewrite decodeUint_encodeUint by lia.
    replace (2 * (- i - 1) + 1) with (1 + 2 * (- i - 1)) by lia.
    rewrite Z.odd_add_mul_2. cbn [Z.odd].
    rewrite Z.shiftr_div_pow2 by lia.
    replace ((1 + 2 * (- i - 1)) / 2 ^ 1) with (- i - 1)
      by (Z.div_mod_to_equations; lia).
    f_equal. f_equal. unfold Z.lnot. lia.
  - rewrite Z.shiftl_mul_pow2 by lia. rewrite Z.mod_small by lia.
    rewrite decodeUint_encodeUint by lia.
    replace (i * 2 ^ 1) with (0 + 2 * i) by lia.
    rewrite Z.odd_add_mul_2. cbn [Z.odd].
    rewrite Z.shiftr_div_pow2 by lia.
    replace ((0 + 2 * i) / 2 ^ 1) with i by (Z.div_mod_to_equations; lia).
    reflexivity.
Qed.

Lemma take_drop_exact {A : Type} (l rest : list A) :
  take (length l) (l ++ rest) = l /\ drop (length l) (l ++ rest) = rest.
Proof.
  split; [apply take_app_length | apply drop_app_length].
Qed.

End GobFacts.

Module GobStructFacts.
Import Gob GobFacts.

Lemma length_encodeUint (x : Z) : (length (encodeUint x) <= 9)%nat.
Proof.
  unfold encodeUint. destruct (x <=? 127); cbn [length]; [lia|].
  rewrite length_drop, length_be_bytes. lia.
Qed.

Lemma decodeValue_encodeValue (t : gobType) (v : gobValue) (rest : list byte) :
  gob_value_ok t v ->
  decodeValue t (encodeValue v ++ rest) = Some (v, rest).
Proof.
  destruct t, v; cbn [gob_value_ok]; try contradiction; intros Hok.
  - cbn [encodeValue decodeValue]. rewrite decodeUint_encodeUint by (destruct b; lia).
    destruct b; reflexivity.
  - cbn [encodeValue decodeValue]. rewrite decodeInt_encodeInt by assumption.
    reflexivity.
  - cbn [encodeValue decodeValue]. unfold encodeString.
    rewrite <- app_assoc. rewrite length_bytes_of_string.
    rewrite decodeUint_encodeUint by lia.
    rewrite length_app, length_bytes_of_string.
    destruct (Z.ltb_spec (Z.of_nat (String.length s + length rest))
                (Z.of_nat (String.length s))); [lia|].
    rewrite Nat2Z.id. rewrite <- (length_bytes_of_string s).
    rewrite take_app_length, drop_app_length, string_of_bytes_of_string.
    reflexivity.
Qed.

Lemma isZero_zeroValue (t : gobType) (v : gobValue) :
  gob_value_ok t v -> isZero v = true -> v = zeroValue t.
Proof.
  destruct t, v; cbn; try contradiction; intros _ Hz.
  - destruct b; [discriminate|reflexivity].
  - apply Z.eqb_eq in Hz. subst. reflexivity.
  - apply bool_decide_eq_true_1 in Hz. subst. reflexivity.
Qed.

Lemma decodeFields_step (fuel : nat) (schema : list gobType) (fieldnum d : Z)
    (vals : list gobValue) (tail : list byte) :
  0 <= d < 2 ^ 63 ->
  decodeFields (S fuel) schema fieldnum vals (encodeUint d ++ tail)
  = if d =? 0 then Some (vals, tail)
    else if Z.of_nat (length schema) - d <=? fieldnum then None
    else
      match schema !! Z.to_nat (fieldnum + d) with
      | None => None
      | Some t =>
          match decodeValue t tail with
          | None => None
          | Some (v, rest') =>
              decodeFields fuel schema (fieldnum + d)
                (<[Z.to_nat (fieldnum + d) := v]> vals) rest'
          end
      end.
Proof.
  intros Hd. destruct (encodeUint_cons d) as (b & bs & E).
  cbn [decodeFields]. rewrite E. cbn [app].
  change (b :: bs ++ tail) with ((b :: bs) ++ tail). rewrite <- E.
  rewrite decodeUint_encodeUint by lia.
  destruct (Z.leb_spec (2 ^ 63) d); [lia|]. reflexivity.
Qed.

Lemma decodeFields_encodeFields (schema : list gobType) (rest : list byte) :
  Z.of_nat (length schema) < 2 ^ 62 ->
  forall (vs done : list gobValue) (prev : Z) (fuel : nat),
    Forall2 gob_value_ok schema (done ++ vs) ->
    -1 <= prev < Z.of_nat (length done) ->
    (length vs < fuel)%nat ->
    decodeFields fuel schema prev
      (done ++ map zeroValue (drop (length done) schema))
      (encodeFields prev (Z.of_nat (length done)) vs ++ rest)
    = Some (done ++ vs, rest).
Proof.
  intros Hlen vs. induction vs as [|v vs IH]; intros done prev fuel Hok Hprev Hfuel.
  - destruct fuel as [|fuel]; [cbn in Hfuel; lia|].
    cbn [encodeFields]. rewrite decodeFields_step by lia. cbn.
    apply Forall2_length in Hok. rewrite app_nil_r in *.
    rewrite drop_ge by lia. cbn. rewrite app_nil_r. reflexivity.
  - destruct fuel as [|fuel]; [cbn in Hfuel; lia|]. cbn in Hfuel.
    pose proof (Forall2_length _ _ _ Hok) as Hl. rewrite length_app in Hl. cbn in Hl.
    destruct (proj1 (Forall2_app_inv_r _ _ _ _) Hok) as (sdone & srest & Hd & Hr & Hs).
    pose proof (Forall2_length _ _ _ Hd) as Hld.
    inversion Hr as [|t v' srest' vs' Htv Hrest]; subst.
    assert (Hlook : (sdone ++ t :: srest') !! length done = Some t).
    { rewrite <- Hld. rewrite list_lookup_middle; reflexivity. }
    assert (Hdrop : drop (length done) (sdone ++ t :: srest') = t :: srest').
    { rewrite <- Hld. apply drop_app_length. }
    assert (Hdrop' : drop (length (done ++ [v])) (sdone ++ t :: srest') = srest').
    { rewrite length_app. cbn. rewrite <- Hld.
      replace (length sdone + 1)%nat with (S (length sdone)) by lia.
      change (drop (S (length sdone)) (sdone ++ t :: srest'))
        with (drop (S (length sdone)) (sdone ++ t :: srest')).
      rewrite (drop_app_ge sdone) by lia.
      replace (S (length sdone) - length sdone)%nat with 1%nat by lia. reflexivity. }
    assert (Hnext : Z.of_nat (length done) + 1 = Z.of_nat (length (done ++ [v])))
      by (rewrite length_app; cbn; lia).
    assert (Hok' : Forall2 gob_value_ok (sdone ++ t :: srest') ((done ++ [v]) ++ vs))
      by (rewrite <- app_assoc; exact Hok).
    cbn [encodeFields]. destruct (isZero v) eqn:Hz.
    + rewrite (isZero_zeroValue t v Htv Hz) in *.
      rewrite Hdrop. cbn [map].
      rewrite Hnext.
      specialize (IH (done ++ [zeroValue t]) prev (S fuel) Hok').
      rewrite Hdrop' in IH. rewrite <- !app_assoc in IH. cbn [app] in IH.
      apply IH; [|lia]. rewrite length_app. cbn. lia.
    + rewrite <- !app_assoc.
      rewrite decodeFields_step by lia.
      destruct (Z.eqb_spec (Z.of_nat (length done) - prev) 0); [lia|].
      destruct (Z.leb_spec (Z.of_nat (length (sdone ++ t :: srest'))
                            - (Z.of_nat (length done) - prev)) prev) as [Hbad|_].
      { rewrite length_app in Hbad. cbn in Hbad. lia. }
      replace (prev + (Z.of_nat (length done) - prev)) with (Z.of_nat (length done)) by lia.
      rewrite Nat2Z.id, Hlook.
      rewrite decodeValue_encodeValue by assumption.
      rewrite Hdrop. cbn [map].
      replace (<[length done := v]> (done ++ zeroValue t :: map zeroValue srest'))
        with ((done ++ [v]) ++ map zeroValue srest').
      2:{ rewrite <- app_assoc. cbn [app].
          rewrite insert_app_r_alt by lia.
          replace (length done - length done)%nat with 0%nat by lia. reflexivity. }
      rewrite Hnext.
      specialize (IH (done ++ [v]) (Z.of_nat (length done)) fuel Hok').
      rewrite Hdrop' in IH. rewrite <- (app_assoc done [v] vs) in IH. cbn [app] in IH.
      apply IH; [|lia]. rewrite length_app. cbn. lia.
Qed.

Lemma decodeStruct_encodeStruct (schema : list gobType) (vs : list gobValue)
    (rest : list byte) :
  Z.of_nat (length schema) < 2 ^ 62 ->
  Forall2 gob_value_ok schema vs ->
  decodeStruct schema (encodeStruct vs ++ rest) = Some (vs, rest).
Proof.
  intros Hlen Hok. unfold decodeStruct, encodeStruct.
  pose proof (decodeFields_encodeFields schema rest Hlen vs [] (-1)
                (S (length schema)) Hok) as H.
  cbn in H. apply H; [lia|]. apply Forall2_length in Hok. lia.
Qed.

Lemma strip_prefix_app (p bs : list byte) : strip_prefix p (p ++ bs) = Some bs.
Proof.
  induction p as [|a p IH]; [reflexivity|]. cbn.
  destruct (Byte.eqb a a) eqn:E; [exact IH|].
  exfalso. pose proof (Byte.byte_dec_lb (x:=a) (y:=a) eq_refl). congruence.
Qed.

Lemma readMessage_message (body rest : list byte) :
  Z.of_nat (length body) < 2 ^ 64 ->
  readMessage (message body ++ rest) = Some (body, rest).
Proof.
  intros Hlen. unfold readMessage, message. rewrite <- app_assoc.
  rewrite decodeUint_encodeUint by lia.
  rewrite length_app.
  destruct (Z.ltb_spec (Z.of_nat (length body + length rest)) (Z.of_nat (length body)));
    [lia|].
  rewrite Nat2Z.id, take_app_length, drop_app_length. reflexivity.
Qed.

Lemma length_encodeValue (t : gobType) (v : gobValue) :
  gob_value_ok t v -> Z.of_nat (length (encodeValue v)) <= 9 + 2 ^ 30.
Proof.
  destruct t, v; cbn [gob_value_ok]; try contradiction; intros Hok; cbn [encodeValue].
  - pose proof (length_encodeUint (if b then 1 else 0)). lia.
  - unfold encodeInt.
    match goal with |- context [encodeUint ?x] => pose proof (length_encodeUint x) end.
    lia.
  - unfold encodeString. rewrite length_app, length_bytes_of_string.
    pose proof (length_encodeUint (Z.of_nat (String.length s))). lia.
Qed.

Lemma length_encodeFields (schema : list gobType) (vs : list gobValue) :
  Forall2 gob_value_ok schema vs ->
  forall prev fieldnum,
    Z.of_nat (length (encodeFields prev fieldnum vs))
    <= 9 + Z.of_nat (length vs) * (18 + 2 ^ 30).
Proof.
  induction 1 as [|t v schema vs Htv _ IH]; intros prev fieldnum; cbn [encodeFields].
  - pose proof (length_encodeUint 0). cbn [length]. lia.
  - destruct (isZero v).
    + specialize (IH prev (fieldnum + 1)). cbn [length]. lia.
    + specialize (IH fieldnum (fieldnum + 1)).
      rewrite !length_app. pose proof (length_encodeUint (fieldnum - prev)).
      pose proof (length_encodeValue t v Htv). cbn [length]. lia.
Qed.

Lemma Decode_Encode (name : string) (fields : list (string * gobType))
    (vs : list gobValue) :
  Z.of_nat (length fields) < 2 ^ 30 ->
  Forall2 gob_value_ok (map snd fields) vs ->
  Decode name fields (Encode name fields vs) = Some vs.
Proof.
  intros Hlen Hok. unfold Decode, Encode.
  rewrite strip_prefix_app.
  pose proof (length_encodeFields _ _ Hok (-1) 0) as Hbody.
  pose proof (Forall2_length _ _ _ Hok) as Hl. rewrite length_map in Hl.
  rewrite <- (app_nil_r (message _)).
  rewrite readMessage_message.
  2:{ rewrite length_app. unfold encodeStruct.
      pose proof (length_encodeUint
                    (if firstUserId <? 0
                     then Z.lor (Z.shiftl (Z.lnot firstUserId) 1 mod 2 ^ 64) 1
                     else Z.shiftl firstUserId 1 mod 2 ^ 64)) as Hid.
      fold (encodeInt firstUserId) in Hid. nia. }
  rewrite decodeInt_encodeInt by (vm_compute; split; discriminate).
  rewrite Z.eqb_refl.
  rewrite <- (app_nil_r (encodeStruct vs)).
  rewrite decodeStruct_encodeStruct; [reflexivity| |assumption].
  rewrite length_map. lia.
Qed.

End GobStructFacts.

(** ** The cursor codec, both ways *)

Lemma cursorValues_ok (c : leaderboardRecordListCursor) :
  cursor_wf c -> Forall2 gob_value_ok (map snd cursorFields) (cursorValues c).
Proof.
  intros (Hl & He & Hs & Hss & Ho & Hr).
  unfold cursorFields, cursorValues. cbn [map snd].
  repeat match goal with
         | |- Forall2 _ (_ :: _) (_ :: _) =>
             constructor; [cbn [gob_value_ok]; first [exact I | assumption]|]
         end.
  constructor.
Qed.

Lemma gobDecodeCursor_gobEncodeCursor (c : leaderboardRecordListCursor) :
  cursor_wf c -> gobDecodeCursor (gobEncodeCursor c) = Some c.
Proof.
  intros Hwf. unfold gobDecodeCursor, gobEncodeCursor.
  rewrite GobStructFacts.Decode_Encode.
  - destruct c. reflexivity.
  - vm_compute. reflexivity.
  - apply cursorValues_ok. exact Hwf.
Qed.

Lemma gobEncodeCursor_nonempty (c : leaderboardRecordListCursor) : gobEncodeCursor c <> [].
Proof.
  unfold gobEncodeCursor, Gob.Encode, Gob.typeDefinition, Gob.message.
  destruct (GobFacts.encodeUint_cons
              (Z.of_nat (length (Gob.encodeInt (- Gob.firstUserId)
                                 ++ Gob.encodeWireType cursorTypeName cursorFields))))
    as (b & bs & E).
  rewrite E. discriminate.
Qed.

(** X3. A well-formed cursor survives the codec, and stays bound to its
    board: the string that [marshalLeaderboardRecordsListCursor] gives is
    not empty, [unmarshalLeaderboardRecordsListCursor] turns it back into
    the same cursor when asked under the cursor's own leaderboard id and
    expiry, and refuses it with [ErrLeaderboardInvalidCursor] under any
    other pair. *)
Theorem marshal_unmarshal_roundtrip (c : leaderboardRecordListCursor)
    (leaderboardId : string) (expiryTime : Z) :
  cursor_wf c ->
  exists s,
    marshalLeaderboardRecordsListCursor c = Ok s
    /\ s <> ""
    /\ unmarshalLeaderboardRecordsListCursor leaderboardId expiryTime s
       = if bool_decide (leaderboardId = LeaderboardId c /\ expiryTime = ExpiryTime c)
         then Ok (Some c)
         else Err ErrLeaderboardInvalidCursor.
Proof.
  intros Hwf. eexists. split; [reflexivity|].
  assert (Hne : Base64URL.EncodeToString (gobEncodeCursor c) <> "")
    by (apply Base64URLFacts.EncodeToString_nonempty, gobEncodeCursor_nonempty).
  split; [exact Hne|].
  unfold unmarshalLeaderboardRecordsListCursor.
  rewrite bool_decide_eq_true_2 by exact Hne.
  rewrite Base64URLFacts.DecodeString_EncodeToString.
  rewrite gobDecodeCursor_gobEncodeCursor by exact Hwf.
  destruct (decide (leaderboardId = LeaderboardId c)) as [Hl|Hl].
  - rewrite (bool_decide_eq_false_2 (leaderboardId <> LeaderboardId c)) by tauto.
    destruct (decide (expiryTime = ExpiryTime c)) as [He|He].
    + rewrite (bool_decide_eq_false_2 (expiryTime <> ExpiryTime c)) by tauto.
      rewrite bool_decide_eq_true_2 by tauto. reflexivity.
    + rewrite (bool_decide_eq_true_2 (expiryTime <> ExpiryTime c)) by assumption.
      rewrite bool_decide_eq_false_2 by tauto. reflexivity.
  - rewrite (bool_decide_eq_true_2 (leaderboardId <> LeaderboardId c)) by assumption.
    rewrite bool_decide_eq_false_2 by tauto. reflexivity.
Qed.

Lemma example_cursor_wf : cursor_wf (Example.cursor false 30 "o3" 3).
Proof.
  vm_compute. repeat split; try reflexivity; discriminate.
Qed.

(** The previous-page cursor at owner [o3] goes through the codec and comes
    back as it was. *)
Lemma marshal_unmarshal_roundtrip_witness :
  exists s,
    marshalLeaderboardRecordsListCursor (Example.cursor false 30 "o3" 3) = Ok s
    /\ s <> ""
    /\ unmarshalLeaderboardRecordsListCursor "lb" 0 s
       = Ok (Some (Example.cursor false 30 "o3" 3)).
Proof.
  exact (marshal_unmarshal_roundtrip (Example.cursor false 30 "o3" 3) "lb" 0
           example_cursor_wf).
Defined.

(** ** The writer *)

Section Writer.

Context {RC : Type} `{!LeaderboardRankCache RC}.
Variable uuid_FromString : string -> option uuid.UUID.
Variable default_max_num_score : Z.

Lemma currentExpiry_run (leaderboard : Leaderboard) (w : World RC) :
  currentExpiry leaderboard w = (Ok (expiryAt leaderboard (now w)), w).
Proof.
  unfold currentExpiry, expiryAt. destruct (ResetSchedule leaderboard); reflexivity.
Qed.

Lemma guard_passes (leaderboard : Leaderboard) (caller : uuid.UUID) :
  may_write leaderboard caller ->
  Authoritative leaderboard && bool_decide (caller <> uuid.Nil) = false.
Proof.
  intros [Ha | Hc].
  - rewrite Ha. reflexivity.
  - rewrite (bool_decide_eq_false_2 (caller <> uuid.Nil)) by tauto.
    apply andb_false_r.
Qed.

Lemma nullable_spec (s : string) : nullable s = if bool_decide (s = "") then None else Some s.
Proof. reflexivity. Qed.

Lemma find_same_key_none (t : db.Table) (l o : string) (e : time.Time) :
  db.select_record t l o e = inr sqlErrNoRows ->
  List.find (db.same_key l o e) t = None.
Proof.
  unfold db.select_record. destruct (List.find _ t); [discriminate|reflexivity].
Qed.

Lemma find_same_key_some (t : db.Table) (l o : string) (e : time.Time) (r : db.Row) :
  db.select_record t l o e = inl r ->
  List.find (db.same_key l o e) t = Some r.
Proof.
  unfold db.select_record. destruct (List.find _ t); [|discriminate].
  intros H. injection H as ->. reflexivity.
Qed.



Lemma in_int64b_true (z : Z) : in_int64 z -> in_int64b z = true.
Proof.
  unfold in_int64, in_int64b. intros [H1 H2].
  apply andb_true_intro. split; apply Z.leb_le; assumption.
Qed.

Lemma in_int64b_false (z : Z) : ~ in_int64 z -> in_int64b z = false.
Proof.
  unfold in_int64, in_int64b. intros H.
  destruct (Z.leb_spec min_int64 z), (Z.leb_spec z max_int64); cbn; try reflexivity.
  exfalso. apply H. lia.
Qed.

Lemma eval_filter_admits (operator : LeaderboardOperator) (sortOrder : LeaderboardSortOrder)
    (old : db.Row) (leaderboardId ownerID username metadata : string)
    (expiryTime score subscore : Z) :
  let plan := planWrite operator sortOrder score subscore in
  db.eval_filter (wp_filterSQL plan)
    (writeParams leaderboardId ownerID username metadata expiryTime plan) old = true
  <-> write_admits operator sortOrder old score subscore.
Proof.
  destruct operator, sortOrder; cbn;
    rewrite orb_true_iff, ?negb_true_iff, ?Z.eqb_neq, ?Z.ltb_lt; lia.
Qed.



(** X6. A write that changes nothing.  When the owner has a record and the
    operator does not admit the submission (not better under best, the same
    under set, (0, 0) under increment and decrement), the table stays as it
    is, [num_score] included; the writer reads the row back and returns it
    as it stands, with the rank that the rank cache holds; it asks the store
    twice and puts nothing into the rank cache. *)
Theorem write_keeps_record
    (leaderboardCache : LeaderboardCache) (leaderboard : Leaderboard)
    (caller owner : uuid.UUID) (leaderboardId ownerID username : string)
    (score subscore : Z) (metadata : string) (overrideOperator : api.Operator)
    (operator : LeaderboardOperator) (old : db.Row) (w : World RC) :
  leaderboardCache leaderboardId = Some leaderboard ->
  may_write leaderboard caller ->
  effectiveOperator leaderboard overrideOperator = Ok operator ->
  uuid_FromString ownerID = Some owner ->
  let expiryTime := expiryAt leaderboard (now w) in
  db.select_record (table w) leaderboardId ownerID (time.Unix expiryTime 0) = inl old ->
  ~ write_admits operator (SortOrder leaderboard) old score subscore ->
  LeaderboardRecordWrite uuid_FromString default_max_num_score leaderboardCache caller
    leaderboardId ownerID username score subscore metadata overrideOperator w
  = (Ok (written_record leaderboardId ownerID expiryTime
           (rank_Get (rankCache w) leaderboardId expiryTime owner) old),
     {| table := table w; rankCache := rankCache w; now := now w;
        events := rankCache_Get :: db_QueryRowContext :: db_QueryRowContext :: events w |}).
Proof.
  intros Hget Hguard Hop Huuid expiryTime Hold Hrejects.
  pose proof (find_same_key_some _ _ _ _ _ Hold) as Hfind.
  unfold LeaderboardRecordWrite. rewrite Hget, (guard_passes _ _ Hguard).
  unfold mbind, M_bind. rewrite currentExpiry_run. fold expiryTime.
  unfold lift. rewrite Hop.
  unfold db_write, db.upsert.
  cbn [db.p1_leaderboard_id db.p2_owner_id db.p7_expiry_time writeParams].
  rewrite Hfind.
  destruct (db.eval_filter _ _ old) eqn:Hf.
  { exfalso. apply Hrejects.
    apply (eval_filter_admits operator (SortOrder leaderboard) old leaderboardId
             ownerID username metadata expiryTime score subscore). exact Hf. }
  cbn [is_fatal_write_error]. unfold db_read, record_event. cbn [table rankCache now events].
  rewrite Hold.
  unfold uuid_Must_FromString. rewrite Huuid.
  unfold mret, M_ret, do_rank_Get, record_event. cbn [table rankCache now events].
  reflexivity.
Qed.


Lemma same_key_iff (l o : string) (e : time.Time) (r : db.Row) :
  db.same_key l o e r = true <-> primary_key r = (l, o, e).
Proof.
  unfold db.same_key, primary_key.
  rewrite !andb_true_iff, !bool_decide_eq_true, Z.eqb_eq.
  split; [intros [[-> ->] ->]; reflexivity | intros H; injection H; auto].
Qed.

Lemma same_key_false_iff (l o : string) (e : time.Time) (r : db.Row) :
  db.same_key l o e r = false <-> primary_key r <> (l, o, e).
Proof.
  rewrite <- same_key_iff. destruct (db.same_key l o e r); split; congruence.
Qed.

Lemma map_key_replace_record (t : db.Table) (new : db.Row) :
  map primary_key (db.replace_record t new) = map primary_key t.
Proof.
  unfold db.replace_record. rewrite map_map. apply map_ext. intros r.
  destruct (db.same_key _ _ _ r) eqn:E; [|reflexivity].
  apply same_key_iff in E. symmetry. exact E.
Qed.

Lemma upsert_keys_unique (now : time.Time) (t : db.Table) (op : db.opSQL)
    (f : db.filterSQL) (p : db.upsertParams) :
  keys_unique t ->
  keys_unique (snd (db.upsert default_max_num_score now t op f p)).
Proof.
  unfold keys_unique, db.upsert. intros Hu.
  destruct (List.find _ t) as [old|] eqn:Hfind.
  - destruct (db.eval_filter f p old); [|exact Hu].
    destruct (db.eval_op op p old) as [[s ss]|]; [|exact Hu].
    destruct (db.integer _); [|exact Hu].
    cbn [snd]. rewrite map_key_replace_record. exact Hu.
  - cbn [snd]. rewrite map_app. cbn [map primary_key db.leaderboard_id db.owner_id
                                       db.expiry_time].
    apply NoDup_app. split; [exact Hu|]. split; [|apply NoDup_singleton].
    intros k Hk Hin. apply list_elem_of_singleton in Hin. subst k.
    apply list_elem_of_fmap in Hk as (r & Hr & Hrt).
    apply list_elem_of_In in Hrt.
    pose proof (find_none _ _ Hfind r Hrt) as Hno.
    apply same_key_false_iff in Hno. apply Hno. rewrite <- Hr. reflexivity.
Qed.

Lemma upsert_frame (now : time.Time) (t : db.Table) (op : db.opSQL)
    (f : db.filterSQL) (p : db.upsertParams) (r : db.Row) :
  primary_key r <> (db.p1_leaderboard_id p, db.p2_owner_id p, db.p7_expiry_time p) ->
  r ∈ snd (db.upsert default_max_num_score now t op f p) <-> r ∈ t.
Proof.
  intros Hother. unfold db.upsert.
  destruct (List.find _ t) as [old|] eqn:Hfind.
  - destruct (db.eval_filter f p old); [|reflexivity].
    destruct (db.eval_op op p old) as [[s ss]|]; [|reflexivity].
    destruct (db.integer _); [|reflexivity].
    cbn [snd]. apply find_some in Hfind as [_ Hold]. apply same_key_iff in Hold.
    unfold db.replace_record.
    cbn [db.leaderboard_id db.owner_id db.expiry_time].
    unfold primary_key in Hold. injection Hold as H1 H2 H3. rewrite H1, H2, H3.
    rewrite list_elem_of_fmap. split.
    + intros (x & Hx & Hxt). destruct (db.same_key _ _ _ x) eqn:E.
      * exfalso. apply Hother. subst r. unfold primary_key. cbn. congruence.
      * subst. exact Hxt.
    + intros Hrt. exists r. split; [|exact Hrt].
      apply same_key_false_iff in Hother. rewrite Hother. reflexivity.
  - cbn [snd]. rewrite elem_of_app, list_elem_of_singleton. split; [|auto].
    intros [Hrt | ->]; [exact Hrt|]. exfalso. apply Hother. reflexivity.
Qed.

(** Where the table after a write comes from: it is the table before, or
    the table that the upsert leaves. *)
Lemma write_table (leaderboardCache : LeaderboardCache)
    (caller : uuid.UUID) (leaderboardId ownerID username : string)
    (score subscore : Z) (metadata : string) (overrideOperator : api.Operator)
    (w : World RC) :
  let w' := snd (LeaderboardRecordWrite uuid_FromString default_max_num_score
                   leaderboardCache caller leaderboardId ownerID username score subscore
                   metadata overrideOperator w) in
  now w' = now w
  /\ (table w' = table w
      \/ exists op f e,
           table w'
           = snd (db.upsert default_max_num_score (now w) (table w) op f
                    (writeParams leaderboardId ownerID username metadata e
                       (planWrite (match op with
                                   | db.op_increment => LeaderboardOperatorIncrement
                                   | db.op_decrement => LeaderboardOperatorDecrement
                                   | db.op_set => LeaderboardOperatorSet
                                   | _ => LeaderboardOperatorBest
                                   end)
                          (match op with
                           | db.op_greatest => LeaderboardSortOrderDescending
                           | _ => LeaderboardSortOrderAscending
                           end) score subscore)))).
Proof.
  unfold LeaderboardRecordWrite.
  destruct (leaderboardCache leaderboardId) as [leaderboard|]; [|cbn; auto].
  destruct (Authoritative leaderboard && _); [cbn; auto|].
  unfold mbind, M_bind. rewrite currentExpiry_run.
  unfold lift. destruct (effectiveOperator leaderboard overrideOperator) as [operator| |];
    [|cbn; auto..].
  unfold db_write.
  set (plan := planWrite operator (SortOrder leaderboard) score subscore).
  set (params := writeParams _ _ _ _ _ plan).
  destruct (db.upsert default_max_num_score (now w) (table w) (wp_opSQL plan)
              (wp_filterSQL plan) params) as [res t'] eqn:Hup.
  assert (Ht : exists op f e,
             t' = snd (db.upsert default_max_num_score (now w) (table w) op f
                         (writeParams leaderboardId ownerID username metadata e
                            (planWrite (match op with
                                        | db.op_increment => LeaderboardOperatorIncrement
                                        | db.op_decrement => LeaderboardOperatorDecrement
                                        | db.op_set => LeaderboardOperatorSet
                                        | _ => LeaderboardOperatorBest
                                        end)
                               (match op with
                                | db.op_greatest => LeaderboardSortOrderDescending
                                | _ => LeaderboardSortOrderAscending
                                end) score subscore)))).
  { exists (wp_opSQL plan), (wp_filterSQL plan), (expiryAt leaderboard (now w)).
    replace t' with (snd (db.upsert default_max_num_score (now w) (table w)
                            (wp_opSQL plan) (wp_filterSQL plan) params))
      by (rewrite Hup; reflexivity).
    subst params plan. destruct operator, (SortOrder leaderboard); reflexivity. }
  clearbody params plan. clear Hup.
  unfold uuid_Must_FromString, db_read, do_rank_Get, do_rank_Insert, record_event,
    mret, M_ret, fail, panic.
  destruct res as [row|err]; cbn [table rankCache now events].
  - destruct (uuid_FromString ownerID); cbn [table rankCache now events snd]; [|auto].
    destruct (rank_Insert _ _ _ _ _ _ _). cbn. auto.
  - destruct (is_fatal_write_error err); cbn [snd table now]; [auto|].
    destruct (db.select_record t' leaderboardId ownerID _); cbn [snd table now]; [|auto].
    destruct (uuid_FromString ownerID); cbn; auto.
Qed.


Lemma delete_table (leaderboardCache : LeaderboardCache)
    (caller : uuid.UUID) (leaderboardId ownerID : string) (w : World RC) :
  let w' := snd (LeaderboardRecordDelete uuid_FromString leaderboardCache caller
                   leaderboardId ownerID w) in
  table w' = table w
  \/ exists e, table w' = db.delete_record (table w) leaderboardId ownerID e.
Proof.
  unfold LeaderboardRecordDelete.
  destruct (leaderboardCache leaderboardId) as [leaderboard|]; [|cbn; auto].
  destruct (Authoritative leaderboard && _); [cbn; auto|].
  unfold mbind, M_bind. rewrite currentExpiry_run.
  unfold db_write, uuid_Must_FromString, do_rank_Delete, mret, M_ret, panic.
  cbn [table rankCache now events].
  destruct (uuid_FromString ownerID); cbn [snd table]; eauto.
Qed.

Lemma delete_record_keys_unique (t : db.Table) (l o : string) (e : time.Time) :
  keys_unique t -> keys_unique (db.delete_record t l o e).
Proof.
  unfold keys_unique, db.delete_record. intros Hu.
  eapply sublist_NoDup; [exact Hu|].
  apply fmap_sublist. clear Hu. induction t as [|r t IH]; cbn; [constructor|].
  destruct (negb _); [apply sublist_skip | apply sublist_cons]; exact IH.
Qed.

Lemma delete_record_frame (t : db.Table) (l o : string) (e : time.Time) (r : db.Row) :
  primary_key r <> (l, o, e) ->
  r ∈ db.delete_record t l o e <-> r ∈ t.
Proof.
  intros Hother. unfold db.delete_record.
  rewrite !list_elem_of_In, filter_In, <- list_elem_of_In.
  apply same_key_false_iff in Hother. rewrite Hother. cbn. tauto.
Qed.

(** X7. The table keeps each key once.  Whatever the arguments and whatever
    the outcome, a table that holds at most one row for each
    [(leaderboard_id, owner_id, expiry_time)] still does so after a write,
    and after a delete. *)
Theorem writer_and_deleter_keep_keys_unique
    (leaderboardCache : LeaderboardCache) (caller : uuid.UUID)
    (leaderboardId ownerID username : string) (score subscore : Z) (metadata : string)
    (overrideOperator : api.Operator) (w : World RC) :
  keys_unique (table w) ->
  keys_unique
    (table (snd (LeaderboardRecordWrite uuid_FromString default_max_num_score
                   leaderboardCache caller leaderboardId ownerID username score subscore
                   metadata overrideOperator w)))
  /\ keys_unique
       (table (snd (LeaderboardRecordDelete uuid_FromString leaderboardCache caller
                      leaderboardId ownerID w))).
Proof.
  intros Hu. split.
  - destruct (write_table leaderboardCache caller leaderboardId ownerID username score
                subscore metadata overrideOperator w) as [_ [-> | (op & f & e & ->)]].
    + exact Hu.
    + apply upsert_keys_unique. exact Hu.
  - destruct (delete_table leaderboardCache caller leaderboardId ownerID w)
      as [-> | (e & ->)].
    + exact Hu.
    + apply delete_record_keys_unique. exact Hu.
Qed.

(** X8. A write or a delete for an owner on a board leaves every row of
    another board, and every row of another owner, in the table as it is:
    such a row is in the table afterwards exactly when it was there before,
    whatever the outcome of the call. *)
Theorem writer_and_deleter_touch_one_owner
    (leaderboardCache : LeaderboardCache) (caller : uuid.UUID)
    (leaderboardId ownerID username : string) (score subscore : Z) (metadata : string)
    (overrideOperator : api.Operator) (w : World RC) (r : db.Row) :
  db.leaderboard_id r <> leaderboardId \/ db.owner_id r <> ownerID ->
  (r ∈ table (snd (LeaderboardRecordWrite uuid_FromString default_max_num_score
                     leaderboardCache caller leaderboardId ownerID username score
                     subscore metadata overrideOperator w))
   <-> r ∈ table w)
  /\ (r ∈ table (snd (LeaderboardRecordDelete uuid_FromString leaderboardCache caller
                        leaderboardId ownerID w))
      <-> r ∈ table w).
Proof.
  intros Hother.
  assert (Hkey : forall e, primary_key r <> (leaderboardId, ownerID, e)).
  { intros e He. unfold primary_key in He. injection He as H1 H2 _.
    destruct Hother; contradiction. }
  split.
  - destruct (write_table leaderboardCache caller leaderboardId ownerID username score
                subscore metadata overrideOperator w) as [_ [-> | (op & f & e & ->)]].
    + reflexivity.
    + apply upsert_frame. cbn. apply Hkey.
  - destruct (delete_table leaderboardCache caller leaderboardId ownerID w)
      as [-> | (e & ->)].
    + reflexivity.
    + apply delete_record_frame. apply Hkey.
Qed.

(** X9. An operator override outside the four operators (and other than
    "no override") is refused with [ErrInvalidOperator] before the store or
    the rank cache is touched. *)
Theorem write_invalid_operator
    (leaderboardCache : LeaderboardCache) (leaderboard : Leaderboard)
    (caller : uuid.UUID) (leaderboardId ownerID username : string)
    (score subscore : Z) (metadata : string) (n : Z) (w : World RC) :
  leaderboardCache leaderboardId = Some leaderboard ->
  may_write leaderboard caller ->
  LeaderboardRecordWrite uuid_FromString default_max_num_score leaderboardCache caller
    leaderboardId ownerID username score subscore metadata (api.Operator_unknown n) w
  = (Err ErrInvalidOperator, w).
Proof.
  intros Hget Hguard. unfold LeaderboardRecordWrite.
  rewrite Hget, (guard_passes _ _ Hguard).
  unfold mbind, M_bind. rewrite currentExpiry_run. reflexivity.
Qed.

(** X10. An increment or a decrement that would take the stored score or
    subscore out of the 64-bit range changes nothing: the store refuses the
    statement, the writer passes the store's error on, the row and the rank
    cache stay as they were. *)
Theorem write_out_of_range
    (leaderboardCache : LeaderboardCache) (leaderboard : Leaderboard)
    (caller : uuid.UUID) (leaderboardId ownerID username : string)
    (score subscore : Z) (metadata : string) (overrideOperator : api.Operator)
    (operator : LeaderboardOperator) (old : db.Row) (w : World RC) :
  leaderboardCache leaderboardId = Some leaderboard ->
  may_write leaderboard caller ->
  effectiveOperator leaderboard overrideOperator = Ok operator ->
  operator = LeaderboardOperatorIncrement \/ operator = LeaderboardOperatorDecrement ->
  let expiryTime := expiryAt leaderboard (now w) in
  db.select_record (table w) leaderboardId ownerID (time.Unix expiryTime 0) = inl old ->
  write_admits operator (SortOrder leaderboard) old score subscore ->
  ~ write_in_range operator old score subscore ->
  LeaderboardRecordWrite uuid_FromString default_max_num_score leaderboardCache caller
    leaderboardId ownerID username score subscore metadata overrideOperator w
  = (Err (ErrStore (db.numeric_out_of_range "bigint out of range")),
     {| table := table w; rankCache := rankCache w; now := now w;
        events := db_QueryRowContext :: events w |}).
Proof.
  intros Hget Hguard Hop Hkind expiryTime Hold Hadmits Hrange.
  apply find_same_key_some in Hold.
  unfold LeaderboardRecordWrite. rewrite Hget, (guard_passes _ _ Hguard).
  unfold mbind, M_bind. rewrite currentExpiry_run. fold expiryTime.
  unfold lift. rewrite Hop.
  unfold db_write, db.upsert.
  cbn [db.p1_leaderboard_id db.p2_owner_id db.p7_expiry_time writeParams].
  rewrite Hold.
  rewrite (proj2 (eval_filter_admits operator (SortOrder leaderboard) old leaderboardId
                    ownerID username metadata expiryTime score subscore) Hadmits).
  assert (Hop' : db.eval_op
                   (wp_opSQL (planWrite operator (SortOrder leaderboard) score subscore))
                   (writeParams leaderboardId ownerID username metadata expiryTime
                      (planWrite operator (SortOrder leaderboard) score subscore)) old
                 = inr (db.numeric_out_of_range "bigint out of range")).
  { destruct Hkind as [-> | ->]; cbn in Hrange |- *; unfold db.bigint.
    - destruct (decide (in_int64 (db.score old + score))) as [H1|H1].
      + rewrite (in_int64b_true _ H1).
        rewrite in_int64b_false by tauto. reflexivity.
      + rewrite (in_int64b_false _ H1). reflexivity.
    - destruct (decide (in_int64 (db.score old - score))) as [H1|H1].
      + rewrite (in_int64b_true _ H1).
        rewrite in_int64b_false by tauto. reflexivity.
      + rewrite (in_int64b_false _ H1). reflexivity. }
  rewrite Hop'. reflexivity.
Qed.

(** X11. A delete that passes the guard removes the owner's record for the
    current expiry, if there is one, from the table and from the rank
    cache, and succeeds either way: afterwards the table has no row of that
    key; when there was none before, the table is as it was. *)
Theorem delete_removes_record
    (leaderboardCache : LeaderboardCache) (leaderboard : Leaderboard)
    (caller owner : uuid.UUID) (leaderboardId ownerID : string) (w : World RC) :
  leaderboardCache leaderboardId = Some leaderboard ->
  may_write leaderboard caller ->
  uuid_FromString ownerID = Some owner ->
  let expiryTime := expiryAt leaderboard (now w) in
  exists w',
    LeaderboardRecordDelete uuid_FromString leaderboardCache caller leaderboardId ownerID w
    = (Ok tt, w')
    /\ db.select_record (table w') leaderboardId ownerID (time.Unix expiryTime 0)
       = inr sqlErrNoRows
    /\ (db.select_record (table w) leaderboardId ownerID (time.Unix expiryTime 0)
        = inr sqlErrNoRows -> table w' = table w)
    /\ rankCache w' = rank_Delete (rankCache w) leaderboardId expiryTime owner
    /\ events w' = rankCache_Delete :: db_ExecContext :: events w.
Proof.
  intros Hget Hguard Huuid expiryTime.
  unfold LeaderboardRecordDelete. rewrite Hget, (guard_passes _ _ Hguard).
  unfold mbind, M_bind. rewrite currentExpiry_run. fold expiryTime.
  unfold db_write, uuid_Must_FromString. rewrite Huuid.
  unfold mret, M_ret, do_rank_Delete. cbn [table rankCache now events].
  eexists. split; [reflexivity|]. cbn [table rankCache events].
  split; [|split; [|split; reflexivity]].
  - unfold db.select_record, db.delete_record.
    destruct (List.find _ (List.filter _ (table w))) as [r|] eqn:Hfind; [|reflexivity].
    apply find_some in Hfind as [Hin Hkey].
    apply filter_In in Hin as [_ Hnot]. rewrite Hkey in Hnot. discriminate.
  - intros Hnone. apply find_same_key_none in Hnone.
    unfold db.delete_record.
    assert (Hall : forall r, In r (table w) ->
                     negb (db.same_key leaderboardId ownerID (time.Unix expiryTime 0) r)
                     = true).
    { intros r Hr. rewrite (find_none _ _ Hnone r Hr). reflexivity. }
    revert Hall. generalize (table w). intros t. induction t as [|r t IH]; intros Hall.
    + reflexivity.
    + cbn. rewrite (Hall r (or_introl eq_refl)). f_equal.
      apply IH. intros r' Hr'. apply Hall. right. exact Hr'.
Qed.

End Writer.

(** *** The writer and the deleter at work *)



(** The same owner submits 25, which is not better: nothing changes, and
    the record comes back as it stood. *)
Lemma write_keeps_record_witness :
  Example.write Example.descending Example.five "" "o3" 25 0 ""
  = (Ok (written_record "lb" "o3" 0 0 (Example.row "o3" 30)),
     {| table := Example.five; rankCache := tt; now := 0;
        events := [rankCache_Get; db_QueryRowContext; db_QueryRowContext] |}).
Proof.
  assert (Hold : db.select_record (table (Example.world Example.five)) "lb" "o3"
                   (time.Unix (expiryAt Example.descending
                                 (now (Example.world Example.five))) 0)
                 = inl (Example.row "o3" 30))
    by (vm_compute; reflexivity).
  assert (Hrejects : ~ write_admits LeaderboardOperatorBest
                         (SortOrder Example.descending) (Example.row "o3" 30) 25 0)
    by (vm_compute; intros [H | H]; discriminate H).
  pose proof (write_keeps_record (RC:=unit) Example.uuid_FromString
                Example.default_max_num_score (Example.cache Example.descending)
                Example.descending "" "o3" "lb" "o3" "" 25 0 "" api.Operator_NO_OVERRIDE
                LeaderboardOperatorBest (Example.row "o3" 30) (Example.world Example.five)
                eq_refl (or_introl eq_refl) eq_refl eq_refl Hold Hrejects) as H.
  vm_compute in H. vm_compute. exact H.
Defined.

Lemma five_keys_unique : keys_unique Example.five.
Proof.
  unfold keys_unique. vm_compute.
  repeat (apply NoDup_cons_2; [intros Hin; repeat (apply elem_of_cons in Hin as [Hin|Hin]; [discriminate Hin|]); apply elem_of_nil in Hin; exact Hin|]).
  apply NoDup_nil_2.
Qed.

Lemma keys_unique_witness :
  keys_unique (table (snd (Example.write Example.descending Example.five "" "o6" 5 0 "")))
  /\ keys_unique
       (table (snd (LeaderboardRecordDelete Example.uuid_FromString
                      (Example.cache Example.descending) "" "lb" "o6"
                      (Example.world Example.five)))).
Proof.
  exact (writer_and_deleter_keep_keys_unique (RC:=unit) Example.uuid_FromString
           Example.default_max_num_score (Example.cache Example.descending) "" "lb"
           "o6" "" 5 0 "" api.Operator_NO_OVERRIDE (Example.world Example.five)
           five_keys_unique).
Defined.

(** Owner [o1]'s row is where it was after [o6] has written and after [o6]
    has been deleted. *)
Lemma touch_one_owner_witness :
  (Example.row "o1" 50
     ∈ table (snd (Example.write Example.descending Example.five "" "o6" 5 0 ""))
   <-> Example.row "o1" 50 ∈ Example.five)
  /\ (Example.row "o1" 50
        ∈ table (snd (LeaderboardRecordDelete Example.uuid_FromString
                        (Example.cache Example.descending) "" "lb" "o6"
                        (Example.world Example.five)))
      <-> Example.row "o1" 50 ∈ Example.five).
Proof.
  apply (writer_and_deleter_touch_one_owner (RC:=unit) Example.uuid_FromString
           Example.default_max_num_score (Example.cache Example.descending) "" "lb"
           "o6" "" 5 0 "" api.Operator_NO_OVERRIDE (Example.world Example.five)
           (Example.row "o1" 50)).
  right. discriminate.
Defined.

Lemma write_invalid_operator_witness :
  LeaderboardRecordWrite Example.uuid_FromString Example.default_max_num_score
    (Example.cache Example.descending) "" "lb" "o3" "" 35 0 "" (api.Operator_unknown 7)
    (Example.world Example.five)
  = (Err ErrInvalidOperator, Example.world Example.five).
Proof.
  apply (write_invalid_operator (RC:=unit) Example.uuid_FromString
           Example.default_max_num_score (Example.cache Example.descending)
           Example.descending).
  - reflexivity.
  - left. reflexivity.
Defined.

(** An increment by the largest 64-bit integer on a stored score of 30. *)
Lemma write_out_of_range_witness :
  fst (LeaderboardRecordWrite Example.uuid_FromString Example.default_max_num_score
         (Example.cache Example.descending) "" "lb" "o3" "" max_int64 0 ""
         api.Operator_INCREMENT (Example.world Example.five))
  = Err (ErrStore (db.numeric_out_of_range "bigint out of range")).
Proof.
  assert (Hold : db.select_record (table (Example.world Example.five)) "lb" "o3"
                   (time.Unix (expiryAt Example.descending
                                 (now (Example.world Example.five))) 0)
                 = inl (Example.row "o3" 30))
    by (vm_compute; reflexivity).
  assert (Hadmits : write_admits LeaderboardOperatorIncrement
                      (SortOrder Example.descending) (Example.row "o3" 30) max_int64 0)
    by (left; vm_compute; discriminate).
  assert (Hrange : ~ write_in_range LeaderboardOperatorIncrement (Example.row "o3" 30)
                       max_int64 0)
    by (vm_compute; intros [[_ H] _]; apply H; reflexivity).
  rewrite (write_out_of_range (RC:=unit) Example.uuid_FromString
             Example.default_max_num_score (Example.cache Example.descending)
             Example.descending "" "lb" "o3" "" max_int64 0 "" api.Operator_INCREMENT
             LeaderboardOperatorIncrement (Example.row "o3" 30)
             (Example.world Example.five)
             eq_refl (or_introl eq_refl) eq_refl (or_introl eq_refl) Hold Hadmits Hrange).
  reflexivity.
Defined.

Lemma delete_removes_record_witness :
  exists w',
    LeaderboardRecordDelete Example.uuid_FromString (Example.cache Example.descending)
      "" "lb" "o3" (Example.world Example.five)
    = (Ok tt, w')
    /\ db.select_record (table w') "lb" "o3" 0 = inr sqlErrNoRows.
Proof.
  destruct (delete_removes_record (RC:=unit) Example.uuid_FromString
              (Example.cache Example.descending) Example.descending "" "o3" "lb" "o3"
              (Example.world Example.five) eq_refl (or_introl eq_refl) eq_refl)
    as (w' & Hrun & Hgone & _).
  exists w'. split; [exact Hrun|]. exact Hgone.
Defined.

(** ** The reversal of a previous page *)

Lemma set_Rank_own (r : api.LeaderboardRecord) : api.set_Rank (api.Rank r) r = r.
Proof. destruct r. reflexivity. Qed.

Ltac nat_cases :=
  repeat match goal with
         | |- context [(?a <? ?b)%nat] => destruct (Nat.ltb_spec a b)
         | |- context [(?a <=? ?b)%nat] => destruct (Nat.leb_spec a b)
         end.

Lemma pointers_after_lookup (n k i : nat) :
  (i < n)%nat ->
  pointers_after n k !! i = Some (if swapped n k i then (n - 1 - i)%nat else i).
Proof.
  intros Hi. unfold pointers_after.
  change (map ?f ?l) with (f <$> l).
  rewrite list_lookup_fmap, lookup_seq_lt by exact Hi. reflexivity.
Qed.

Lemma length_pointers_after (n k : nat) : length (pointers_after n k) = n.
Proof. unfold pointers_after. rewrite length_map, length_seq. reflexivity. Qed.

Lemma heap_after_lookup (l : list api.LeaderboardRecord) (k p : nat) :
  heap_after l k !! p
  = (fun o => if swapped (length l) k p
              then api.set_Rank (default 0 (api.Rank <$> l !! (length l - 1 - p)%nat)) o
              else o) <$> l !! p.
Proof. unfold heap_after. apply list_lookup_imap. Qed.

Lemma swapRecords_step (l : list api.LeaderboardRecord) (k : nat) :
  (2 * k + 1 < length l)%nat ->
  swapRecords (Z.of_nat k) (Z.of_nat (length l) - 1 - Z.of_nat k)
    (pointers_after (length l) k) (heap_after l k)
  = Some (pointers_after (length l) (S k), heap_after l (S k)).
Proof.
  intros Hk. set (n := length l) in *. set (j := (n - 1 - k)%nat).
  replace (Z.of_nat n - 1 - Z.of_nat k) with (Z.of_nat j) by (subst j; lia).
  unfold swapRecords.
  destruct (Z.ltb_spec (Z.of_nat k) 0); [lia|].
  destruct (Z.ltb_spec (Z.of_nat j) 0); [lia|]. cbn [orb].
  rewrite !Nat2Z.id.
  assert (Hkn : (k < n)%nat) by lia. assert (Hjn : (j < n)%nat) by (subst j; lia).
  destruct (lookup_lt_is_Some_2 l k Hkn) as [ok Hok].
  destruct (lookup_lt_is_Some_2 l j Hjn) as [oj Hoj].
  rewrite (pointers_after_lookup n k k Hkn), (pointers_after_lookup n k j Hjn).
  assert (Hsk : swapped n k k = false) by (unfold swapped; nat_cases; cbn; lia || reflexivity).
  assert (Hsj : swapped n k j = false)
    by (unfold swapped; subst j; nat_cases; cbn; lia || reflexivity).
  rewrite Hsk, Hsj.
  rewrite !heap_after_lookup. fold n. rewrite Hok, Hoj. cbn [fmap option_fmap option_map].
  rewrite Hsk, Hsj.
  f_equal. f_equal.
  - apply list_eq. intros i.
    rewrite !list_lookup_insert, length_insert, !length_pointers_after.
    destruct (decide (i < n)%nat) as [Hi|Hi].
    2:{ rewrite !(lookup_ge_None_2 (pointers_after _ _)) by (rewrite length_pointers_after; lia).
        repeat case_decide; try reflexivity; lia. }
    rewrite !pointers_after_lookup by exact Hi.
    repeat case_decide; unfold swapped; subst j; nat_cases; cbn; f_equal; lia.
  - apply list_eq. intros p.
    rewrite !list_lookup_alter, !heap_after_lookup. fold n.
    destruct (decide (j = p)) as [<-|Hjp]; [|destruct (decide (k = p)) as [<-|Hkp]].
    + destruct (decide (k = j)) as [Hkj|_]; [subst j; lia|].
      rewrite Hoj, Hsj. cbn [fmap option_fmap option_map].
      assert (Hs : swapped n (S k) j = true)
        by (unfold swapped; subst j; nat_cases; cbn; lia || reflexivity).
      rewrite Hs. replace (n - 1 - j)%nat with k by (subst j; lia).
      rewrite Hok. reflexivity.
    + rewrite Hok. cbn [fmap option_fmap option_map]. rewrite Hsk.
      assert (Hs : swapped n (S k) k = true)
        by (unfold swapped; nat_cases; cbn; lia || reflexivity).
      rewrite Hs. fold j. rewrite Hoj. reflexivity.
    + destruct (l !! p) as [o|] eqn:Hp; [|reflexivity].
      cbn [fmap option_fmap option_map].
      assert (Hs : swapped n (S k) p = swapped n k p).
      { apply lookup_lt_Some in Hp. fold n in Hp.
        unfold swapped; subst j; nat_cases; cbn; lia || reflexivity. }
      rewrite Hs. reflexivity.
Qed.

Lemma reverseLoop_run (l : list api.LeaderboardRecord) (m k fuel : nat) :
  (2 * (k + m) <= length l)%nat ->
  (length l < 2 * (k + m) + 2)%nat ->
  (m <= fuel)%nat ->
  reverseLoop fuel (Z.of_nat k) (Z.of_nat (length l) - 1 - Z.of_nat k)
    (pointers_after (length l) k) (heap_after l k)
  = Some (pointers_after (length l) (k + m), heap_after l (k + m)).
Proof.
  revert k fuel. induction m as [|m IH]; intros k fuel Hlo Hhi Hfuel.
  - rewrite Nat.add_0_r in *.
    destruct fuel; cbn [reverseLoop];
      destruct (Z.ltb_spec (Z.of_nat k) (Z.of_nat (length l) - 1 - Z.of_nat k));
      try lia; reflexivity.
  - destruct fuel as [|fuel]; [lia|]. cbn [reverseLoop].
    destruct (Z.ltb_spec (Z.of_nat k) (Z.of_nat (length l) - 1 - Z.of_nat k)); [|lia].
    rewrite swapRecords_step by lia.
    replace (Z.of_nat k + 1) with (Z.of_nat (S k)) by lia.
    replace (Z.of_nat (length l) - 1 - Z.of_nat k - 1)
      with (Z.of_nat (length l) - 1 - Z.of_nat (S k)) by lia.
    rewrite (IH (S k) fuel) by lia.
    replace (S k + m)%nat with (k + S m)%nat by lia. reflexivity.
Qed.

Lemma pointers_after_0 (n : nat) : pointers_after n 0 = seq 0 n.
Proof.
  unfold pointers_after. rewrite <- (map_id (seq 0 n)) at 2.
  apply map_ext_in. intros i Hi. apply in_seq in Hi.
  unfold swapped. nat_cases; cbn; lia || reflexivity.
Qed.

Lemma heap_after_0 (l : list api.LeaderboardRecord) : heap_after l 0 = l.
Proof.
  apply list_eq. intros p. rewrite heap_after_lookup.
  destruct (l !! p) as [o|] eqn:Hp; [|reflexivity]. cbn.
  apply lookup_lt_Some in Hp.
  unfold swapped. nat_cases; cbn; lia || reflexivity.
Qed.

Lemma reverseRecords_run (records : list api.LeaderboardRecord) :
  reverseRecords records = Ok (mirror_ranks records).
Proof.
  unfold reverseRecords. set (n := length records).
  pose proof (reverseLoop_run records (n / 2) 0 n) as Hrun.
  rewrite pointers_after_0, heap_after_0 in Hrun. fold n in Hrun.
  change (Z.of_nat 0) with 0 in Hrun. cbn [Nat.add] in Hrun.
  rewrite Z.sub_0_r in Hrun.
  assert (Hdiv : (2 * (n / 2) <= n < 2 * (n / 2) + 2)%nat).
  { pose proof (Nat.div_mod_eq n 2). pose proof (Nat.mod_upper_bound n 2). lia. }
  rewrite Hrun by (try apply Nat.Div0.div_le_upper_bound; lia).
  set (K := (n / 2)%nat) in *.
  assert (Hview : mapM (fun p => heap_after records K !! p) (pointers_after n K)
                  = Some (mirror_ranks records)).
  { apply mapM_Some, Forall2_same_length_lookup. split.
    - unfold mirror_ranks. rewrite length_pointers_after, length_zip_with,
        length_reverse, length_map. fold n. lia.
    - intros i p r Hp Hr.
      assert (Hi : (i < n)%nat)
        by (apply lookup_lt_Some in Hp; rewrite length_pointers_after in Hp; exact Hp).
      rewrite pointers_after_lookup in Hp by exact Hi. injection Hp as <-.
      unfold mirror_ranks in Hr.
      apply lookup_zip_with_Some in Hr as (a & rk & -> & Ha & Hrk).
      rewrite reverse_lookup in Ha by exact Hi. fold n in Ha.
      change (map api.Rank records) with (api.Rank <$> records) in Hrk.
      rewrite list_lookup_fmap in Hrk.
      destruct (records !! i) as [b|] eqn:Hb; [|discriminate].
      injection Hrk as <-.
      rewrite heap_after_lookup. fold n.
      destruct (swapped n K i) eqn:Hs.
      + replace (n - S i)%nat with (n - 1 - i)%nat in Ha by lia.
        rewrite Ha. cbn [fmap option_fmap option_map].
        assert (Hs' : swapped n K (n - 1 - i) = true).
        { revert Hs. unfold swapped. nat_cases; cbn; intros; lia || reflexivity. }
        rewrite Hs'. replace (n - 1 - (n - 1 - i))%nat with i by lia.
        rewrite Hb. reflexivity.
      + assert (Hmid : (n - S i = i)%nat).
        { revert Hs. unfold swapped. nat_cases; cbn; intros; lia || discriminate. }
        rewrite Hmid in Ha. rewrite Hb in Ha. injection Ha as <-.
        rewrite Hb. cbn [fmap option_fmap option_map]. rewrite Hs.
        rewrite set_Rank_own. reflexivity. }
  rewrite Hview. reflexivity.
Qed.

Lemma keys_mirror_ranks (l : list api.LeaderboardRecord) :
  map record_key (mirror_ranks l) = reverse (map record_key l).
Proof.
  unfold mirror_ranks. apply list_eq. intros i.
  change (map ?f ?x) with (f <$> x).
  rewrite <- fmap_reverse, !list_lookup_fmap, lookup_zip_with.
  destruct (reverse l !! i) as [a|] eqn:Ha; [|reflexivity]. cbn.
  assert (Hi : (i < length l)%nat)
    by (apply lookup_lt_Some in Ha; rewrite length_reverse in Ha; exact Ha).
  rewrite list_lookup_fmap.
  destruct (lookup_lt_is_Some_2 l i Hi) as [b Hb]. rewrite Hb. reflexivity.
Qed.

Lemma ranks_mirror_ranks (l : list api.LeaderboardRecord) :
  map api.Rank (mirror_ranks l) = map api.Rank l.
Proof.
  unfold mirror_ranks. apply list_eq. intros i.
  change (map ?f ?x) with (f <$> x).
  rewrite !list_lookup_fmap, lookup_zip_with, list_lookup_fmap.
  destruct (l !! i) as [b|] eqn:Hb.
  - assert (Hi : (i < length (reverse l))%nat)
      by (rewrite length_reverse; apply lookup_lt_Some in Hb; exact Hb).
    destruct (lookup_lt_is_Some_2 _ i Hi) as [a Ha]. rewrite Ha. reflexivity.
  - destruct (reverse l !! i); reflexivity.
Qed.

Lemma length_mirror_ranks (l : list api.LeaderboardRecord) :
  length (mirror_ranks l) = length l.
Proof.
  unfold mirror_ranks. rewrite length_zip_with, length_reverse, length_map. lia.
Qed.

(** X12. The reversal loop of a previous-page listing.  On a page of
    records the loop never fails; afterwards the records stand in reverse
    order while the rank values stand where they stood: the record at
    position [i] is the record that was at the mirror position, carrying the
    rank that the record at position [i] had before. *)
Theorem reverseRecords_mirrors_ranks (records : list api.LeaderboardRecord) :
  exists page,
    reverseRecords records = Ok page
    /\ page = mirror_ranks records
    /\ map record_key page = reverse (map record_key records)
    /\ map api.Rank page = map api.Rank records.
Proof.
  exists (mirror_ranks records). split; [apply reverseRecords_run|].
  split; [reflexivity|]. split; [apply keys_mirror_ranks | apply ranks_mirror_ranks].
Qed.

(** ** The row loop of the lister *)

Section RowLoop.

Variables (leaderboardId : string) (expiryTime limitNumber : Z).
Variable incomingCursor : option leaderboardRecordListCursor.

Abbreviation step := (listRow leaderboardId expiryTime limitNumber incomingCursor).

Lemma listRow_rank (st : listState) (row : db.Row) :
  ls_rank (step st row) = next_rank incomingCursor (ls_rank st).
Proof.
  unfold listRow, next_rank, is_prev. cbn [ls_rank].
  destruct incomingCursor as [c|]; [destruct (IsNext c)|]; reflexivity.
Qed.

Lemma listRow_records (st : listState) (row : db.Row) :
  ls_records (step st row)
  = ls_records st
    ++ [listed_record leaderboardId expiryTime (next_rank incomingCursor (ls_rank st)) row].
Proof.
  unfold listRow, next_rank, is_prev, listed_record. cbn [ls_records].
  destruct incomingCursor as [c|]; [destruct (IsNext c)|]; reflexivity.
Qed.

Lemma listRow_scanned (st : listState) (row : db.Row) :
  ls_dbOwnerID (step st row) = db.owner_id row
  /\ ls_dbScore (step st row) = db.score row
  /\ ls_dbSubscore (step st row) = db.subscore row.
Proof. repeat split. Qed.

Lemma listRow_nextCursor (st : listState) (row : db.Row) :
  ls_nextCursor (step st row)
  = if limitNumber <=? Z.of_nat (length (ls_records st)) then
      Some {| IsNext := true; LeaderboardId := leaderboardId; ExpiryTime := expiryTime;
              Score := ls_dbScore st; Subscore := ls_dbSubscore st;
              OwnerId := ls_dbOwnerID st; Rank := ls_rank st |}
    else ls_nextCursor st.
Proof. reflexivity. Qed.

Lemma listRow_prevCursor (st : listState) (row : db.Row) :
  ls_prevCursor (step st row)
  = match incomingCursor, ls_prevCursor st with
    | Some _, None =>
        Some (row_cursor false leaderboardId expiryTime
                (next_rank incomingCursor (ls_rank st)) row)
    | _, p => p
    end.
Proof.
  unfold listRow, next_rank, is_prev, row_cursor. cbn [ls_prevCursor].
  destruct incomingCursor as [c|]; [destruct (IsNext c)|]; reflexivity.
Qed.

Lemma fold_rank (rows : list db.Row) (st : listState) :
  ls_rank (foldl step st rows) = rank_after incomingCursor (ls_rank st) (length rows).
Proof.
  revert st. induction rows as [|row rows IH]; intros st; [reflexivity|].
  cbn [foldl length]. rewrite IH, listRow_rank.
  unfold rank_after. rewrite Nat.iter_succ_r. reflexivity.
Qed.

Lemma fold_records (rows : list db.Row) (st : listState) :
  ls_records (foldl step st rows)
  = ls_records st
    ++ page_records leaderboardId expiryTime incomingCursor (ls_rank st) rows.
Proof.
  revert st. induction rows as [|row rows IH]; intros st.
  - cbn. rewrite app_nil_r. reflexivity.
  - cbn [foldl page_records]. rewrite IH, listRow_records, listRow_rank, <- app_assoc.
    reflexivity.
Qed.

Lemma length_page_records (rank : Z) (rows : list db.Row) :
  length (page_records leaderboardId expiryTime incomingCursor rank rows) = length rows.
Proof.
  revert rank. induction rows as [|row rows IH]; intros rank; [reflexivity|].
  cbn. rewrite IH. reflexivity.
Qed.

Lemma keys_page_records (rank : Z) (rows : list db.Row) :
  map record_key (page_records leaderboardId expiryTime incomingCursor rank rows)
  = map db.key_of rows.
Proof.
  revert rank. induction rows as [|row rows IH]; intros rank; [reflexivity|].
  cbn [page_records map]. rewrite IH. reflexivity.
Qed.

Lemma ranks_page_records (rank : Z) (rows : list db.Row) :
  map api.Rank (page_records leaderboardId expiryTime incomingCursor rank rows)
  = map (fun i => rank_after incomingCursor rank (S i)) (seq 0 (length rows)).
Proof.
  revert rank. induction rows as [|row rows IH]; intros rank; [reflexivity|].
  cbn [page_records map length seq]. rewrite IH. f_equal.
  rewrite <- seq_shift, map_map. apply map_ext. intros i.
  unfold rank_after. rewrite !Nat.iter_succ_r. reflexivity.
Qed.

Lemma fold_prevCursor (rows : list db.Row) (st : listState) (p : leaderboardRecordListCursor) :
  ls_prevCursor st = Some p -> ls_prevCursor (foldl step st rows) = Some p.
Proof.
  revert st. induction rows as [|row rows IH]; intros st Hp; [exact Hp|].
  cbn [foldl]. apply IH. rewrite listRow_prevCursor, Hp.
  destruct incomingCursor; reflexivity.
Qed.

Lemma fold_prevCursor_init (rows : list db.Row) (st : listState) :
  ls_prevCursor st = None ->
  ls_prevCursor (foldl step st rows)
  = match incomingCursor, rows with
    | Some _, row :: _ =>
        Some (row_cursor false leaderboardId expiryTime
                (next_rank incomingCursor (ls_rank st)) row)
    | _, _ => None
    end.
Proof.
  intros Hp. destruct rows as [|row rows].
  - cbn. rewrite Hp. destruct incomingCursor; reflexivity.
  - cbn [foldl].
    assert (Hcase : (exists c, incomingCursor = Some c) \/ incomingCursor = None)
      by (destruct incomingCursor; eauto).
    destruct Hcase as [[c Hc] | Hc].
    + transitivity (Some (row_cursor false leaderboardId expiryTime
                            (next_rank incomingCursor (ls_rank st)) row)).
      * apply fold_prevCursor. rewrite listRow_prevCursor, Hp, Hc. reflexivity.
      * rewrite Hc. reflexivity.
    + transitivity (@None leaderboardRecordListCursor); [|rewrite Hc; reflexivity].
      assert (Hn : ls_prevCursor (step st row) = None)
        by (rewrite listRow_prevCursor, Hp, Hc; reflexivity).
      revert Hn. generalize (step st row). clear st Hp.
      induction rows as [|r rows IH]; intros st Hn; [exact Hn|].
      cbn [foldl]. apply IH. rewrite listRow_prevCursor, Hn, Hc. reflexivity.
Qed.

Lemma fold_nextCursor_none (rows : list db.Row) (st : listState) :
  ls_nextCursor st = None ->
  Z.of_nat (length (ls_records st) + length rows) <= limitNumber ->
  ls_nextCursor (foldl step st rows) = None.
Proof.
  revert st. induction rows as [|row rows IH]; intros st Hn Hlen; [exact Hn|].
  cbn [foldl]. cbn [length] in Hlen. apply IH.
  - rewrite listRow_nextCursor.
    destruct (Z.leb_spec limitNumber (Z.of_nat (length (ls_records st)))); [lia|exact Hn].
  - rewrite listRow_records, length_app. cbn [length]. lia.
Qed.

Lemma fold_scanned (rows : list db.Row) (st : listState) (last : db.Row) :
  let st' := foldl step st (rows ++ [last]) in
  ls_dbOwnerID st' = db.owner_id last
  /\ ls_dbScore st' = db.score last
  /\ ls_dbSubscore st' = db.subscore last.
Proof.
  cbn zeta. rewrite foldl_app. cbn [foldl]. apply listRow_scanned.
Qed.

End RowLoop.

(** ** The order of keys and the sorted queries *)

Lemma ascii_compare_refl (a : ascii) : Ascii.compare a a = Eq.
Proof. unfold Ascii.compare. apply N.compare_refl. Qed.

Lemma ascii_compare_lt_trans (a b c : ascii) :
  Ascii.compare a b = Lt -> Ascii.compare b c = Lt -> Ascii.compare a c = Lt.
Proof.
  unfold Ascii.compare. rewrite !N.compare_lt_iff. lia.
Qed.

Lemma string_compare_refl (s : string) : String.compare s s = Eq.
Proof.
  induction s as [|a s IH]; [reflexivity|]. cbn. rewrite ascii_compare_refl. exact IH.
Qed.

Lemma string_compare_lt_trans (s1 s2 s3 : string) :
  String.compare s1 s2 = Lt -> String.compare s2 s3 = Lt -> String.compare s1 s3 = Lt.
Proof.
  revert s2 s3. induction s1 as [|a s1 IH]; intros [|b s2] [|c s3]; cbn;
    try discriminate; try reflexivity.
  destruct (Ascii.compare a b) eqn:Hab; try discriminate;
    destruct (Ascii.compare b c) eqn:Hbc; try discriminate; intros H1 H2.
  - apply Ascii.compare_eq_iff in Hab, Hbc. subst. rewrite ascii_compare_refl. eauto.
  - apply Ascii.compare_eq_iff in Hab. subst. rewrite Hbc. reflexivity.
  - apply Ascii.compare_eq_iff in Hbc. subst. rewrite Hab. reflexivity.
  - rewrite (ascii_compare_lt_trans a b c Hab Hbc). reflexivity.
Qed.

Lemma key_compare_refl (a : db.key) : db.key_compare a a = Eq.
Proof.
  destruct a as [[s ss] o]. cbn. rewrite !Z.compare_refl. apply string_compare_refl.
Qed.

Lemma key_compare_eq (a b : db.key) : db.key_compare a b = Eq -> a = b.
Proof.
  destruct a as [[s1 ss1] o1], b as [[s2 ss2] o2]. cbn.
  destruct (Z.compare_spec s1 s2); try discriminate.
  destruct (Z.compare_spec ss1 ss2); try discriminate.
  intros Ho. apply String.compare_eq_iff in Ho. congruence.
Qed.

Lemma key_compare_antisym (a b : db.key) :
  db.key_compare b a = CompOpp (db.key_compare a b).
Proof.
  destruct a as [[s1 ss1] o1], b as [[s2 ss2] o2]. cbn.
  rewrite (Z.compare_antisym s1 s2), (Z.compare_antisym ss1 ss2),
    (String.compare_antisym o2 o1).
  destruct (s1 ?= s2); cbn; try reflexivity.
  destruct (ss1 ?= ss2); cbn; reflexivity.
Qed.

Lemma key_compare_lt_trans (a b c : db.key) :
  db.key_compare a b = Lt -> db.key_compare b c = Lt -> db.key_compare a c = Lt.
Proof.
  destruct a as [[s1 ss1] o1], b as [[s2 ss2] o2], c as [[s3 ss3] o3]. cbn.
  destruct (Z.compare_spec s1 s2); try discriminate;
    destruct (Z.compare_spec s2 s3); try discriminate;
    destruct (Z.compare_spec s1 s3); try lia; try reflexivity.
  destruct (Z.compare_spec ss1 ss2); try discriminate;
    destruct (Z.compare_spec ss2 ss3); try discriminate;
    destruct (Z.compare_spec ss1 ss3); try lia; try reflexivity.
  apply string_compare_lt_trans.
Qed.

Lemma key_lt_iff (a b : db.key) : key_lt a b <-> db.key_compare a b = Lt.
Proof.
  unfold key_lt, db.key_ltb. destruct (db.key_compare a b); split; congruence.
Qed.

Lemma key_le_iff (a b : db.key) : key_le a b <-> db.key_compare a b <> Gt.
Proof.
  unfold key_le, db.key_leb, db.key_ltb. rewrite (key_compare_antisym a b).
  destruct (db.key_compare a b); cbn; split; congruence.
Qed.

Lemma key_lt_le (a b : db.key) : key_lt a b -> key_le a b.
Proof. rewrite key_lt_iff, key_le_iff. congruence. Qed.


Lemma key_le_total (a b : db.key) : key_le a b \/ key_le b a.
Proof.
  rewrite !key_le_iff, (key_compare_antisym a b).
  destruct (db.key_compare a b); cbn; [left|left|right]; discriminate.
Qed.

Lemma key_le_trans (a b c : db.key) : key_le a b -> key_le b c -> key_le a c.
Proof.
  rewrite !key_le_iff. intros Hab Hbc.
  destruct (db.key_compare a b) eqn:E1; [| |congruence].
  - apply key_compare_eq in E1. subst. exact Hbc.
  - destruct (db.key_compare b c) eqn:E2; [| |congruence].
    + apply key_compare_eq in E2. subst. rewrite E1. discriminate.
    + rewrite (key_compare_lt_trans a b c E1 E2). discriminate.
Qed.



Lemma key_le_lt_trans (a b c : db.key) : key_le a b -> key_lt b c -> key_lt a c.
Proof.
  rewrite !key_lt_iff, key_le_iff. intros Hab Hbc.
  destruct (db.key_compare a b) eqn:E; [| |congruence].
  - apply key_compare_eq in E. subst. exact Hbc.
  - exact (key_compare_lt_trans a b c E Hbc).
Qed.

Lemma key_lt_irrefl (a : db.key) : ~ key_lt a a.
Proof. rewrite key_lt_iff, key_compare_refl. discriminate. Qed.

Lemma row_le_key (o : db.Order) (a b : db.Row) :
  row_le o a b
  <-> match o with
      | db.ASC => key_le (db.key_of a) (db.key_of b)
      | db.DESC => key_le (db.key_of b) (db.key_of a)
      end.
Proof. destruct o; reflexivity. Qed.

Lemma row_le_trans (o : db.Order) (a b c : db.Row) :
  row_le o a b -> row_le o b c -> row_le o a c.
Proof.
  rewrite !row_le_key. destruct o; eauto using key_le_trans.
Qed.

Lemma row_le_total (o : db.Order) (a b : db.Row) : row_le o a b \/ row_le o b a.
Proof.
  rewrite !row_le_key. destruct o; [apply key_le_total|].
  destruct (key_le_total (db.key_of a) (db.key_of b)); auto.
Qed.

Lemma insert_sorted_perm (o : db.Order) (x : db.Row) (l : list db.Row) :
  db.insert_sorted o x l ≡ₚ x :: l.
Proof.
  induction l as [|y l IH]; cbn; [reflexivity|].
  destruct (db.row_leb o x y); [reflexivity|].
  rewrite IH. apply Permutation_swap.
Qed.

Lemma order_by_perm (o : db.Order) (l : list db.Row) : db.order_by o l ≡ₚ l.
Proof.
  unfold db.order_by. induction l as [|x l IH]; cbn; [reflexivity|].
  rewrite insert_sorted_perm, IH. reflexivity.
Qed.

Lemma insert_sorted_sorted (o : db.Order) (x : db.Row) (l : list db.Row) :
  StronglySorted (row_le o) l -> StronglySorted (row_le o) (db.insert_sorted o x l).
Proof.
  induction 1 as [|y l Hs IH Hall]; cbn.
  - repeat constructor.
  - destruct (db.row_leb o x y) eqn:Hxy.
    + constructor; [constructor; assumption|].
      constructor; [exact Hxy|].
      eapply Forall_impl; [exact Hall|]. intros z Hz. eapply row_le_trans; eassumption.
    + constructor; [exact IH|].
      rewrite insert_sorted_perm. constructor; [|exact Hall].
      destruct (row_le_total o x y) as [H|H]; [unfold row_le in H; congruence|exact H].
Qed.

Lemma order_by_sorted (o : db.Order) (l : list db.Row) :
  StronglySorted (row_le o) (db.order_by o l).
Proof.
  unfold db.order_by. induction l as [|x l IH]; cbn; [constructor|].
  apply insert_sorted_sorted. exact IH.
Qed.

Lemma StronglySorted_take {A : Type} (R : A -> A -> Prop) (n : nat) (l : list A) :
  StronglySorted R l -> StronglySorted R (take n l).
Proof.
  intros H. rewrite <- (take_drop n l) in H. eapply StronglySorted_app_1_l. exact H.
Qed.

Lemma StronglySorted_reverse {A : Type} (R : A -> A -> Prop) (l : list A) :
  StronglySorted R l -> StronglySorted (flip R) (reverse l).
Proof.
  induction 1 as [|x l Hs IH Hall]; [constructor|].
  rewrite reverse_cons. apply StronglySorted_app_2.
  - intros a b Ha Hb. apply list_elem_of_singleton in Hb. subst b.
    apply elem_of_reverse in Ha. unfold flip.
    rewrite Forall_forall in Hall. apply Hall. rewrite reverse_involutive in Ha. exact Ha.
  - exact IH.
  - repeat constructor.
Qed.

(** ** The lister *)

Section Lister.

Context {RC : Type} `{!LeaderboardRankCache RC}.
Variable calculateTournamentDeadlines :
  Z -> Z -> Z -> option cronexpr.Expression -> time.Time -> Z * Z * Z.

Lemma calculateExpiryOverride_run (overrideExpiry : Z) (leaderboard : Leaderboard)
    (w : World RC) :
  exists (expiryTime : Z) (recordsPossible : bool),
    calculateExpiryOverride calculateTournamentDeadlines overrideExpiry leaderboard w
    = (Ok (expiryTime, recordsPossible), w)
    /\ (overrideExpiry <> 0 -> expiryTime = overrideExpiry /\ recordsPossible = true)
    /\ (overrideExpiry = 0 -> IsTournament leaderboard = false ->
        expiryTime = expiryAt leaderboard (now w) /\ recordsPossible = true)
    /\ (recordsPossible = false ->
        overrideExpiry = 0 /\ IsTournament leaderboard = true /\ expiryTime = 0).
Proof.
  unfold calculateExpiryOverride, expiryAt.
  destruct (Z.eqb_spec overrideExpiry 0) as [->|Hne].
  - destruct (IsTournament leaderboard) eqn:Htour.
    + unfold mbind, M_bind, time_Now.
      destruct (calculateTournamentDeadlines _ _ _ _ _) as [[a b] e].
      destruct (negb (e =? 0) && (e <=? time.Time_Unix (now w))).
      * eexists _, _. split; [reflexivity|]. repeat split; congruence.
      * eexists _, _. split; [reflexivity|]. repeat split; congruence.
    + destruct (ResetSchedule leaderboard).
      * eexists _, _. split; [reflexivity|]. repeat split; congruence.
      * eexists _, _. split; [reflexivity|]. repeat split; congruence.
  - eexists _, _. split; [reflexivity|]. repeat split; congruence.
Qed.

Lemma listPage_run (leaderboard : Leaderboard) (leaderboardId : string)
    (expiryTime limitNumber : Z) (cursor : string)
    (incomingCursor : option leaderboardRecordListCursor) (w : World RC) :
  unmarshalLeaderboardRecordsListCursor leaderboardId expiryTime cursor = Ok incomingCursor ->
  0 <= limitNumber -> limitNumber < max_int64 ->
  let rows := fetched_rows (SortOrder leaderboard) leaderboardId expiryTime limitNumber
                incomingCursor (table w) in
  let st := foldl (listRow leaderboardId expiryTime limitNumber incomingCursor)
              (listState_init limitNumber incomingCursor) rows in
  listPage leaderboard leaderboardId expiryTime limitNumber cursor w
  = (Ok (if is_prev incomingCursor then mirror_ranks (ls_records st) else ls_records st,
         cursor_token (if is_prev incomingCursor
                       then fst (swapCursors (ls_nextCursor st) (ls_prevCursor st))
                       else ls_nextCursor st),
         cursor_token (if is_prev incomingCursor
                       then snd (swapCursors (ls_nextCursor st) (ls_prevCursor st))
                       else ls_prevCursor st)),
     record_event db_QueryContext w).
Proof.
  intros Hcur Hlo Hhi rows st. unfold listPage.
  unfold mbind, M_bind, lift. rewrite Hcur.
  subst st rows. unfold fetched_rows.
  destruct (listQuery (SortOrder leaderboard) leaderboardId (time.Unix expiryTime 0)
              incomingCursor) as [cond order].
  unfold db_read, db.select_ordered.
  rewrite wrap64_id by (unfold in_int64, min_int64, max_int64 in *; lia).
  destruct (Z.ltb_spec (limitNumber + 1) 0); [lia|].
  destruct (Z.ltb_spec limitNumber 0); [lia|].
  set (st := foldl _ _ _).
  destruct (is_prev incomingCursor).
  - destruct (swapCursors (ls_nextCursor st) (ls_prevCursor st)) as [n p].
    rewrite reverseRecords_run. unfold mret, M_ret, marshalOpt, lift, cursor_token.
    cbn [fst snd]. destruct n, p; reflexivity.
  - unfold mret, M_ret, marshalOpt, lift, cursor_token.
    destruct (ls_nextCursor st), (ls_prevCursor st); reflexivity.
Qed.

(** The owner batch (lines 281-338) and the fill of its ranks (line 341). *)
Lemma listOwners_run (leaderboardId : string) (expiryTime : Z) (ownerIds : list string)
    (w : World RC) :
  listOwners leaderboardId expiryTime ownerIds w
  = (Ok (map (ownerRow leaderboardId expiryTime)
           (List.filter (fun r => db.in_board leaderboardId (time.Unix expiryTime 0) r
                                  && bool_decide (db.owner_id r ∈ ownerIds)) (table w))),
     match ownerIds with
     | [] => w
     | _ => record_event db_QueryContext w
     end).
Proof.
  unfold listOwners. destruct ownerIds as [|o ids].
  - unfold mret, M_ret. f_equal. f_equal.
    induction (table w) as [|r t IH]; [reflexivity|]. cbn [List.filter].
    rewrite (bool_decide_eq_false_2 (db.owner_id r ∈ [])) by apply not_elem_of_nil.
    rewrite andb_false_r. exact IH.
  - reflexivity.
Qed.

End Lister.

(** ** The paginated listing *)

Lemma in_board_iff (leaderboardId : string) (expiry : time.Time) (r : db.Row) :
  db.in_board leaderboardId expiry r = true
  <-> db.leaderboard_id r = leaderboardId /\ db.expiry_time r = expiry.
Proof.
  unfold db.in_board. rewrite andb_true_iff, bool_decide_eq_true, Z.eqb_eq. reflexivity.
Qed.

Lemma board_key_compare_in_board (leaderboardId : string) (expiry : time.Time)
    (r : db.Row) (k : db.key) :
  db.in_board leaderboardId expiry r = true ->
  board_key_compare (board_key_of r) (leaderboardId, expiry, k)
  = db.key_compare (db.key_of r) k.
Proof.
  intros [Hl He]%in_board_iff. unfold board_key_compare, board_key_of.
  rewrite Hl, He, string_compare_refl, Z.compare_refl. reflexivity.
Qed.

Lemma listQuery_order (sortOrder : LeaderboardSortOrder) (leaderboardId : string)
    (expiry : time.Time) (incomingCursor : option leaderboardRecordListCursor) :
  snd (listQuery sortOrder leaderboardId expiry incomingCursor)
  = fetch_order sortOrder incomingCursor.
Proof.
  unfold listQuery, fetch_order, is_prev.
  destruct incomingCursor as [c|], sortOrder; try reflexivity; destruct (IsNext c); reflexivity.
Qed.

Lemma listQuery_cond (sortOrder : LeaderboardSortOrder) (leaderboardId : string)
    (expiry : time.Time) (incomingCursor : option leaderboardRecordListCursor)
    (r : db.Row) :
  fst (listQuery sortOrder leaderboardId expiry incomingCursor) r = true
  <-> db.in_board leaderboardId expiry r = true
      /\ forall c, incomingCursor = Some c -> beyond_cursor sortOrder c (db.key_of r).
Proof.
  destruct incomingCursor as [c|].
  - assert (Hall : (forall c', Some c = Some c' -> beyond_cursor sortOrder c' (db.key_of r))
                   <-> beyond_cursor sortOrder c (db.key_of r)).
    { split; [intros H; apply H; reflexivity | intros H c' [= <-]; exact H]. }
    rewrite Hall. clear Hall. unfold listQuery, beyond_cursor.
    assert (Hgt : db.in_board leaderboardId expiry r = true ->
                  (match board_key_compare (board_key_of r)
                           (leaderboardId, expiry, cursor_key c) with
                   | Gt => true
                   | _ => false
                   end = true <-> key_lt (cursor_key c) (db.key_of r))).
    { intros Hb. rewrite (board_key_compare_in_board _ _ _ _ Hb), key_lt_iff.
      rewrite (key_compare_antisym (db.key_of r) (cursor_key c)).
      destruct (db.key_compare (db.key_of r) (cursor_key c)); cbn; split; congruence. }
    assert (Hlt : db.in_board leaderboardId expiry r = true ->
                  (match board_key_compare (board_key_of r)
                           (leaderboardId, expiry, cursor_key c) with
                   | Lt => true
                   | _ => false
                   end = true <-> key_lt (db.key_of r) (cursor_key c))).
    { intros Hb. rewrite (board_key_compare_in_board _ _ _ _ Hb), key_lt_iff.
      destruct (db.key_compare (db.key_of r) (cursor_key c)); split; congruence. }
    destruct sortOrder, (IsNext c); cbn [fst]; rewrite andb_true_iff;
      split; intros [Hb Hk]; (split; [exact Hb|]);
      first [apply Hgt; assumption | apply Hlt; assumption].
  - unfold listQuery. destruct sortOrder; cbn [fst]; split;
      first [intros [Hb _]; exact Hb | intros Hb; split; [exact Hb|]; intros c; discriminate].
Qed.

Lemma fetched_rows_eq (sortOrder : LeaderboardSortOrder) (leaderboardId : string)
    (expiryTime limitNumber : Z) (incomingCursor : option leaderboardRecordListCursor)
    (t : db.Table) :
  fetched_rows sortOrder leaderboardId expiryTime limitNumber incomingCursor t
  = take (Z.to_nat (limitNumber + 1))
      (db.order_by (fetch_order sortOrder incomingCursor)
         (eligible_rows sortOrder leaderboardId expiryTime incomingCursor t)).
Proof.
  unfold fetched_rows, eligible_rows.
  rewrite <- (listQuery_order sortOrder leaderboardId (time.Unix expiryTime 0) incomingCursor).
  destruct (listQuery _ _ _ _) as [cond order]. reflexivity.
Qed.

Lemma fetched_rows_sorted (sortOrder : LeaderboardSortOrder) (leaderboardId : string)
    (expiryTime limitNumber : Z) (incomingCursor : option leaderboardRecordListCursor)
    (t : db.Table) :
  StronglySorted (row_le (fetch_order sortOrder incomingCursor))
    (fetched_rows sortOrder leaderboardId expiryTime limitNumber incomingCursor t).
Proof.
  rewrite fetched_rows_eq. apply StronglySorted_take, order_by_sorted.
Qed.

Lemma fetched_rows_eligible (sortOrder : LeaderboardSortOrder) (leaderboardId : string)
    (expiryTime limitNumber : Z) (incomingCursor : option leaderboardRecordListCursor)
    (t : db.Table) (r : db.Row) :
  r ∈ fetched_rows sortOrder leaderboardId expiryTime limitNumber incomingCursor t ->
  r ∈ eligible_rows sortOrder leaderboardId expiryTime incomingCursor t.
Proof.
  rewrite fetched_rows_eq. intros Hr.
  apply (subseteq_take (Z.to_nat (limitNumber + 1))) in Hr.
  rewrite order_by_perm in Hr. exact Hr.
Qed.

Lemma eligible_rows_spec (sortOrder : LeaderboardSortOrder) (leaderboardId : string)
    (expiryTime : Z) (incomingCursor : option leaderboardRecordListCursor)
    (t : db.Table) (r : db.Row) :
  r ∈ eligible_rows sortOrder leaderboardId expiryTime incomingCursor t
  <-> r ∈ t
      /\ db.in_board leaderboardId (time.Unix expiryTime 0) r = true
      /\ forall c, incomingCursor = Some c -> beyond_cursor sortOrder c (db.key_of r).
Proof.
  unfold eligible_rows. rewrite list_elem_of_In, filter_In, <- list_elem_of_In, listQuery_cond.
  reflexivity.
Qed.

Lemma length_fetched_rows (sortOrder : LeaderboardSortOrder) (leaderboardId : string)
    (expiryTime limitNumber : Z) (incomingCursor : option leaderboardRecordListCursor)
    (t : db.Table) :
  length (fetched_rows sortOrder leaderboardId expiryTime limitNumber incomingCursor t)
  = Nat.min (Z.to_nat (limitNumber + 1))
      (length (eligible_rows sortOrder leaderboardId expiryTime incomingCursor t)).
Proof.
  rewrite fetched_rows_eq, length_take. f_equal.
  apply Permutation_length, order_by_perm.
Qed.

Section RowLoopCursors.

Variables (leaderboardId : string) (expiryTime limitNumber : Z).
Variable incomingCursor : option leaderboardRecordListCursor.

Abbreviation row_step := (listRow leaderboardId expiryTime limitNumber incomingCursor).

Lemma fold_scanned_last (rows : list db.Row) (st : listState) :
  let st' := foldl row_step st rows in
  ls_dbOwnerID st' = default (ls_dbOwnerID st) (db.owner_id <$> last rows)
  /\ ls_dbScore st' = default (ls_dbScore st) (db.score <$> last rows)
  /\ ls_dbSubscore st' = default (ls_dbSubscore st) (db.subscore <$> last rows).
Proof.
  cbn zeta. destruct (decide (rows = [])) as [->|Hne]; [repeat split|].
  destruct (exists_last Hne) as (rows' & x & ->).
  rewrite last_snoc. cbn [fmap option_fmap option_map default].
  apply (fold_scanned leaderboardId expiryTime limitNumber incomingCursor rows' st x).
Qed.

Lemma fold_init_nextCursor (rows : list db.Row) :
  0 <= limitNumber ->
  Z.of_nat (length rows) <= limitNumber + 1 ->
  ls_nextCursor (foldl row_step (listState_init limitNumber incomingCursor) rows)
  = loop_nextCursor leaderboardId expiryTime limitNumber incomingCursor rows.
Proof.
  intros Hlo Hlen. unfold loop_nextCursor.
  destruct (Z.ltb_spec limitNumber (Z.of_nat (length rows))) as [Hmore|Hfew].
  - assert (Hn : length rows = S (Z.to_nat limitNumber)) by lia.
    destruct (decide (rows = [])) as [->|Hne]; [discriminate|].
    destruct (exists_last Hne) as (rows' & x & ->).
    rewrite length_app in Hn. cbn [length] in Hn.
    assert (Hn' : length rows' = Z.to_nat limitNumber) by lia.
    rewrite <- Hn', take_app_length.
    rewrite foldl_app. cbn [foldl]. rewrite listRow_nextCursor.
    rewrite fold_records, fold_rank. cbn [listState_init ls_records ls_rank app].
    rewrite length_page_records.
    destruct (Z.leb_spec limitNumber (Z.of_nat (length rows'))); [|lia].
    destruct (fold_scanned_last rows' (listState_init limitNumber incomingCursor))
      as (Ho & Hs & Hss).
    rewrite Ho, Hs, Hss. reflexivity.
  - apply fold_nextCursor_none; [reflexivity|]. cbn [listState_init ls_records length]. lia.
Qed.

Lemma fold_init_prevCursor (rows : list db.Row) :
  ls_prevCursor (foldl row_step (listState_init limitNumber incomingCursor) rows)
  = loop_prevCursor leaderboardId expiryTime incomingCursor rows.
Proof.
  rewrite fold_prevCursor_init by reflexivity. reflexivity.
Qed.

Lemma fold_init_records (rows : list db.Row) :
  ls_records (foldl row_step (listState_init limitNumber incomingCursor) rows)
  = page_records leaderboardId expiryTime incomingCursor (start_rank incomingCursor) rows.
Proof. rewrite fold_records. reflexivity. Qed.

End RowLoopCursors.

Lemma wrap64_eqm (z : Z) : wrap64 z mod 2 ^ 64 = z mod 2 ^ 64.
Proof.
  unfold wrap64. rewrite Zminus_mod, Zmod_mod, <- Zminus_mod.
  f_equal. lia.
Qed.

Lemma wrap64_wrap64_add (a b : Z) : wrap64 (wrap64 a + b) = wrap64 (a + b).
Proof.
  unfold wrap64 at 1 3. f_equal.
  rewrite <- Z.add_assoc, Z.add_mod, wrap64_eqm, <- Z.add_mod by lia.
  f_equal. lia.
Qed.

Lemma rank_after_eq (incomingCursor : option leaderboardRecordListCursor) (rank : Z)
    (n : nat) :
  rank_after incomingCursor rank (S n)
  = wrap64 (if is_prev incomingCursor then rank - Z.of_nat (S n)
            else rank + Z.of_nat (S n)).
Proof.
  unfold rank_after. induction n as [|n IH].
  - cbn [Nat.iter nat_rect]. unfold next_rank. destruct (is_prev incomingCursor); reflexivity.
  - rewrite Nat.iter_succ, IH. unfold next_rank.
    destruct (is_prev incomingCursor).
    + replace (wrap64 (rank - Z.of_nat (S n)) - 1)
        with (wrap64 (rank - Z.of_nat (S n)) + -1) by lia.
      rewrite wrap64_wrap64_add. f_equal. lia.
    + rewrite wrap64_wrap64_add. f_equal. lia.
Qed.

Lemma elem_of_mirror_ranks (l : list api.LeaderboardRecord) (r : api.LeaderboardRecord) :
  r ∈ mirror_ranks l -> exists r', r' ∈ l /\ r = api.set_Rank (api.Rank r) r'.
Proof.
  unfold mirror_ranks. intros (x & y & -> & Hx & Hy)%elem_of_zip_with.
  exists x. split; [rewrite elem_of_reverse in Hx; exact Hx|].
  destruct x; reflexivity.
Qed.

Lemma elem_of_page_records (leaderboardId : string) (expiryTime : Z)
    (incomingCursor : option leaderboardRecordListCursor) (rank : Z)
    (rows : list db.Row) (r : api.LeaderboardRecord) :
  r ∈ page_records leaderboardId expiryTime incomingCursor rank rows ->
  exists row, row ∈ rows /\ r = listed_record leaderboardId expiryTime (api.Rank r) row.
Proof.
  revert rank. induction rows as [|row rows IH]; intros rank; cbn [page_records].
  - intros H. inversion H.
  - intros [->|H]%elem_of_cons.
    + exists row. split; [left|reflexivity].
    + destruct (IH _ H) as (row' & Hin & Hr). exists row'. split; [right; exact Hin|exact Hr].
Qed.

Lemma keys_sorted_of_rows (sortOrder : LeaderboardSortOrder)
    (incomingCursor : option leaderboardRecordListCursor) (rows : list db.Row) :
  StronglySorted (row_le (fetch_order sortOrder incomingCursor)) rows ->
  keys_in_order sortOrder
    (if is_prev incomingCursor then reverse (map db.key_of rows) else map db.key_of rows).
Proof.
  unfold fetch_order, keys_in_order. intros Hs.
  destruct sortOrder, (is_prev incomingCursor).
  - apply (StronglySorted_reverse (flip key_le)).
    eapply StronglySorted_fmap; [|exact Hs]. intros x y H. exact H.
  - eapply StronglySorted_fmap; [|exact Hs]. intros x y H. exact H.
  - apply (StronglySorted_reverse key_le).
    eapply StronglySorted_fmap; [|exact Hs]. intros x y H. exact H.
  - eapply StronglySorted_fmap; [|exact Hs]. intros x y H. exact H.
Qed.

Section Listing.

Context {RC : Type} `{!LeaderboardRankCache RC}.
Variable calculateTournamentDeadlines :
  Z -> Z -> Z -> option cronexpr.Expression -> time.Time -> Z * Z * Z.
Variable leaderboardCache : LeaderboardCache.

Lemma LeaderboardRecordsList_run (leaderboard : Leaderboard) (leaderboardId cursor : string)
    (limit overrideExpiry expiryTime : Z) (ownerIds : list string)
    (incomingCursor : option leaderboardRecordListCursor) (w : World RC) :
  leaderboardCache leaderboardId = Some leaderboard ->
  calculateExpiryOverride calculateTournamentDeadlines overrideExpiry leaderboard w
  = (Ok (expiryTime, true), w) ->
  unmarshalLeaderboardRecordsListCursor leaderboardId expiryTime cursor = Ok incomingCursor ->
  0 <= limit < max_int64 ->
  LeaderboardRecordsList calculateTournamentDeadlines leaderboardCache leaderboardId
    (Some limit) cursor ownerIds overrideExpiry w
  = (Ok (listing_of (rankCache w) leaderboardId expiryTime limit incomingCursor
           (fetched_rows (SortOrder leaderboard) leaderboardId expiryTime limit
              incomingCursor (table w))
           (owner_rows leaderboardId expiryTime ownerIds (table w))),
     record_event rankCache_Fill
       (match ownerIds with
        | [] => record_event db_QueryContext w
        | _ => record_event db_QueryContext (record_event db_QueryContext w)
        end)).
Proof.
  intros Hboard Hexpiry Hcursor [Hlo Hhi].
  unfold LeaderboardRecordsList. rewrite Hboard.
  unfold mbind at 1. unfold M_bind at 1. rewrite Hexpiry. cbn [negb].
  unfold mbind at 1. unfold M_bind at 1.
  rewrite (listPage_run leaderboard leaderboardId expiryTime limit cursor incomingCursor w
             Hcursor Hlo Hhi).
  cbn zeta. unfold mbind at 1. unfold M_bind at 1. rewrite listOwners_run.
  unfold mbind, M_bind, do_rank_Fill, mret, M_ret, listing_of, owner_rows.
  assert (Hlen : Z.of_nat (length (fetched_rows (SortOrder leaderboard) leaderboardId
                                     expiryTime limit incomingCursor (table w)))
                 <= limit + 1).
  { rewrite length_fetched_rows. lia. }
  rewrite fold_init_records, fold_init_prevCursor, (fold_init_nextCursor _ _ _ _ _ Hlo Hlen).
  destruct ownerIds; reflexivity.
Qed.

(** X13. A paginated listing of a board that can hold records, with a
    cursor that decodes and a limit from 0 up, succeeds and only reads: the
    table is as before.  Whatever the direction of the cursor, the page
    comes in the order of the board (ascending keys on an ascending board,
    descending keys on a descending one), every record on it is made of a
    row of the table that belongs to the board at the listed expiry, and
    with a cursor every key on the page lies strictly beyond the cursor's
    key on the side the cursor points to. *)
Theorem list_page_in_board_order (leaderboard : Leaderboard) (leaderboardId cursor : string)
    (limit overrideExpiry expiryTime : Z) (ownerIds : list string)
    (incomingCursor : option leaderboardRecordListCursor) (w : World RC) :
  leaderboardCache leaderboardId = Some leaderboard ->
  calculateExpiryOverride calculateTournamentDeadlines overrideExpiry leaderboard w
  = (Ok (expiryTime, true), w) ->
  unmarshalLeaderboardRecordsListCursor leaderboardId expiryTime cursor = Ok incomingCursor ->
  0 <= limit < max_int64 ->
  exists (l : api.LeaderboardRecordList) (w' : World RC),
    LeaderboardRecordsList calculateTournamentDeadlines leaderboardCache leaderboardId
      (Some limit) cursor ownerIds overrideExpiry w = (Ok l, w')
    /\ table w' = table w
    /\ keys_in_order (SortOrder leaderboard) (map record_key (api.Records l))
    /\ forall r, r ∈ api.Records l ->
         exists row,
           row ∈ table w
           /\ db.in_board leaderboardId (time.Unix expiryTime 0) row = true
           /\ r = listed_record leaderboardId expiryTime (api.Rank r) row
           /\ forall c, incomingCursor = Some c ->
                beyond_cursor (SortOrder leaderboard) c (record_key r).
Proof.
  intros Hboard Hexpiry Hcursor Hlimit.
  eexists _, _. split; [apply LeaderboardRecordsList_run; eassumption|].
  split; [destruct ownerIds; reflexivity|].
  cbn [listing_of api.Records].
  set (rows := fetched_rows _ _ _ _ _ _).
  set (records := page_records _ _ _ _ rows).
  assert (Hkeys : map record_key (if is_prev incomingCursor then mirror_ranks records
                                  else records)
                  = if is_prev incomingCursor then reverse (map db.key_of rows)
                    else map db.key_of rows).
  { destruct (is_prev incomingCursor).
    - rewrite keys_mirror_ranks. subst records. rewrite keys_page_records. reflexivity.
    - subst records. apply keys_page_records. }
  split.
  - rewrite Hkeys. apply keys_sorted_of_rows. apply fetched_rows_sorted.
  - intros r Hr.
    assert (Hrow : exists row, row ∈ rows
                     /\ r = listed_record leaderboardId expiryTime (api.Rank r) row).
    { destruct (is_prev incomingCursor).
      - apply elem_of_mirror_ranks in Hr. destruct Hr as (r' & Hr' & Heq).
        apply elem_of_page_records in Hr'. destruct Hr' as (row & Hrow & Hr').
        exists row. split; [exact Hrow|]. rewrite Heq at 1. rewrite Hr'. reflexivity.
      - apply elem_of_page_records in Hr. exact Hr. }
    destruct Hrow as (row & Hrow & Heq). exists row.
    apply fetched_rows_eligible, eligible_rows_spec in Hrow.
    destruct Hrow as (Hin & Hb & Hbeyond).
    repeat split; try assumption.
    intros c Hc. rewrite Heq. apply (Hbeyond c Hc).
Qed.

(** X14. The size of the page.  Of the rows the query selects (the rows of
    the board at the listed expiry, beyond the cursor if there is one) the
    page holds [limit + 1] when more than [limit] are selected, and all of
    them otherwise.  The cursor string that points onward in the direction
    of travel ([NextCursor], or [PrevCursor] after a previous-page cursor)
    is non-empty exactly when more than [limit] rows are selected, which is
    when the page holds [limit + 1] records; the cursor that points back is
    non-empty exactly when the listing had a cursor and selected a row. *)
Theorem list_page_size (leaderboard : Leaderboard) (leaderboardId cursor : string)
    (limit overrideExpiry expiryTime : Z) (ownerIds : list string)
    (incomingCursor : option leaderboardRecordListCursor) (w : World RC) :
  leaderboardCache leaderboardId = Some leaderboard ->
  calculateExpiryOverride calculateTournamentDeadlines overrideExpiry leaderboard w
  = (Ok (expiryTime, true), w) ->
  unmarshalLeaderboardRecordsListCursor leaderboardId expiryTime cursor = Ok incomingCursor ->
  0 <= limit < max_int64 ->
  let selected :=
    eligible_rows (SortOrder leaderboard) leaderboardId expiryTime incomingCursor (table w) in
  exists (l : api.LeaderboardRecordList) (w' : World RC),
    LeaderboardRecordsList calculateTournamentDeadlines leaderboardCache leaderboardId
      (Some limit) cursor ownerIds overrideExpiry w = (Ok l, w')
    /\ (forall row, row ∈ selected
          <-> row ∈ table w
              /\ db.in_board leaderboardId (time.Unix expiryTime 0) row = true
              /\ forall c, incomingCursor = Some c ->
                   beyond_cursor (SortOrder leaderboard) c (db.key_of row))
    /\ Z.of_nat (length (api.Records l)) = Z.min (limit + 1) (Z.of_nat (length selected))
    /\ (onward_cursor incomingCursor l <> "" <-> limit < Z.of_nat (length selected))
    /\ (backward_cursor incomingCursor l <> ""
        <-> incomingCursor <> None /\ selected <> []).
Proof.
  intros Hboard Hexpiry Hcursor Hlimit selected.
  eexists _, _. split; [apply LeaderboardRecordsList_run; eassumption|].
  split; [intros row; apply eligible_rows_spec|].
  set (rows := fetched_rows _ _ _ _ _ _).
  assert (Hlen : length rows = Nat.min (Z.to_nat (limit + 1)) (length selected))
    by apply length_fetched_rows.
  assert (Htoken : forall c : option leaderboardRecordListCursor,
             cursor_token c <> "" <-> c <> None).
  { intros [c|]; cbn [cursor_token]; split; try congruence.
    intros _. apply Base64URLFacts.EncodeToString_nonempty, gobEncodeCursor_nonempty. }
  assert (Hnext : loop_nextCursor leaderboardId expiryTime limit incomingCursor rows <> None
                  <-> limit < Z.of_nat (length selected)).
  { unfold loop_nextCursor. destruct (Z.ltb_spec limit (Z.of_nat (length rows))).
    - split; [lia|congruence].
    - split; [congruence|lia]. }
  assert (Hprev : loop_prevCursor leaderboardId expiryTime incomingCursor rows <> None
                  <-> incomingCursor <> None /\ selected <> []).
  { unfold loop_prevCursor. destruct incomingCursor as [c|].
    - destruct rows as [|row rows'] eqn:Hrows.
      + split; [congruence|]. intros [_ Hne]. exfalso. apply Hne.
        apply length_zero_iff_nil. cbn [length] in Hlen. lia.
      + split; [|congruence]. intros _. split; [congruence|].
        intros Hnil. rewrite Hnil in Hlen. cbn [length] in Hlen. lia.
    - split; [congruence|]. intros [Hne _]. congruence. }
  split.
  - cbn [listing_of api.Records].
    destruct (is_prev incomingCursor);
      rewrite ?length_mirror_ranks, length_page_records; lia.
  - unfold onward_cursor, backward_cursor. cbn [listing_of api.NextCursor api.PrevCursor].
    rewrite <- Hnext, <- Hprev.
    destruct (is_prev incomingCursor); [|rewrite !Htoken; tauto].
    rewrite !Htoken.
    destruct (loop_nextCursor leaderboardId expiryTime limit incomingCursor rows) as [n|] eqn:Hn;
      destruct (loop_prevCursor leaderboardId expiryTime incomingCursor rows) as [p|] eqn:Hp;
      cbn [swapCursors fst snd]; split; split; congruence.
Qed.

(** X15. The ranks on the page.  A listing counts from the rank [R] of its
    cursor, or from 0 without one, in 64-bit arithmetic.  Going forward the
    record at position [i] of the page (from 1) has rank [R + i].  After a
    previous-page cursor the record at position [i] of the returned page has
    rank [R - i]: the page is in the order of the board, and the rank
    numbers fall from its first record to its last. *)
Theorem list_page_ranks (leaderboard : Leaderboard) (leaderboardId cursor : string)
    (limit overrideExpiry expiryTime : Z) (ownerIds : list string)
    (incomingCursor : option leaderboardRecordListCursor) (w : World RC) :
  leaderboardCache leaderboardId = Some leaderboard ->
  calculateExpiryOverride calculateTournamentDeadlines overrideExpiry leaderboard w
  = (Ok (expiryTime, true), w) ->
  unmarshalLeaderboardRecordsListCursor leaderboardId expiryTime cursor = Ok incomingCursor ->
  0 <= limit < max_int64 ->
  exists (l : api.LeaderboardRecordList) (w' : World RC),
    LeaderboardRecordsList calculateTournamentDeadlines leaderboardCache leaderboardId
      (Some limit) cursor ownerIds overrideExpiry w = (Ok l, w')
    /\ map api.Rank (api.Records l)
       = map (fun i : nat =>
                wrap64 (if is_prev incomingCursor
                        then start_rank incomingCursor - Z.of_nat (S i)
                        else start_rank incomingCursor + Z.of_nat (S i)))
           (seq 0 (length (api.Records l))).
Proof.
  intros Hboard Hexpiry Hcursor Hlimit.
  eexists _, _. split; [apply LeaderboardRecordsList_run; eassumption|].
  cbn [listing_of api.Records].
  set (rows := fetched_rows _ _ _ _ _ _).
  assert (Hranks : forall records,
             records = page_records leaderboardId expiryTime incomingCursor
                         (start_rank incomingCursor) rows ->
             map api.Rank records
             = map (fun i : nat =>
                      wrap64 (if is_prev incomingCursor
                              then start_rank incomingCursor - Z.of_nat (S i)
                              else start_rank incomingCursor + Z.of_nat (S i)))
                 (seq 0 (length records))).
  { intros records ->. rewrite ranks_page_records, length_page_records.
    apply map_ext. intros i. apply rank_after_eq. }
  destruct (is_prev incomingCursor) eqn:Hprev.
  - rewrite ranks_mirror_ranks, length_mirror_ranks. apply Hranks. reflexivity.
  - apply Hranks. reflexivity.
Qed.

End Listing.

(** The previous page before owner [o3] (rank 3) of the descending board of
    five, two to the page: [o1] and [o2] are selected, and come back in the
    order of the board. *)
Lemma list_page_in_board_order_witness :
  exists (l : api.LeaderboardRecordList) (w' : World unit),
    LeaderboardRecordsList Example.noTournament (Example.cache Example.descending) "lb"
      (Some 2) (Example.token (Example.cursor false 30 "o3" 3)) [] 0
      (Example.world Example.five) = (Ok l, w')
    /\ table w' = Example.five
    /\ keys_in_order LeaderboardSortOrderDescending (map record_key (api.Records l)).
Proof.
  destruct (list_page_in_board_order (RC:=unit) Example.noTournament
              (Example.cache Example.descending) Example.descending "lb"
              (Example.token (Example.cursor false 30 "o3" 3)) 2 0 0 []
              (Some (Example.cursor false 30 "o3" 3)) (Example.world Example.five))
    as (l & w' & Hrun & Htable & Horder & _).
  - reflexivity.
  - reflexivity.
  - vm_compute. reflexivity.
  - vm_compute. split; [discriminate|reflexivity].
  - exists l, w'. repeat split; assumption.
Defined.

(** The first page of the same board, two to the page: five rows are
    selected, three records come back, and there is a next cursor. *)
Lemma list_page_size_witness :
  exists (l : api.LeaderboardRecordList) (w' : World unit),
    LeaderboardRecordsList Example.noTournament (Example.cache Example.descending) "lb"
      (Some 2) "" [] 0 (Example.world Example.five) = (Ok l, w')
    /\ Z.of_nat (length (api.Records l)) = 3
    /\ api.NextCursor l <> "".
Proof.
  destruct (list_page_size (RC:=unit) Example.noTournament
              (Example.cache Example.descending) Example.descending "lb" "" 2 0 0 []
              None (Example.world Example.five))
    as (l & w' & Hrun & _ & Hlen & Honward & _).
  - reflexivity.
  - reflexivity.
  - reflexivity.
  - vm_compute. split; [discriminate|reflexivity].
  - exists l, w'. split; [exact Hrun|]. split.
    + rewrite Hlen. vm_compute. reflexivity.
    + apply Honward. vm_compute. reflexivity.
Defined.

(** The previous page before [o3] again: the two records carry the ranks 2
    and 1, in this order. *)
Lemma list_page_ranks_witness :
  exists (l : api.LeaderboardRecordList) (w' : World unit),
    LeaderboardRecordsList Example.noTournament (Example.cache Example.descending) "lb"
      (Some 2) (Example.token (Example.cursor false 30 "o3" 3)) [] 0
      (Example.world Example.five) = (Ok l, w')
    /\ map api.Rank (api.Records l)
       = map (fun i : nat => wrap64 (3 - Z.of_nat (S i))) (seq 0 (length (api.Records l))).
Proof.
  apply (list_page_ranks (RC:=unit) Example.noTournament
           (Example.cache Example.descending) Example.descending "lb"
           (Example.token (Example.cursor false 30 "o3" 3)) 2 0 0 []
           (Some (Example.cursor false 30 "o3" 3)) (Example.world Example.five)).
  - reflexivity.
  - reflexivity.
  - vm_compute. reflexivity.
  - vm_compute. split; [discriminate|reflexivity].
Defined.

(** ** Following the next cursor *)



Lemma filter_none {A : Type} (f : A -> bool) (l : list A) :
  Forall (fun x => f x = false) l -> List.filter f l = [].
Proof.
  induction 1 as [|x l Hx _ IH]; [reflexivity|]. cbn. rewrite Hx. exact IH.
Qed.



Lemma NoDup_fmap_eq {A B : Type} (f : A -> B) (l : list A) (x y : A) :
  NoDup (f <$> l) -> x ∈ l -> y ∈ l -> f x = f y -> x = y.
Proof.
  intros Hnd [i Hi]%list_elem_of_lookup [j Hj]%list_elem_of_lookup Heq.
  assert (i = j).
  { eapply NoDup_lookup; [exact Hnd| |].
    - rewrite list_lookup_fmap, Hi. reflexivity.
    - rewrite list_lookup_fmap, Hj, Heq. reflexivity. }
  subst j. congruence.
Qed.









Lemma filter_sublist {A : Type} (f : A -> bool) (l : list A) : List.filter f l `sublist_of` l.
Proof.
  induction l as [|x l IH]; cbn; [constructor|].
  destruct (f x); [apply sublist_skip|apply sublist_cons]; exact IH.
Qed.



Section FollowingCursor.

Context {RC : Type} `{!LeaderboardRankCache RC}.
Variable calculateTournamentDeadlines :
  Z -> Z -> Z -> option cronexpr.Expression -> time.Time -> Z * Z * Z.
Variable leaderboardCache : LeaderboardCache.



End FollowingCursor.



(** ** The listing at its edges *)

Lemma unmarshal_cursor_token_other (c : leaderboardRecordListCursor)
    (leaderboardId : string) (expiryTime : Z) :
  cursor_wf c ->
  (LeaderboardId c, ExpiryTime c) <> (leaderboardId, expiryTime) ->
  unmarshalLeaderboardRecordsListCursor leaderboardId expiryTime (cursor_token (Some c))
  = Err ErrLeaderboardInvalidCursor.
Proof.
  intros Hwf Hother. cbn [cursor_token].
  assert (Hne : Base64URL.EncodeToString (gobEncodeCursor c) <> "")
    by (apply Base64URLFacts.EncodeToString_nonempty, gobEncodeCursor_nonempty).
  unfold unmarshalLeaderboardRecordsListCursor.
  rewrite bool_decide_eq_true_2 by exact Hne.
  rewrite Base64URLFacts.DecodeString_EncodeToString.
  rewrite gobDecodeCursor_gobEncodeCursor by exact Hwf.
  destruct (decide (leaderboardId = LeaderboardId c)) as [Hl|Hl].
  - rewrite (bool_decide_eq_false_2 (leaderboardId <> LeaderboardId c)) by tauto.
    rewrite (bool_decide_eq_true_2 (expiryTime <> ExpiryTime c)); [reflexivity|].
    intros He. apply Hother. congruence.
  - rewrite (bool_decide_eq_true_2 (leaderboardId <> LeaderboardId c)) by assumption.
    reflexivity.
Qed.

Lemma owner_rows_unique (t : db.Table) (leaderboardId : string) (expiryTime : Z)
    (ownerIds : list string) :
  keys_unique t ->
  NoDup (map db.owner_id (owner_rows leaderboardId expiryTime ownerIds t)).
Proof.
  intros Hu. unfold owner_rows.
  apply (NoDup_fmap_2_strong db.owner_id).
  - intros x y Hx Hy Ho.
    rewrite list_elem_of_In in Hx, Hy. apply filter_In in Hx, Hy.
    destruct Hx as [Hx [Hbx _]%andb_true_iff], Hy as [Hy [Hby _]%andb_true_iff].
    apply in_board_iff in Hbx, Hby.
    apply (NoDup_fmap_eq primary_key t x y Hu); [apply list_elem_of_In, Hx
                                                 |apply list_elem_of_In, Hy|].
    unfold primary_key. destruct Hbx as [-> ->], Hby as [-> ->]. rewrite Ho. reflexivity.
  - eapply sublist_NoDup; [eapply NoDup_fmap_1; exact Hu|]. apply filter_sublist.
Qed.

Section ListingEdges.

Context {RC : Type} `{!LeaderboardRankCache RC}.
Variable uuid_FromString : string -> option uuid.UUID.
Variable calculateTournamentDeadlines :
  Z -> Z -> Z -> option cronexpr.Expression -> time.Time -> Z * Z * Z.
Variable default_max_num_score : Z.
Variable leaderboardCache : LeaderboardCache.

Lemma LeaderboardRecordsList_run_no_limit (leaderboard : Leaderboard)
    (leaderboardId cursor : string) (overrideExpiry expiryTime : Z)
    (ownerIds : list string) (w : World RC) :
  leaderboardCache leaderboardId = Some leaderboard ->
  calculateExpiryOverride calculateTournamentDeadlines overrideExpiry leaderboard w
  = (Ok (expiryTime, true), w) ->
  LeaderboardRecordsList calculateTournamentDeadlines leaderboardCache leaderboardId
    None cursor ownerIds overrideExpiry w
  = (Ok {| api.Records := [];
           api.OwnerRecords :=
             map (owner_record (rankCache w) leaderboardId expiryTime)
               (owner_rows leaderboardId expiryTime ownerIds (table w));
           api.NextCursor := "";
           api.PrevCursor := "" |},
     record_event rankCache_Fill
       (match ownerIds with
        | [] => w
        | _ => record_event db_QueryContext w
        end)).
Proof.
  intros Hboard Hexpiry.
  unfold LeaderboardRecordsList. rewrite Hboard.
  unfold mbind at 1. unfold M_bind at 1. rewrite Hexpiry. cbn [negb].
  unfold mbind at 1. unfold M_bind at 1. unfold mret at 1. unfold M_ret at 1.
  unfold mbind at 1. unfold M_bind at 1. rewrite listOwners_run.
  unfold mbind, M_bind, do_rank_Fill, mret, M_ret, owner_rows, owner_record.
  rewrite map_map. destruct ownerIds; reflexivity.
Qed.

(** X17. A page skips no row.  Of the rows the query selects, each one
    either is on the page, or lies at or beyond every record of the page in
    the order of the fetch; so the page holds the selected rows nearest to
    where the listing starts (the top of the board, or the cursor). *)
Theorem list_page_skips_no_row (leaderboard : Leaderboard) (leaderboardId cursor : string)
    (limit overrideExpiry expiryTime : Z) (ownerIds : list string)
    (incomingCursor : option leaderboardRecordListCursor) (w : World RC) :
  leaderboardCache leaderboardId = Some leaderboard ->
  calculateExpiryOverride calculateTournamentDeadlines overrideExpiry leaderboard w
  = (Ok (expiryTime, true), w) ->
  unmarshalLeaderboardRecordsListCursor leaderboardId expiryTime cursor = Ok incomingCursor ->
  0 <= limit < max_int64 ->
  exists (l : api.LeaderboardRecordList) (w' : World RC),
    LeaderboardRecordsList calculateTournamentDeadlines leaderboardCache leaderboardId
      (Some limit) cursor ownerIds overrideExpiry w = (Ok l, w')
    /\ forall row,
         row ∈ eligible_rows (SortOrder leaderboard) leaderboardId expiryTime
                 incomingCursor (table w) ->
         (exists r, r ∈ api.Records l /\ record_key r = db.key_of row)
         \/ (forall r, r ∈ api.Records l ->
               fetched_le (fetch_order (SortOrder leaderboard) incomingCursor)
                 (record_key r) (db.key_of row)).
Proof.
  intros Hboard Hexpiry Hcursor Hlimit.
  eexists _, _. split; [eapply LeaderboardRecordsList_run; eassumption|].
  intros row Hrow. cbn [listing_of api.Records].
  set (o := fetch_order (SortOrder leaderboard) incomingCursor).
  set (selected := eligible_rows _ _ _ _ _) in *.
  assert (Hkeys : forall k,
             k ∈ map record_key
                   (if is_prev incomingCursor
                    then mirror_ranks (page_records leaderboardId expiryTime incomingCursor
                                         (start_rank incomingCursor)
                                         (take (Z.to_nat (limit + 1)) (db.order_by o selected)))
                    else page_records leaderboardId expiryTime incomingCursor
                           (start_rank incomingCursor)
                           (take (Z.to_nat (limit + 1)) (db.order_by o selected)))
             <-> k ∈ map db.key_of (take (Z.to_nat (limit + 1)) (db.order_by o selected))).
  { intros k. destruct (is_prev incomingCursor).
    - rewrite keys_mirror_ranks, keys_page_records, elem_of_reverse. reflexivity.
    - rewrite keys_page_records. reflexivity. }
  rewrite fetched_rows_eq. fold o selected.
  assert (Hin : row ∈ db.order_by o selected) by (rewrite order_by_perm; exact Hrow).
  rewrite <- (take_drop (Z.to_nat (limit + 1)) (db.order_by o selected)) in Hin.
  apply elem_of_app in Hin. destruct Hin as [Hin|Hin].
  - left.
    assert (Hk : db.key_of row
                 ∈ map db.key_of (take (Z.to_nat (limit + 1)) (db.order_by o selected))).
    { apply list_elem_of_fmap. exists row. split; [reflexivity|exact Hin]. }
    apply Hkeys in Hk. apply list_elem_of_fmap in Hk. destruct Hk as (r & Hr & Hin').
    exists r. split; [exact Hin'|symmetry; exact Hr].
  - right. intros r Hr.
    assert (Hk : record_key r
                 ∈ map db.key_of (take (Z.to_nat (limit + 1)) (db.order_by o selected))).
    { apply Hkeys. apply list_elem_of_fmap. exists r. split; [reflexivity|exact Hr]. }
    apply list_elem_of_fmap in Hk. destruct Hk as (row' & -> & Hrow').
    pose proof (order_by_sorted o selected) as Hs.
    rewrite <- (take_drop (Z.to_nat (limit + 1)) (db.order_by o selected)) in Hs.
    apply StronglySorted_app in Hs. destruct Hs as (Hcross & _ & _).
    specialize (Hcross row' row Hrow' Hin). apply row_le_key in Hcross.
    unfold fetched_le. destruct o; exact Hcross.
Qed.

(** X18. The owner batch.  Whether or not a page is asked for, a listing
    that succeeds answers in [OwnerRecords] with exactly one record for
    each row of the board, at the listed expiry, whose owner is among the
    requested owner ids; its rank is the one the rank cache fills in.
    Requested owners without a record are left out; on a table with unique
    primary keys no owner appears twice, even if requested twice.  Without
    a limit there is no page: [Records] is empty and both cursors are the
    empty string, whatever the cursor string was. *)
Theorem list_owner_records (leaderboard : Leaderboard) (leaderboardId cursor : string)
    (limit : option Z) (overrideExpiry expiryTime : Z) (ownerIds : list string)
    (w : World RC) :
  leaderboardCache leaderboardId = Some leaderboard ->
  calculateExpiryOverride calculateTournamentDeadlines overrideExpiry leaderboard w
  = (Ok (expiryTime, true), w) ->
  match limit with
  | Some limitNumber =>
      0 <= limitNumber < max_int64
      /\ exists incomingCursor,
           unmarshalLeaderboardRecordsListCursor leaderboardId expiryTime cursor
           = Ok incomingCursor
  | None => True
  end ->
  keys_unique (table w) ->
  exists (l : api.LeaderboardRecordList) (w' : World RC),
    LeaderboardRecordsList calculateTournamentDeadlines leaderboardCache leaderboardId
      limit cursor ownerIds overrideExpiry w = (Ok l, w')
    /\ table w' = table w
    /\ (forall r, r ∈ api.OwnerRecords l
          <-> exists row,
                row ∈ table w
                /\ db.in_board leaderboardId (time.Unix expiryTime 0) row = true
                /\ db.owner_id row ∈ ownerIds
                /\ r = owner_record (rankCache w) leaderboardId expiryTime row)
    /\ NoDup (map api.OwnerId (api.OwnerRecords l))
    /\ (limit = None ->
        api.Records l = [] /\ api.NextCursor l = "" /\ api.PrevCursor l = "").
Proof.
  intros Hboard Hexpiry Hlimit Hu.
  assert (Howners : forall r,
             r ∈ map (owner_record (rankCache w) leaderboardId expiryTime)
                   (owner_rows leaderboardId expiryTime ownerIds (table w))
             <-> exists row,
                   row ∈ table w
                   /\ db.in_board leaderboardId (time.Unix expiryTime 0) row = true
                   /\ db.owner_id row ∈ ownerIds
                   /\ r = owner_record (rankCache w) leaderboardId expiryTime row).
  { intros r. rewrite list_elem_of_fmap. unfold owner_rows. split.
    - intros (row & -> & Hrow). exists row.
      rewrite list_elem_of_In in Hrow. apply filter_In in Hrow.
      destruct Hrow as [Hrow [Hb Ho]%andb_true_iff]. apply bool_decide_eq_true in Ho.
      repeat split; try assumption. apply list_elem_of_In, Hrow.
    - intros (row & Hrow & Hb & Ho & ->). exists row. split; [reflexivity|].
      apply list_elem_of_In, filter_In. split; [apply list_elem_of_In, Hrow|].
      rewrite Hb. rewrite (bool_decide_eq_true_2 _ Ho). reflexivity. }
  assert (Hnd : NoDup (map api.OwnerId
                         (map (owner_record (rankCache w) leaderboardId expiryTime)
                            (owner_rows leaderboardId expiryTime ownerIds (table w))))).
  { rewrite map_map. cbn [owner_record ownerRow api.set_Rank api.OwnerId].
    apply owner_rows_unique, Hu. }
  destruct limit as [limitNumber|].
  - destruct Hlimit as [Hrange [incomingCursor Hcursor]].
    eexists _, _. split; [eapply LeaderboardRecordsList_run; eassumption|].
    split; [destruct ownerIds; reflexivity|].
    cbn [listing_of api.OwnerRecords]. rewrite map_map.
    split; [exact Howners|]. split; [exact Hnd|]. discriminate.
  - eexists _, _. split; [eapply LeaderboardRecordsList_run_no_limit; eassumption|].
    split; [destruct ownerIds; reflexivity|].
    cbn [api.OwnerRecords api.Records api.NextCursor api.PrevCursor].
    split; [exact Howners|]. split; [exact Hnd|]. intros _. repeat split.
Qed.

(** X19. An unknown leaderboard.  When the cache does not hold the
    leaderboard, the lister, the haystack, the writer and the deleter each
    fail with [ErrLeaderboardNotFound] and touch neither the store nor the
    rank cache. *)
Theorem unknown_leaderboard_refused (leaderboardId cursor ownerID username metadata : string)
    (caller : uuid.UUID) (limit : option Z) (haystackLimit overrideExpiry score subscore : Z)
    (ownerIds : list string) (overrideOperator : api.Operator) (w : World RC) :
  leaderboardCache leaderboardId = None ->
  LeaderboardRecordsList calculateTournamentDeadlines leaderboardCache leaderboardId
    limit cursor ownerIds overrideExpiry w = (Err ErrLeaderboardNotFound, w)
  /\ LeaderboardRecordsHaystack calculateTournamentDeadlines leaderboardCache leaderboardId
       cursor ownerID haystackLimit overrideExpiry w = (Err ErrLeaderboardNotFound, w)
  /\ LeaderboardRecordWrite uuid_FromString default_max_num_score leaderboardCache caller
       leaderboardId ownerID username score subscore metadata overrideOperator w
     = (Err ErrLeaderboardNotFound, w)
  /\ LeaderboardRecordDelete uuid_FromString leaderboardCache caller leaderboardId ownerID w
     = (Err ErrLeaderboardNotFound, w).
Proof.
  intros Hnone.
  unfold LeaderboardRecordsList, LeaderboardRecordsHaystack, LeaderboardRecordWrite,
    LeaderboardRecordDelete.
  rewrite Hnone. repeat split.
Qed.

(** X20. A cursor of another board.  A well-formed cursor that was made for
    another leaderboard or another expiry is refused by the lister with
    [ErrLeaderboardInvalidCursor] before any query: the store and the rank
    cache are not touched. *)
Theorem list_rejects_foreign_cursor (leaderboard : Leaderboard) (leaderboardId : string)
    (limit overrideExpiry expiryTime : Z) (ownerIds : list string)
    (c : leaderboardRecordListCursor) (w : World RC) :
  leaderboardCache leaderboardId = Some leaderboard ->
  calculateExpiryOverride calculateTournamentDeadlines overrideExpiry leaderboard w
  = (Ok (expiryTime, true), w) ->
  cursor_wf c ->
  (LeaderboardId c, ExpiryTime c) <> (leaderboardId, expiryTime) ->
  LeaderboardRecordsList calculateTournamentDeadlines leaderboardCache leaderboardId
    (Some limit) (cursor_token (Some c)) ownerIds overrideExpiry w
  = (Err ErrLeaderboardInvalidCursor, w).
Proof.
  intros Hboard Hexpiry Hwf Hother.
  unfold LeaderboardRecordsList. rewrite Hboard.
  unfold mbind at 1. unfold M_bind at 1. rewrite Hexpiry. cbn [negb].
  unfold mbind at 1. unfold M_bind at 1. unfold listPage.
  unfold mbind at 1. unfold M_bind at 1. unfold lift.
  rewrite (unmarshal_cursor_token_other c leaderboardId expiryTime Hwf Hother).
  reflexivity.
Qed.

(** X21. A tournament that is over.  For a tournament whose deadlines give
    an expiry that is not 0 and not after the clock, with no expiry
    override, the lister and the haystack answer with no records, no owner
    records and no cursors, and run no query. *)
Theorem ended_tournament_lists_nothing (leaderboard : Leaderboard)
    (leaderboardId cursor ownerID : string) (limit : option Z) (haystackLimit : Z)
    (ownerIds : list string) (startActive endActive expiryTime : Z) (w : World RC) :
  leaderboardCache leaderboardId = Some leaderboard ->
  IsTournament leaderboard = true ->
  calculateTournamentDeadlines (StartTime leaderboard) (EndTime leaderboard)
    (Duration leaderboard) (ResetSchedule leaderboard) (now w)
  = (startActive, endActive, expiryTime) ->
  expiryTime <> 0 ->
  expiryTime <= time.Time_Unix (now w) ->
  LeaderboardRecordsList calculateTournamentDeadlines leaderboardCache leaderboardId
    limit cursor ownerIds 0 w = (Ok no_records, w)
  /\ LeaderboardRecordsHaystack calculateTournamentDeadlines leaderboardCache leaderboardId
       cursor ownerID haystackLimit 0 w = (Ok no_records, w).
Proof.
  intros Hboard Htour Hdeadlines Hne Hpast.
  assert (Hexpiry : calculateExpiryOverride calculateTournamentDeadlines 0 leaderboard w
                    = (Ok (0, false), w)).
  { unfold calculateExpiryOverride. cbn [Z.eqb]. rewrite Htour.
    unfold mbind, M_bind, time_Now. rewrite Hdeadlines.
    destruct (Z.eqb_spec expiryTime 0); [contradiction|].
    destruct (Z.leb_spec expiryTime (time.Time_Unix (now w))); [|lia].
    reflexivity. }
  unfold LeaderboardRecordsList, LeaderboardRecordsHaystack. rewrite Hboard.
  unfold mbind, M_bind. rewrite Hexpiry. split; reflexivity.
Qed.

(** X22. A negative limit.  The lister does not check the sign of the
    limit.  With limit -1 the query runs with [LIMIT 0] and the allocation
    of the page with capacity -1 panics; with a smaller limit the store
    refuses the negative [LIMIT] and its error is returned.  Either way one
    query has been sent. *)
Theorem list_negative_limit (leaderboard : Leaderboard) (leaderboardId cursor : string)
    (limit overrideExpiry expiryTime : Z) (ownerIds : list string)
    (incomingCursor : option leaderboardRecordListCursor) (w : World RC) :
  leaderboardCache leaderboardId = Some leaderboard ->
  calculateExpiryOverride calculateTournamentDeadlines overrideExpiry leaderboard w
  = (Ok (expiryTime, true), w) ->
  unmarshalLeaderboardRecordsListCursor leaderboardId expiryTime cursor = Ok incomingCursor ->
  - 2 ^ 31 <= limit < 0 ->
  LeaderboardRecordsList calculateTournamentDeadlines leaderboardCache leaderboardId
    (Some limit) cursor ownerIds overrideExpiry w
  = (if limit =? -1 then Panic else Err (ErrStore db.invalid_row_count),
     record_event db_QueryContext w).
Proof.
  intros Hboard Hexpiry Hcursor Hlimit.
  unfold LeaderboardRecordsList. rewrite Hboard.
  unfold mbind at 1. unfold M_bind at 1. rewrite Hexpiry. cbn [negb].
  unfold mbind at 1. unfold M_bind at 1. unfold listPage.
  unfold mbind at 1. unfold M_bind at 1. unfold lift. rewrite Hcursor.
  destruct (listQuery _ _ _ _) as [cond order].
  unfold mbind at 1. unfold M_bind at 1. unfold db_read, db.select_ordered.
  rewrite wrap64_id by (unfold in_int64, min_int64, max_int64; lia).
  destruct (Z.eqb_spec limit (-1)) as [->|Hne].
  - reflexivity.
  - destruct (Z.ltb_spec (limit + 1) 0); [|lia]. reflexivity.
Qed.

End ListingEdges.

(** The top two of the descending board of five: owner [o5], at the bottom,
    is not on the page, and both records of the page come before it. *)
Lemma list_page_skips_no_row_witness :
  exists (l : api.LeaderboardRecordList) (w' : World unit),
    LeaderboardRecordsList Example.noTournament (Example.cache Example.descending) "lb"
      (Some 1) "" [] 0 (Example.world Example.five) = (Ok l, w')
    /\ ((exists r, r ∈ api.Records l /\ record_key r = db.key_of (Example.row "o5" 10))
        \/ (forall r, r ∈ api.Records l ->
              fetched_le db.DESC (record_key r) (db.key_of (Example.row "o5" 10)))).
Proof.
  destruct (list_page_skips_no_row (RC:=unit) Example.noTournament
              (Example.cache Example.descending) Example.descending "lb" "" 1 0 0 [] None
              (Example.world Example.five))
    as (l & w' & Hrun & Hall).
  - reflexivity.
  - reflexivity.
  - reflexivity.
  - vm_compute. split; [discriminate|reflexivity].
  - exists l, w'. split; [exact Hrun|]. apply Hall.
    apply list_elem_of_In. vm_compute. auto 10.
Defined.

(** Owners [o3] (twice) and [o9] are asked for, without a page: [o3] has a
    row, [o9] has none. *)
Lemma list_owner_records_witness :
  exists (l : api.LeaderboardRecordList) (w' : World unit),
    LeaderboardRecordsList Example.noTournament (Example.cache Example.descending) "lb"
      None "not a cursor" ["o3"; "o9"; "o3"] 0 (Example.world Example.five) = (Ok l, w')
    /\ map api.OwnerId (api.OwnerRecords l) = ["o3"]
    /\ api.Records l = [].
Proof.
  destruct (list_owner_records (RC:=unit) Example.noTournament
              (Example.cache Example.descending) Example.descending "lb" "not a cursor"
              None 0 0 ["o3"; "o9"; "o3"] (Example.world Example.five))
    as (l & w' & Hrun & _ & _ & _ & Hnone).
  - reflexivity.
  - reflexivity.
  - exact I.
  - exact five_keys_unique.
  - exists l, w'. split; [exact Hrun|]. split; [|apply Hnone; reflexivity].
    vm_compute in Hrun. injection Hrun as <- _. reflexivity.
Defined.

Lemma unknown_leaderboard_refused_witness :
  LeaderboardRecordsList Example.noTournament (Example.cache Example.descending) "other"
    (Some 2) "" [] 0 (Example.world Example.five)
  = (Err ErrLeaderboardNotFound, Example.world Example.five)
  /\ LeaderboardRecordDelete Example.uuid_FromString (Example.cache Example.descending)
       "" "other" "o3" (Example.world Example.five)
     = (Err ErrLeaderboardNotFound, Example.world Example.five).
Proof.
  destruct (unknown_leaderboard_refused (RC:=unit) Example.uuid_FromString
              Example.noTournament Example.default_max_num_score
              (Example.cache Example.descending) "other" "" "o3" "" "" "" (Some 2) 2 0 0 0
              [] api.Operator_NO_OVERRIDE (Example.world Example.five))
    as (Hlist & _ & _ & Hdelete).
  - reflexivity.
  - split; assumption.
Defined.

(** A cursor made for expiry 0 is presented to a listing at expiry 60. *)
Lemma list_rejects_foreign_cursor_witness :
  LeaderboardRecordsList Example.noTournament (Example.cache Example.descending) "lb"
    (Some 2) (cursor_token (Some (Example.cursor false 30 "o3" 3))) [] 60
    (Example.world Example.five)
  = (Err ErrLeaderboardInvalidCursor, Example.world Example.five).
Proof.
  apply (list_rejects_foreign_cursor (RC:=unit) Example.noTournament
           (Example.cache Example.descending) Example.descending "lb" 2 60 60 []
           (Example.cursor false 30 "o3" 3) (Example.world Example.five)).
  - reflexivity.
  - reflexivity.
  - exact example_cursor_wf.
  - vm_compute. intros H. discriminate H.
Defined.

(** The tournament of the examples, over at second 50, listed at second
    100. *)
Lemma ended_tournament_lists_nothing_witness :
  LeaderboardRecordsList Tournament.deadlines (Example.cache Tournament.board) "lb"
    (Some 2) "" ["o3"] 0 Tournament.world
  = (Ok no_records, Tournament.world)
  /\ LeaderboardRecordsHaystack Tournament.deadlines (Example.cache Tournament.board) "lb"
       "" "o3" 3 0 Tournament.world
     = (Ok no_records, Tournament.world).
Proof.
  apply (ended_tournament_lists_nothing (RC:=unit) Tournament.deadlines
           (Example.cache Tournament.board) Tournament.board "lb" "" "o3" (Some 2) 3
           ["o3"] 0 50 50 Tournament.world).
  - reflexivity.
  - reflexivity.
  - reflexivity.
  - discriminate.
  - vm_compute. discriminate.
Defined.

Lemma list_negative_limit_witness :
  LeaderboardRecordsList Example.noTournament (Example.cache Example.descending) "lb"
    (Some (-1)) "" [] 0 (Example.world Example.five)
  = (Panic, record_event db_QueryContext (Example.world Example.five)).
Proof.
  apply (list_negative_limit (RC:=unit) Example.noTournament
           (Example.cache Example.descending) Example.descending "lb" "" (-1) 0 0 [] None
           (Example.world Example.five)).
  - reflexivity.
  - reflexivity.
  - reflexivity.
  - vm_compute. split; [discriminate|reflexivity].
Defined.

(** ** The haystack *)

Lemma Time_Unix_Unix (sec : Z) : time.Time_Unix (time.Unix sec 0) = sec.
Proof.
  unfold time.Time_Unix, time.Unix, time.Second. rewrite Z.add_0_r.
  apply Z.div_mul. discriminate.
Qed.

Lemma int_div_2 (limit : Z) : 0 <= limit < max_int64 -> int_div limit 2 = limit / 2.
Proof.
  intros H. unfold int_div. rewrite Z.quot_div_nonneg by lia.
  apply wrap64_id. unfold in_int64, min_int64, max_int64 in *.
  pose proof (Z.div_pos limit 2 ltac:(lia) ltac:(lia)).
  assert (limit / 2 <= limit) by (apply Z.div_le_upper_bound; lia). lia.
Qed.

Lemma window_bounds (limit : Z) (first second : nat) :
  1 < limit ->
  Z.of_nat first <= limit ->
  Z.of_nat second <= second_limit limit first ->
  0 <= window_start limit first second <= Z.of_nat first
  /\ Z.of_nat first < window_end limit first second <= Z.of_nat (first + 1 + second)
  /\ window_end limit first second - window_start limit first second <= limit.
Proof.
  unfold second_limit, window_end, window_start. intros Hlimit Hfirst.
  pose proof (Z.div_mod limit 2 ltac:(lia)) as Hdiv.
  pose proof (Z.mod_pos_bound limit 2 ltac:(lia)) as Hmod.
  destruct (Z.ltb_spec (Z.of_nat first) (limit / 2)) as [Hhalf|Hhalf]; intros Hsecond.
  - rewrite orb_true_r. lia.
  - rewrite orb_false_r.
    destruct (Z.ltb_spec (Z.of_nat (first + 1 + second) - limit) 0); cbv iota; lia.
Qed.

Section HaystackSteps.

Context {RC : Type}.

(** The row beyond the limit is taken off (lines 747-751, 785-789). *)
Lemma trim_run {A : Type} (n : Z) (l : list A) (w : World RC) :
  0 <= n ->
  Z.of_nat (length l) <= n + 1 ->
  (if n <? Z.of_nat (length l)
   then slice l 0 (Z.of_nat (length l) - 1) ≫= (fun l' => mret (true, l'))
   else mret (false, l)) w
  = (Ok (n <? Z.of_nat (length l), take (Z.to_nat n) l), w).
Proof.
  intros Hn Hlen. destruct (Z.ltb_spec n (Z.of_nat (length l))) as [H|H].
  - unfold mbind, M_bind, slice.
    destruct (Z.ltb_spec 0 0); [lia|].
    destruct (Z.ltb_spec (Z.of_nat (length l) - 1) 0); [lia|].
    destruct (Z.ltb_spec (Z.of_nat (length l)) (Z.of_nat (length l) - 1)); [lia|].
    cbn [orb]. unfold mret, M_ret. change (Z.to_nat 0) with 0%nat. rewrite drop_0.
    replace (Z.to_nat (Z.of_nat (length l) - 1 - 0)) with (Z.to_nat n) by lia. reflexivity.
  - unfold mret, M_ret. rewrite take_ge by lia. reflexivity.
Qed.

Lemma slice_run {A : Type} (l : list A) (lo hi : Z) (w : World RC) :
  0 <= lo <= hi -> hi <= Z.of_nat (length l) ->
  slice l lo hi w = (Ok (take (Z.to_nat (hi - lo)) (drop (Z.to_nat lo) l)), w).
Proof.
  intros Hlo Hhi. unfold slice.
  destruct (Z.ltb_spec lo 0); [lia|].
  destruct (Z.ltb_spec hi lo); [lia|].
  destruct (Z.ltb_spec (Z.of_nat (length l)) hi); [lia|].
  reflexivity.
Qed.

Lemma index_run {A : Type} (l : list A) (i : Z) (x : A) (w : World RC) :
  0 <= i -> l !! Z.to_nat i = Some x -> index l i w = (Ok x, w).
Proof.
  intros Hi Hx. unfold index. destruct (Z.ltb_spec i 0); [lia|]. rewrite Hx. reflexivity.
Qed.

End HaystackSteps.

Lemma select_record_inl (t : db.Table) (leaderboardId ownerID : string)
    (expiry : time.Time) (row : db.Row) :
  db.select_record t leaderboardId ownerID expiry = inl row ->
  row ∈ t /\ db.leaderboard_id row = leaderboardId /\ db.owner_id row = ownerID
  /\ db.expiry_time row = expiry.
Proof.
  unfold db.select_record.
  destruct (List.find _ t) as [r|] eqn:Hfind; [|discriminate].
  intros [= ->]. apply find_some in Hfind. destruct Hfind as [Hin Hkey].
  unfold db.same_key in Hkey. rewrite !andb_true_iff, !bool_decide_eq_true, Z.eqb_eq in Hkey.
  split; [apply list_elem_of_In, Hin|]. tauto.
Qed.

Section Haystack.

Context {RC : Type} `{!LeaderboardRankCache RC}.
Variable calculateTournamentDeadlines :
  Z -> Z -> Z -> option cronexpr.Expression -> time.Time -> Z * Z * Z.
Variable leaderboardCache : LeaderboardCache.

Lemma getLeaderboardRecordsHaystack_run (ownerID leaderboardId : string) (limit : Z)
    (sortOrder : LeaderboardSortOrder) (expiryTime : time.Time) (row : db.Row)
    (w : World RC) :
  db.select_record (table w) leaderboardId ownerID expiryTime = inl row ->
  1 < limit < 2 ^ 31 ->
  getLeaderboardRecordsHaystack calculateTournamentDeadlines leaderboardCache ownerID limit
    leaderboardId "" sortOrder expiryTime w
  = (Ok (haystack_of (rankCache w) sortOrder leaderboardId expiryTime limit row (table w)),
     record_event rankCache_Fill
       (record_event db_QueryContext
          (record_event db_QueryContext (record_event db_QueryRowContext w)))).
Proof.
  intros Hrow Hlimit.
  unfold getLeaderboardRecordsHaystack.
  rewrite bool_decide_eq_true_2 by reflexivity.
  unfold mbind at 1. unfold M_bind at 1. unfold db_read at 1. rewrite Hrow.
  destruct (Z.eqb_spec limit 1); [lia|].
  destruct (select_record_inl _ _ _ _ _ Hrow) as (Hin & Hid & Howner & Hexp).
  cbv zeta. subst ownerID.
  change (api.Score (parseLeaderboardRecord row)) with (db.score row).
  change (api.Subscore (parseLeaderboardRecord row)) with (db.subscore row).
  unfold uuid.UUID.
  change (db.score row, db.subscore row, db.owner_id row) with (db.key_of row).
  unfold haystack_of, haystack_rows, second_half, first_half. cbv zeta.
  set (better := side_rows sortOrder Better leaderboardId expiryTime (db.key_of row) (table w)).
  set (worse := side_rows sortOrder Worse leaderboardId expiryTime (db.key_of row) (table w)).
  assert (Hbetter : better
                    = db.order_by
                        (snd (haystackQuery sortOrder Better leaderboardId expiryTime
                                (db.key_of row)))
                        (List.filter
                           (fst (haystackQuery sortOrder Better leaderboardId expiryTime
                                   (db.key_of row))) (table w))).
  { subst better. unfold side_rows.
    destruct (haystackQuery sortOrder Better leaderboardId expiryTime (db.key_of row)).
    reflexivity. }
  assert (Hworse : worse
                   = db.order_by
                       (snd (haystackQuery sortOrder Worse leaderboardId expiryTime
                               (db.key_of row)))
                       (List.filter
                          (fst (haystackQuery sortOrder Worse leaderboardId expiryTime
                                  (db.key_of row))) (table w))).
  { subst worse. unfold side_rows.
    destruct (haystackQuery sortOrder Worse leaderboardId expiryTime (db.key_of row)).
    reflexivity. }
  clearbody better worse.
  destruct (haystackQuery sortOrder Better leaderboardId expiryTime (db.key_of row))
    as [cond1 order1].
  destruct (haystackQuery sortOrder Worse leaderboardId expiryTime (db.key_of row))
    as [cond2 order2].
  cbn [fst snd] in Hbetter, Hworse.
  set (w1 := record_event db_QueryRowContext w).
  (* the first half *)
  unfold mbind at 1. unfold M_bind at 1. unfold db_read at 1.
  unfold db.select_ordered at 1.
  rewrite (wrap64_id (limit + 1)) by (unfold in_int64, min_int64, max_int64; lia).
  destruct (Z.ltb_spec (limit + 1) 0); [lia|].
  change (table w1) with (table w). rewrite <- Hbetter.
  unfold mbind at 1. unfold M_bind at 1.
  rewrite (trim_run limit (parseLeaderboardRecords (take (Z.to_nat (limit + 1)) better)))
    by (unfold parseLeaderboardRecords; rewrite ?length_map, ?length_take; lia).
  cbv beta iota.
  set (first := take (Z.to_nat limit) better).
  assert (Htrim1 : take (Z.to_nat limit)
                     (parseLeaderboardRecords (take (Z.to_nat (limit + 1)) better))
                   = parseLeaderboardRecords first).
  { unfold parseLeaderboardRecords. rewrite <- fmap_take, take_take. subst first.
    do 2 f_equal. lia. }
  rewrite !Htrim1.
  assert (Hmore1 : (limit <? Z.of_nat (length (parseLeaderboardRecords
                                                 (take (Z.to_nat (limit + 1)) better))))
                   = (limit <? Z.of_nat (length better))).
  { unfold parseLeaderboardRecords. rewrite length_map, length_take.
    destruct (Z.ltb_spec limit (Z.of_nat (length better)));
      destruct (Z.ltb_spec limit (Z.of_nat (Z.to_nat (limit + 1) `min` length better)));
      try reflexivity; lia. }
  rewrite !Hmore1.
  assert (Hfirst : Z.of_nat (length first) <= limit)
    by (subst first; rewrite length_take; lia).
  assert (Hlen1 : length (reverse (parseLeaderboardRecords first)) = length first)
    by (unfold parseLeaderboardRecords; rewrite length_reverse, length_map; reflexivity).
  rewrite !Hlen1, (int_div_2 limit) by (unfold max_int64; lia).
  assert (Hsl : (if Z.of_nat (length first) <? limit / 2
                 then wrap64 (limit - Z.of_nat (length first)) else limit / 2)
                = second_limit limit (length first)).
  { unfold second_limit. rewrite wrap64_id; [reflexivity|].
    unfold in_int64, min_int64, max_int64. lia. }
  rewrite !Hsl.
  set (sl := second_limit limit (length first)).
  assert (Hslr : 0 <= sl <= limit).
  { subst sl. unfold second_limit.
    pose proof (Z.div_mod limit 2 ltac:(lia)). pose proof (Z.mod_pos_bound limit 2 ltac:(lia)).
    destruct (Z.ltb_spec (Z.of_nat (length first)) (limit / 2)); lia. }
  (* the second half *)
  set (w2 := record_event db_QueryContext w1).
  unfold mbind at 1. unfold M_bind at 1. unfold db_read at 1.
  unfold db.select_ordered at 1.
  rewrite (wrap64_id (sl + 1)) by (unfold in_int64, min_int64, max_int64; lia).
  destruct (Z.ltb_spec (sl + 1) 0); [lia|].
  change (table w2) with (table w). rewrite <- Hworse.
  unfold mbind at 1. unfold M_bind at 1.
  rewrite (trim_run sl (parseLeaderboardRecords (take (Z.to_nat (sl + 1)) worse)))
    by (unfold parseLeaderboardRecords; rewrite ?length_map, ?length_take; lia).
  cbv beta iota.
  set (second := take (Z.to_nat sl) worse).
  assert (Htrim2 : take (Z.to_nat sl)
                     (parseLeaderboardRecords (take (Z.to_nat (sl + 1)) worse))
                   = parseLeaderboardRecords second).
  { unfold parseLeaderboardRecords. rewrite <- fmap_take, take_take. subst second.
    do 2 f_equal. lia. }
  rewrite !Htrim2.
  assert (Hmore2 : (sl <? Z.of_nat (length (parseLeaderboardRecords
                                              (take (Z.to_nat (sl + 1)) worse))))
                   = (sl <? Z.of_nat (length worse))).
  { unfold parseLeaderboardRecords. rewrite length_map, length_take.
    destruct (Z.ltb_spec sl (Z.of_nat (length worse)));
      destruct (Z.ltb_spec sl (Z.of_nat (Z.to_nat (sl + 1) `min` length worse)));
      try reflexivity; lia. }
  rewrite !Hmore2.
  assert (Hsecond : Z.of_nat (length second) <= sl)
    by (subst second; rewrite length_take; lia).
  (* the window *)
  assert (Hall : (reverse (parseLeaderboardRecords first) ++ [parseLeaderboardRecord row])
                 ++ parseLeaderboardRecords second
                 = parseLeaderboardRecords (reverse first ++ row :: second)).
  { unfold parseLeaderboardRecords. rewrite map_app, <- app_assoc. cbn [app map]. f_equal. symmetry. apply fmap_reverse. }
  rewrite !Hall.
  assert (Hnum : Z.of_nat (length (parseLeaderboardRecords (reverse first ++ row :: second)))
                 = Z.of_nat (length first + 1 + length second)).
  { unfold parseLeaderboardRecords. rewrite length_map, length_app, length_reverse.
    cbn [length]. lia. }
  rewrite !Hnum.
  destruct (window_bounds limit (length first) (length second) ltac:(lia) Hfirst Hsecond)
    as (Hstart & Hend & Hsize).
  assert (Hws : (if (wrap64 (Z.of_nat (length first + 1 + length second) - limit) <? 0)
                    || (Z.of_nat (length first) <? limit / 2)
                 then 0
                 else wrap64 (Z.of_nat (length first + 1 + length second) - limit))
                = window_start limit (length first) (length second)).
  { unfold window_start. rewrite wrap64_id; [reflexivity|].
    unfold in_int64, min_int64, max_int64. lia. }
  rewrite !Hws.
  assert (Hwe : (if Z.of_nat (length first + 1 + length second)
                    <? wrap64 (window_start limit (length first) (length second) + limit)
                 then Z.of_nat (length first + 1 + length second)
                 else wrap64 (window_start limit (length first) (length second) + limit))
                = window_end limit (length first) (length second)).
  { unfold window_end. rewrite wrap64_id by (unfold in_int64, min_int64, max_int64; lia).
    destruct (Z.ltb_spec (Z.of_nat (length first + 1 + length second))
                (window_start limit (length first) (length second) + limit)); lia. }
  rewrite !Hwe.
  unfold mbind at 1. unfold M_bind at 1.
  rewrite slice_run by (rewrite ?Hnum; lia).
  unfold mbind at 1. unfold M_bind at 1. unfold do_rank_Fill at 1.
  (* the answer *)
  fold first. rewrite !length_reverse. fold sl second.
  set (start := window_start limit (length first) (length second)) in *.
  set (end_ := window_end limit (length first) (length second)) in *.
  set (rows := take (Z.to_nat (end_ - start))
                 (drop (Z.to_nat start) (reverse first ++ row :: second))).
  assert (Hrecords : map (fun r => api.set_Rank
                                     (rank_Fill (rankCache w2) leaderboardId
                                        (time.Time_Unix expiryTime) r) r)
                       (take (Z.to_nat (end_ - start))
                          (drop (Z.to_nat start)
                             (parseLeaderboardRecords (reverse first ++ row :: second))))
                     = map (haystack_record (rankCache w) leaderboardId expiryTime) rows).
  { subst rows. unfold parseLeaderboardRecords.
    rewrite <- fmap_drop, <- fmap_take, map_map. reflexivity. }
  change (rankCache (record_event db_QueryContext w2)) with (rankCache w2).
  rewrite !Hrecords.
  set (records := map (haystack_record (rankCache w) leaderboardId expiryTime) rows).
  assert (Hlen : length records = Z.to_nat (end_ - start)).
  { subst records rows. rewrite length_map, length_take, length_drop, length_app, length_reverse.
    cbn [length]. lia. }
  destruct (lookup_lt_is_Some_2 records 0 ltac:(lia)) as [r0 Hhead].
  destruct (lookup_lt_is_Some_2 records (Nat.pred (length records)) ltac:(lia))
    as [rl Hlast].
  rewrite head_lookup, last_lookup, Hhead, Hlast. clearbody records.
  assert (Hstep : forall (b isNext : bool) (i : Z) (r : api.LeaderboardRecord) (w' : World RC),
             0 <= i -> records !! Z.to_nat i = Some r ->
             (if b
              then index records i
                   ≫= (fun x => lift (marshalLeaderboardRecordsListCursor
                                        (haystackCursor isNext expiryTime x)))
              else mret "") w'
             = (Ok (if b then haystack_token isNext expiryTime (Some r) else ""), w')).
  { intros b isNext i r w' Hi Hr. destruct b; [|reflexivity].
    unfold mbind, M_bind. rewrite (index_run records i r w' Hi Hr). reflexivity. }
  unfold mbind at 1. unfold M_bind at 1.
  rewrite (Hstep _ false 0 r0) by (try lia; exact Hhead).
  unfold mbind at 1. unfold M_bind at 1.
  rewrite (Hstep _ true (Z.of_nat (length records) - 1) rl)
    by (try lia; replace (Z.to_nat (Z.of_nat (length records) - 1))
                   with (Nat.pred (length records)) by lia; exact Hlast).
  reflexivity.
Qed.


End Haystack.

Lemma side_rows_spec (sortOrder : LeaderboardSortOrder) (side : Side)
    (leaderboardId : string) (expiryTime : time.Time) (k : db.key) (t : db.Table)
    (x : db.Row) :
  x ∈ side_rows sortOrder side leaderboardId expiryTime k t
  <-> x ∈ t /\ db.in_board leaderboardId expiryTime x = true /\ on_side sortOrder side k x.
Proof.
  unfold side_rows, haystackQuery, on_side, key_lt.
  destruct sortOrder, side; rewrite order_by_perm, list_elem_of_In, filter_In,
    <- list_elem_of_In, andb_true_iff; reflexivity.
Qed.

Lemma board_le_trans (sortOrder : LeaderboardSortOrder) (a b c : db.key) :
  board_le sortOrder a b -> board_le sortOrder b c -> board_le sortOrder a c.
Proof.
  destruct sortOrder; cbn; unfold flip; eauto using key_le_trans.
Qed.

Lemma keys_in_order_board_le (sortOrder : LeaderboardSortOrder) (ks : list db.key) :
  keys_in_order sortOrder ks <-> StronglySorted (board_le sortOrder) ks.
Proof. destruct sortOrder; reflexivity. Qed.

Lemma on_side_better (sortOrder : LeaderboardSortOrder) (k : db.key) (x : db.Row) :
  on_side sortOrder Better k x -> board_le sortOrder (db.key_of x) k.
Proof. destruct sortOrder; cbn; unfold flip; apply key_lt_le. Qed.

Lemma on_side_worse (sortOrder : LeaderboardSortOrder) (k : db.key) (x : db.Row) :
  on_side sortOrder Worse k x -> board_le sortOrder k (db.key_of x).
Proof. destruct sortOrder; cbn; unfold flip; apply key_lt_le. Qed.

(** The better side comes from the owner outward, the worse side in the
    order of the board. *)
Lemma side_rows_better_sorted (sortOrder : LeaderboardSortOrder) (leaderboardId : string)
    (expiryTime : time.Time) (k : db.key) (t : db.Table) :
  StronglySorted (flip (board_le sortOrder))
    (map db.key_of (side_rows sortOrder Better leaderboardId expiryTime k t)).
Proof.
  unfold side_rows, haystackQuery.
  destruct sortOrder; cbn [board_le];
    (eapply StronglySorted_fmap; [|apply order_by_sorted]); intros x y H; exact H.
Qed.

Lemma side_rows_worse_sorted (sortOrder : LeaderboardSortOrder) (leaderboardId : string)
    (expiryTime : time.Time) (k : db.key) (t : db.Table) :
  StronglySorted (board_le sortOrder)
    (map db.key_of (side_rows sortOrder Worse leaderboardId expiryTime k t)).
Proof.
  unfold side_rows, haystackQuery.
  destruct sortOrder; cbn [board_le];
    (eapply StronglySorted_fmap; [|apply order_by_sorted]); intros x y H; exact H.
Qed.

Lemma StronglySorted_drop {A : Type} (R : A -> A -> Prop) (n : nat) (l : list A) :
  StronglySorted R l -> StronglySorted R (drop n l).
Proof.
  intros H. rewrite <- (take_drop n l) in H. eapply StronglySorted_app_1_r. exact H.
Qed.

(** The two halves with the owner's row between them are in the order of
    the board, and are rows of the board. *)
Lemma halves_sorted (sortOrder : LeaderboardSortOrder) (leaderboardId : string)
    (expiryTime : time.Time) (limit : Z) (row : db.Row) (t : db.Table) :
  StronglySorted (board_le sortOrder)
    (map db.key_of
       (first_half sortOrder leaderboardId expiryTime limit row t
        ++ row :: second_half sortOrder leaderboardId expiryTime limit row t)).
Proof.
  unfold first_half, second_half.
  set (better := side_rows sortOrder Better leaderboardId expiryTime (db.key_of row) t).
  set (worse := side_rows sortOrder Worse leaderboardId expiryTime (db.key_of row) t).
  set (n := Z.to_nat limit). set (m := Z.to_nat _).
  assert (Hb : forall x, x ∈ take n better -> board_le sortOrder (db.key_of x) (db.key_of row)).
  { intros x Hx. apply (subseteq_take n) in Hx. apply side_rows_spec in Hx.
    apply on_side_better, Hx. }
  assert (Hw : forall x, x ∈ take m worse -> board_le sortOrder (db.key_of row) (db.key_of x)).
  { intros x Hx. apply (subseteq_take m) in Hx. apply side_rows_spec in Hx.
    apply on_side_worse, Hx. }
  rewrite map_app. cbn [map]. apply StronglySorted_app_2.
  - intros k1 k2 Hk1 Hk2.
    apply list_elem_of_fmap in Hk1. destruct Hk1 as (x & -> & Hx).
    rewrite elem_of_reverse in Hx. apply Hb in Hx.
    apply elem_of_cons in Hk2. destruct Hk2 as [->|Hk2]; [exact Hx|].
    apply list_elem_of_fmap in Hk2. destruct Hk2 as (y & -> & Hy).
    eapply board_le_trans; [exact Hx|]. apply Hw, Hy.
  - rewrite fmap_reverse.
    apply (StronglySorted_reverse (flip (board_le sortOrder))).
    rewrite fmap_take. apply StronglySorted_take.
    apply side_rows_better_sorted.
  - constructor.
    + rewrite fmap_take. apply StronglySorted_take. apply side_rows_worse_sorted.
    + apply Forall_forall. intros k Hk.
      apply list_elem_of_fmap in Hk. destruct Hk as (y & -> & Hy). apply Hw, Hy.
Qed.

Lemma halves_in_board (sortOrder : LeaderboardSortOrder) (leaderboardId : string)
    (expiryTime : time.Time) (limit : Z) (row : db.Row) (t : db.Table) (x : db.Row) :
  row ∈ t -> db.in_board leaderboardId expiryTime row = true ->
  x ∈ first_half sortOrder leaderboardId expiryTime limit row t
      ++ row :: second_half sortOrder leaderboardId expiryTime limit row t ->
  x ∈ t /\ db.in_board leaderboardId expiryTime x = true.
Proof.
  intros Hrow Hb Hx. unfold first_half, second_half in Hx.
  apply elem_of_app in Hx. destruct Hx as [Hx|Hx].
  - rewrite elem_of_reverse in Hx. apply subseteq_take in Hx.
    apply side_rows_spec in Hx. split; apply Hx.
  - apply elem_of_cons in Hx. destruct Hx as [->|Hx]; [split; assumption|].
    apply subseteq_take in Hx. apply side_rows_spec in Hx. split; apply Hx.
Qed.

Lemma haystack_rows_spec (sortOrder : LeaderboardSortOrder) (leaderboardId : string)
    (expiryTime : time.Time) (limit : Z) (row : db.Row) (t : db.Table) :
  1 < limit ->
  row ∈ haystack_rows sortOrder leaderboardId expiryTime limit row t
  /\ Z.of_nat (length (haystack_rows sortOrder leaderboardId expiryTime limit row t)) <= limit
  /\ StronglySorted (board_le sortOrder)
       (map db.key_of (haystack_rows sortOrder leaderboardId expiryTime limit row t))
  /\ forall x, x ∈ haystack_rows sortOrder leaderboardId expiryTime limit row t ->
       x ∈ first_half sortOrder leaderboardId expiryTime limit row t
           ++ row :: second_half sortOrder leaderboardId expiryTime limit row t.
Proof.
  intros Hlimit. unfold haystack_rows. cbv zeta.
  set (first := first_half sortOrder leaderboardId expiryTime limit row t).
  set (second := second_half sortOrder leaderboardId expiryTime limit row t).
  assert (Hfirst : Z.of_nat (length first) <= limit).
  { subst first. unfold first_half. rewrite length_reverse, length_take. lia. }
  assert (Hsl : 0 <= second_limit limit (length first)).
  { unfold second_limit.
    pose proof (Z.div_mod limit 2 ltac:(lia)). pose proof (Z.mod_pos_bound limit 2 ltac:(lia)).
    destruct (Z.ltb_spec (Z.of_nat (length first)) (limit / 2)); lia. }
  assert (Hsecond : Z.of_nat (length second) <= second_limit limit (length first)).
  { subst second. unfold second_half. fold first. rewrite length_take. lia. }
  destruct (window_bounds limit (length first) (length second) Hlimit Hfirst Hsecond)
    as (Hstart & Hend & Hsize).
  set (start := window_start limit (length first) (length second)) in *.
  set (end_ := window_end limit (length first) (length second)) in *.
  repeat split.
  - apply list_elem_of_lookup. exists (length first - Z.to_nat start)%nat.
    rewrite lookup_take_lt by lia. rewrite lookup_drop.
    replace (Z.to_nat start + (length first - Z.to_nat start))%nat with (length first) by lia.
    rewrite lookup_app_r by lia. rewrite Nat.sub_diag. reflexivity.
  - rewrite length_take. lia.
  - rewrite fmap_take, fmap_drop. apply StronglySorted_take, StronglySorted_drop.
    apply halves_sorted.
  - intros x Hx. apply subseteq_take in Hx. apply subseteq_drop in Hx. exact Hx.
Qed.

Section HaystackFacts.

Context {RC : Type} `{!LeaderboardRankCache RC}.
Variable calculateTournamentDeadlines :
  Z -> Z -> Z -> option cronexpr.Expression -> time.Time -> Z * Z * Z.
Variable leaderboardCache : LeaderboardCache.

Lemma LeaderboardRecordsHaystack_run (leaderboard : Leaderboard)
    (leaderboardId cursor ownerID : string) (limit overrideExpiry expiryTime : Z)
    (w : World RC) :
  leaderboardCache leaderboardId = Some leaderboard ->
  calculateExpiryOverride calculateTournamentDeadlines overrideExpiry leaderboard w
  = (Ok (expiryTime, true), w) ->
  LeaderboardRecordsHaystack calculateTournamentDeadlines leaderboardCache leaderboardId
    cursor ownerID limit overrideExpiry w
  = getLeaderboardRecordsHaystack calculateTournamentDeadlines leaderboardCache ownerID
      limit (Id leaderboard) cursor (SortOrder leaderboard) (time.Unix expiryTime 0) w.
Proof.
  intros Hboard Hexpiry. unfold LeaderboardRecordsHaystack. rewrite Hboard.
  unfold mbind, M_bind. rewrite Hexpiry. reflexivity.
Qed.

(** X23. An owner without a record.  With an empty cursor, when the owner
    has no row on the board at the listed expiry, the haystack answers with
    an empty list and no error after its one lookup, whatever the limit. *)
Theorem haystack_absent_owner (leaderboard : Leaderboard)
    (leaderboardId ownerID : string) (limit overrideExpiry expiryTime : Z) (w : World RC) :
  leaderboardCache leaderboardId = Some leaderboard ->
  calculateExpiryOverride calculateTournamentDeadlines overrideExpiry leaderboard w
  = (Ok (expiryTime, true), w) ->
  (forall row, row ∈ table w ->
     db.same_key (Id leaderboard) ownerID (time.Unix expiryTime 0) row = false) ->
  LeaderboardRecordsHaystack calculateTournamentDeadlines leaderboardCache leaderboardId
    "" ownerID limit overrideExpiry w
  = (Ok no_records, record_event db_QueryRowContext w).
Proof.
  intros Hboard Hexpiry Habsent.
  rewrite (LeaderboardRecordsHaystack_run leaderboard _ _ _ _ _ expiryTime) by assumption.
  unfold getLeaderboardRecordsHaystack.
  rewrite bool_decide_eq_true_2 by reflexivity.
  unfold mbind, M_bind, db_read, db.select_record.
  destruct (List.find _ (table w)) as [row|] eqn:Hfind; [|reflexivity].
  apply find_some in Hfind. destruct Hfind as [Hin Hkey].
  rewrite (Habsent row) in Hkey by (apply list_elem_of_In, Hin). discriminate.
Qed.


(** X24. The window around an owner.  With an empty cursor and a limit of
    at least 1, when the lookup finds the owner's row, the haystack
    succeeds and only reads.  Its records include the owner's own record;
    they are at most [limit]; they come in the order of the board; and each
    is made of a row of the table that belongs to the board at the listed
    expiry. *)
Theorem haystack_window (leaderboard : Leaderboard)
    (leaderboardId ownerID : string) (limit overrideExpiry expiryTime : Z) (row : db.Row)
    (w : World RC) :
  leaderboardCache leaderboardId = Some leaderboard ->
  calculateExpiryOverride calculateTournamentDeadlines overrideExpiry leaderboard w
  = (Ok (expiryTime, true), w) ->
  db.select_record (table w) (Id leaderboard) ownerID (time.Unix expiryTime 0) = inl row ->
  1 <= limit < 2 ^ 31 ->
  exists (l : api.LeaderboardRecordList) (w' : World RC),
    LeaderboardRecordsHaystack calculateTournamentDeadlines leaderboardCache leaderboardId
      "" ownerID limit overrideExpiry w = (Ok l, w')
    /\ table w' = table w
    /\ (exists r, r ∈ api.Records l
                  /\ r = api.set_Rank (api.Rank r) (parseLeaderboardRecord row))
    /\ Z.of_nat (length (api.Records l)) <= limit
    /\ keys_in_order (SortOrder leaderboard) (map record_key (api.Records l))
    /\ forall r, r ∈ api.Records l ->
         exists row',
           row' ∈ table w
           /\ db.in_board (Id leaderboard) (time.Unix expiryTime 0) row' = true
           /\ r = api.set_Rank (api.Rank r) (parseLeaderboardRecord row').
Proof.
  intros Hboard Hexpiry Hrow Hlimit.
  rewrite (LeaderboardRecordsHaystack_run leaderboard _ _ _ _ _ expiryTime) by assumption.
  destruct (select_record_inl _ _ _ _ _ Hrow) as (Hin & Hid & Howner & Hexp).
  assert (Hb : db.in_board (Id leaderboard) (time.Unix expiryTime 0) row = true)
    by (apply in_board_iff; split; assumption).
  destruct (decide (limit = 1)) as [->|Hne].
  - (* the owner alone *)
    unfold getLeaderboardRecordsHaystack.
    rewrite bool_decide_eq_true_2 by reflexivity.
    unfold mbind at 1. unfold M_bind at 1. unfold db_read at 1. rewrite Hrow.
    cbn [Z.eqb Pos.eqb]. unfold mbind, M_bind, do_rank_Get, mret, M_ret.
    eexists _, _. split; [reflexivity|]. cbn [api.Records].
    split; [reflexivity|]. split.
    + eexists. split; [left|]. reflexivity.
    + split; [cbn; lia|]. split.
      * apply keys_in_order_board_le. repeat constructor.
      * intros r Hr. apply list_elem_of_singleton in Hr. subst r.
        exists row. repeat split; assumption.
  - rewrite (getLeaderboardRecordsHaystack_run calculateTournamentDeadlines leaderboardCache
               ownerID (Id leaderboard) limit (SortOrder leaderboard)
               (time.Unix expiryTime 0) row w Hrow) by lia.
    eexists _, _. split; [reflexivity|]. split; [reflexivity|].
    cbn [haystack_of api.Records].
    destruct (haystack_rows_spec (SortOrder leaderboard) (Id leaderboard)
                (time.Unix expiryTime 0) limit row (table w) ltac:(lia))
      as (Hown & Hlen & Hsorted & Hsub).
    split; [|split; [|split]].
    + exists (haystack_record (rankCache w) (Id leaderboard) (time.Unix expiryTime 0) row).
      split; [|reflexivity].
      apply list_elem_of_fmap. exists row. split; [reflexivity|exact Hown].
    + rewrite length_map. exact Hlen.
    + apply keys_in_order_board_le. rewrite map_map. exact Hsorted.
    + intros r Hr. apply list_elem_of_fmap in Hr. destruct Hr as (row' & -> & Hrow').
      exists row'.
      destruct (halves_in_board _ _ _ _ _ _ _ Hin Hb (Hsub _ Hrow')) as [Ht Hb'].
      repeat split; assumption.
Qed.

(** X25. The haystack with a cursor is a listing.  With a non-empty cursor
    the haystack does not look for the owner: it answers exactly as the
    paginated listing of the same board does for that cursor, with the limit
    cut to 32 bits, no owner batch and the same expiry override. *)
Theorem haystack_with_cursor_is_listing (leaderboard : Leaderboard)
    (leaderboardId cursor ownerID : string) (limit overrideExpiry : Z) (w : World RC) :
  leaderboardCache leaderboardId = Some leaderboard ->
  leaderboardCache (Id leaderboard) = Some leaderboard ->
  cursor <> "" ->
  LeaderboardRecordsHaystack calculateTournamentDeadlines leaderboardCache leaderboardId
    cursor ownerID limit overrideExpiry w
  = LeaderboardRecordsList calculateTournamentDeadlines leaderboardCache (Id leaderboard)
      (Some (to_int32 limit)) cursor [] overrideExpiry w.
Proof.
  intros Hboard Hid Hcursor.
  destruct (calculateExpiryOverride_run calculateTournamentDeadlines overrideExpiry
              leaderboard w) as (expiryTime & possible & Hrun & Hover & _ & _).
  destruct possible.
  - rewrite (LeaderboardRecordsHaystack_run leaderboard _ _ _ _ _ expiryTime) by assumption.
    unfold getLeaderboardRecordsHaystack.
    rewrite bool_decide_eq_false_2 by exact Hcursor.
    rewrite Time_Unix_Unix.
    assert (Hrun' : calculateExpiryOverride calculateTournamentDeadlines expiryTime
                      leaderboard w = (Ok (expiryTime, true), w)).
    { destruct (Z.eq_dec overrideExpiry 0) as [->|Hne].
      - destruct (Z.eq_dec expiryTime 0) as [->|Hne']; [exact Hrun|].
        unfold calculateExpiryOverride.
        destruct (Z.eqb_spec expiryTime 0); [contradiction|]. reflexivity.
      - destruct (Hover Hne) as [-> _]. exact Hrun. }
    unfold LeaderboardRecordsList. rewrite Hid.
    unfold mbind, M_bind. rewrite Hrun', Hrun. reflexivity.
  - unfold LeaderboardRecordsHaystack, LeaderboardRecordsList. rewrite Hboard, Hid.
    unfold mbind, M_bind. rewrite Hrun. reflexivity.
Qed.

(** X26. The cursors of the haystack.  With an empty cursor and a limit
    above 1, [NextCursor] is set exactly when more than [limit] rows of the
    board lie strictly on the better side of the owner; it is then a
    cursor with [IsNext = false], keyed on the first record of the window
    and carrying its rank.  [PrevCursor] is set exactly when the worse side
    has more rows than the second query was limited to; it is then a cursor
    with [IsNext = true], keyed on the last record of the window.  Both are
    bound to the board and the expiry of the listing. *)
Theorem haystack_cursors (leaderboard : Leaderboard)
    (leaderboardId ownerID : string) (limit overrideExpiry expiryTime : Z) (row : db.Row)
    (w : World RC) :
  leaderboardCache leaderboardId = Some leaderboard ->
  calculateExpiryOverride calculateTournamentDeadlines overrideExpiry leaderboard w
  = (Ok (expiryTime, true), w) ->
  db.select_record (table w) (Id leaderboard) ownerID (time.Unix expiryTime 0) = inl row ->
  1 < limit < 2 ^ 31 ->
  let better := side_rows (SortOrder leaderboard) Better (Id leaderboard)
                  (time.Unix expiryTime 0) (db.key_of row) (table w) in
  let worse := side_rows (SortOrder leaderboard) Worse (Id leaderboard)
                 (time.Unix expiryTime 0) (db.key_of row) (table w) in
  let cursor_at (isNext : bool) (r : api.LeaderboardRecord) :=
    {| IsNext := isNext; LeaderboardId := Id leaderboard; ExpiryTime := expiryTime;
       Score := api.Score r; Subscore := api.Subscore r; OwnerId := api.OwnerId r;
       Rank := api.Rank r |} in
  exists (l : api.LeaderboardRecordList) (w' : World RC) (first last_ : api.LeaderboardRecord),
    LeaderboardRecordsHaystack calculateTournamentDeadlines leaderboardCache leaderboardId
      "" ownerID limit overrideExpiry w = (Ok l, w')
    /\ head (api.Records l) = Some first
    /\ last (api.Records l) = Some last_
    /\ api.NextCursor l
       = (if limit <? Z.of_nat (length better)
          then cursor_token (Some (cursor_at false first)) else "")
    /\ api.PrevCursor l
       = (if second_limit limit (Z.to_nat limit `min` length better)
             <? Z.of_nat (length worse)
          then cursor_token (Some (cursor_at true last_)) else "").
Proof.
  intros Hboard Hexpiry Hrow Hlimit better worse cursor_at.
  rewrite (LeaderboardRecordsHaystack_run leaderboard _ _ _ _ _ expiryTime) by assumption.
  rewrite (getLeaderboardRecordsHaystack_run calculateTournamentDeadlines leaderboardCache
             ownerID (Id leaderboard) limit (SortOrder leaderboard)
             (time.Unix expiryTime 0) row w Hrow) by lia.
  destruct (select_record_inl _ _ _ _ _ Hrow) as (Hin & Hid & Howner & Hexp).
  assert (Hb : db.in_board (Id leaderboard) (time.Unix expiryTime 0) row = true)
    by (apply in_board_iff; split; assumption).
  destruct (haystack_rows_spec (SortOrder leaderboard) (Id leaderboard)
              (time.Unix expiryTime 0) limit row (table w) ltac:(lia))
    as (Hown & Hlen & Hsorted & Hsub).
  set (rows := haystack_rows _ _ _ _ _ _) in *.
  set (records := map (haystack_record (rankCache w) (Id leaderboard)
                         (time.Unix expiryTime 0)) rows).
  assert (Hne : (0 < length records)%nat).
  { subst records. rewrite length_map. apply list_elem_of_lookup in Hown.
    destruct Hown as [i Hi]. apply lookup_lt_Some in Hi. lia. }
  destruct (lookup_lt_is_Some_2 records 0 ltac:(lia)) as [r0 Hhead].
  destruct (lookup_lt_is_Some_2 records (Nat.pred (length records)) ltac:(lia))
    as [rl Hlast].
  assert (Hcursor : forall (isNext : bool) (r : api.LeaderboardRecord),
             r ∈ records ->
             haystackCursor isNext (time.Unix expiryTime 0) r = cursor_at isNext r).
  { intros isNext r Hr. subst records. apply list_elem_of_fmap in Hr.
    destruct Hr as (row' & -> & Hrow').
    destruct (halves_in_board _ _ _ _ _ _ _ Hin Hb (Hsub _ Hrow')) as [_ Hb'].
    apply in_board_iff in Hb'. destruct Hb' as [Hid' _].
    unfold haystackCursor, cursor_at. rewrite Time_Unix_Unix.
    cbn [haystack_record api.set_Rank parseLeaderboardRecord api.LeaderboardId api.Score
           api.Subscore api.OwnerId api.Rank].
    rewrite Hid'. reflexivity. }
  eexists _, _, r0, rl.
  split; [reflexivity|].
  cbn [haystack_of api.Records api.NextCursor api.PrevCursor].
  fold rows records better worse.
  rewrite head_lookup, last_lookup, Hhead, Hlast.
  split; [reflexivity|]. split; [reflexivity|].
  cbn [haystack_token].
  rewrite (Hcursor false r0) by (eapply list_elem_of_lookup_2; exact Hhead).
  rewrite (Hcursor true rl) by (eapply list_elem_of_lookup_2; exact Hlast).
  split; [reflexivity|].
  unfold first_half. rewrite length_reverse, length_take. fold better. reflexivity.
Qed.

End HaystackFacts.

(** Owner [o9] has no row on the descending board of five. *)
Lemma haystack_absent_owner_witness :
  LeaderboardRecordsHaystack Example.noTournament (Example.cache Example.descending) "lb"
    "" "o9" 3 0 (Example.world Example.five)
  = (Ok no_records, record_event db_QueryRowContext (Example.world Example.five)).
Proof.
  apply (haystack_absent_owner (RC:=unit) Example.noTournament
           (Example.cache Example.descending) Example.descending "lb" "o9" 3 0 0
           (Example.world Example.five)).
  - reflexivity.
  - reflexivity.
  - intros row Hrow. apply list_elem_of_In in Hrow. vm_compute in Hrow.
    repeat (destruct Hrow as [<-|Hrow]; [vm_compute; reflexivity|]). contradiction.
Defined.

(** Three around owner [o3] on the descending board of five. *)
Lemma haystack_window_witness :
  exists (l : api.LeaderboardRecordList) (w' : World unit),
    LeaderboardRecordsHaystack Example.noTournament (Example.cache Example.descending) "lb"
      "" "o3" 3 0 (Example.world Example.five) = (Ok l, w')
    /\ (exists r, r ∈ api.Records l
                  /\ r = api.set_Rank (api.Rank r)
                           (parseLeaderboardRecord (Example.row "o3" 30)))
    /\ Z.of_nat (length (api.Records l)) <= 3
    /\ keys_in_order LeaderboardSortOrderDescending (map record_key (api.Records l)).
Proof.
  destruct (haystack_window (RC:=unit) Example.noTournament
              (Example.cache Example.descending) Example.descending "lb" "o3" 3 0 0
              (Example.row "o3" 30) (Example.world Example.five))
    as (l & w' & Hrun & _ & Hown & Hlen & Horder & _).
  - reflexivity.
  - reflexivity.
  - vm_compute. reflexivity.
  - vm_compute. split; [discriminate|reflexivity].
  - exists l, w'. repeat split; assumption.
Defined.

(** The haystack handed the next-page cursor at owner [o2]. *)
Lemma haystack_with_cursor_is_listing_witness :
  LeaderboardRecordsHaystack Example.noTournament (Example.cache Example.descending) "lb"
    (Example.token (Example.cursor true 40 "o2" 2)) "o5" 2 0 (Example.world Example.five)
  = LeaderboardRecordsList Example.noTournament (Example.cache Example.descending) "lb"
      (Some (to_int32 2)) (Example.token (Example.cursor true 40 "o2" 2)) [] 0
      (Example.world Example.five).
Proof.
  apply (haystack_with_cursor_is_listing (RC:=unit) Example.noTournament
           (Example.cache Example.descending) Example.descending "lb"
           (Example.token (Example.cursor true 40 "o2" 2)) "o5" 2 0
           (Example.world Example.five)).
  - reflexivity.
  - reflexivity.
  - vm_compute. intros H. discriminate H.
Defined.

(** Two around owner [o4]: three owners are better, so there is a
    [NextCursor], and it is a previous-page cursor at the first record. *)
Lemma haystack_cursors_witness :
  exists (l : api.LeaderboardRecordList) (w' : World unit)
         (first last_ : api.LeaderboardRecord),
    LeaderboardRecordsHaystack Example.noTournament (Example.cache Example.descending) "lb"
      "" "o4" 2 0 (Example.world Example.five) = (Ok l, w')
    /\ head (api.Records l) = Some first
    /\ api.NextCursor l
       = cursor_token
           (Some {| IsNext := false; LeaderboardId := "lb"; ExpiryTime := 0;
                    Score := api.Score first; Subscore := api.Subscore first;
                    OwnerId := api.OwnerId first; Rank := api.Rank first |}).
Proof.
  destruct (haystack_cursors (RC:=unit) Example.noTournament
              (Example.cache Example.descending) Example.descending "lb" "o4" 2 0 0
              (Example.row "o4" 20) (Example.world Example.five))
    as (l & w' & first & last_ & Hrun & Hhead & _ & Hnext & _).
  - reflexivity.
  - reflexivity.
  - vm_compute. reflexivity.
  - vm_compute. split; reflexivity.
  - exists l, w', first, last_. repeat split; assumption.
Defined.

(** ** The account-wide operations *)

Section AccountFacts.

Context {RC : Type} `{!LeaderboardRankCache RC}.


Lemma leaderboardsGetOne_run (leaderboardCache : LeaderboardCache) (id : string)
    (w : World RC) :
  leaderboardsGetOne leaderboardCache id w
  = (match leaderboardCache id with
     | None => Ok None
     | Some l =>
         if IsTournament l then Ok None
         else
           let entry (prevReset nextReset : Z) :=
             {| al_Id := Id l;
                al_SortOrder := SortOrder l;
                al_Operator := OperatorIntToEnum (Operator l);
                al_PrevReset := to_uint32 prevReset;
                al_NextReset := to_uint32 nextReset;
                al_Metadata := Metadata l;
                al_CreateTime := CreateTime l |} in
           match ResetSchedule l with
           | None => Ok (Some (entry 0 0))
           | Some resetSchedule =>
               match calculatePrevReset (now w) (CreateTime l) (Some resetSchedule) with
               | Ok prevReset =>
                   Ok (Some (entry prevReset
                               (time.Time_Unix (cronexpr.Next resetSchedule (now w)))))
               | Err e => Err e
               | Panic => Panic
               end
           end
     end, w).
Proof.
  unfold leaderboardsGetOne.
  destruct (leaderboardCache id) as [l|]; [|reflexivity].
  destruct (IsTournament l); [reflexivity|].
  unfold mbind, M_bind, time_Now, lift, mret, M_ret.
  destruct (ResetSchedule l) as [rs|]; [|reflexivity].
  destruct (calculatePrevReset (now w) (CreateTime l) (Some rs)); reflexivity.
Qed.

Lemma LeaderboardsGet_cons (leaderboardCache : LeaderboardCache) (id : string)
    (ids : list string) (w : World RC) :
  LeaderboardsGet leaderboardCache (id :: ids) w
  = match leaderboardsGetOne leaderboardCache id w with
    | (Ok one, w1) =>
        match LeaderboardsGet leaderboardCache ids w1 with
        | (Ok leaderboards, w2) =>
            (Ok (match one with
                 | Some l => l :: leaderboards
                 | None => leaderboards
                 end), w2)
        | (Err e, w2) => (Err e, w2)
        | (Panic, w2) => (Panic, w2)
        end
    | (Err e, w1) => (Err e, w1)
    | (Panic, w1) => (Panic, w1)
    end.
Proof.
  cbn [LeaderboardsGet]. unfold mbind, M_bind.
  destruct (leaderboardsGetOne leaderboardCache id w) as [[one|e|] w1]; [|reflexivity..].
  destruct (LeaderboardsGet leaderboardCache ids w1) as [[ls|e|] w2]; reflexivity.
Qed.

(** X28. The boards listed by id.  [LeaderboardsGet] answers for the
    requested ids that the cache knows and that are not tournaments, in the
    order of the request, and changes nothing; ids it does not know and
    tournaments are passed over.  A board without a reset schedule is
    listed with both resets 0.  The call panics exactly when one of the
    boards it would list has a schedule that yields fewer than two further
    resets. *)
Theorem leaderboards_get_known_boards (leaderboardCache : LeaderboardCache)
    (leaderboardIDs : list string) (w : World RC) :
  ((exists l, l ∈ omap (listed_board leaderboardCache) leaderboardIDs
              /\ runs_out (now w) l) ->
   LeaderboardsGet leaderboardCache leaderboardIDs w = (Panic, w))
  /\ ((forall l, l ∈ omap (listed_board leaderboardCache) leaderboardIDs ->
         ~ runs_out (now w) l) ->
      exists leaderboards,
        LeaderboardsGet leaderboardCache leaderboardIDs w = (Ok leaderboards, w)
        /\ map al_Id leaderboards
           = map Id (omap (listed_board leaderboardCache) leaderboardIDs)
        /\ Forall2 (fun (a : api_Leaderboard) (l : Leaderboard) =>
                      al_SortOrder a = SortOrder l
                      /\ al_Operator a = OperatorIntToEnum (Operator l)
                      /\ al_Metadata a = Metadata l
                      /\ al_CreateTime a = CreateTime l
                      /\ (ResetSchedule l = None ->
                          al_PrevReset a = 0 /\ al_NextReset a = 0)
                      /\ (forall resetSchedule, ResetSchedule l = Some resetSchedule ->
                            al_NextReset a
                            = to_uint32 (time.Time_Unix
                                           (cronexpr.Next resetSchedule (now w)))))
             leaderboards (omap (listed_board leaderboardCache) leaderboardIDs)).
Proof.
  set (listed := listed_board leaderboardCache).
  assert (Hone : forall id,
             match listed id with
             | None => leaderboardsGetOne leaderboardCache id w = (Ok None, w)
             | Some l =>
                 (runs_out (now w) l -> leaderboardsGetOne leaderboardCache id w = (Panic, w))
                 /\ (~ runs_out (now w) l ->
                     exists a,
                       leaderboardsGetOne leaderboardCache id w = (Ok (Some a), w)
                       /\ al_Id a = Id l
                       /\ al_SortOrder a = SortOrder l
                       /\ al_Operator a = OperatorIntToEnum (Operator l)
                       /\ al_Metadata a = Metadata l
                       /\ al_CreateTime a = CreateTime l
                       /\ (ResetSchedule l = None ->
                           al_PrevReset a = 0 /\ al_NextReset a = 0)
                       /\ (forall resetSchedule, ResetSchedule l = Some resetSchedule ->
                             al_NextReset a
                             = to_uint32 (time.Time_Unix
                                            (cronexpr.Next resetSchedule (now w)))))
             end).
  { intros id. subst listed. unfold listed_board. rewrite leaderboardsGetOne_run.
    destruct (leaderboardCache id) as [l|]; [|reflexivity].
    destruct (IsTournament l); [reflexivity|].
    unfold runs_out. cbv zeta.
    destruct (ResetSchedule l) as [rs|] eqn:Hrs.
    - unfold calculatePrevReset.
      destruct (cronexpr.NextN rs (now w) 2) as [|t1 [|t2 rest]] eqn:Hn.
      + split; [reflexivity|]. intros Hno. exfalso. apply Hno. exists rs.
        split; [reflexivity|]. rewrite Hn. cbn. lia.
      + split; [reflexivity|]. intros Hno. exfalso. apply Hno. exists rs.
        split; [reflexivity|]. rewrite Hn. cbn. lia.
      + split.
        * intros (rs' & [= <-] & Hlt). rewrite Hn in Hlt. cbn in Hlt. lia.
        * intros _. cbn [lookup list_lookup].
          match goal with
          | |- context [time.Before ?a ?b] => destruct (time.Before a b)
          end;
            (eexists; split; [reflexivity|]; cbn;
             repeat split; try discriminate; intros rs' [= <-]; reflexivity).
    - split.
      + intros (rs' & Hrs' & _). discriminate.
      + intros _. eexists. split; [reflexivity|]. cbn.
        repeat split; try reflexivity. intros rs' Hrs'. discriminate. }
  assert (Hdec : forall l, runs_out (now w) l \/ ~ runs_out (now w) l).
  { intros l. unfold runs_out. destruct (ResetSchedule l) as [rs|].
    - destruct (lt_dec (length (cronexpr.NextN rs (now w) 2)) 2) as [Hlt|Hge].
      + left. exists rs. split; [reflexivity|exact Hlt].
      + right. intros (rs' & [= <-] & Hlt). contradiction.
    - right. intros (rs' & Hrs' & _). discriminate. }
  induction leaderboardIDs as [|id ids IH].
  - split.
    + intros (l & Hl & _). inversion Hl.
    + intros _. exists []. repeat split. constructor.
  - destruct IH as [IHbad IHgood]. specialize (Hone id).
    rewrite LeaderboardsGet_cons. cbn [omap list_omap]. fold listed.
    destruct (listed id) as [l|] eqn:Hl.
    + destruct Hone as [Hpanic Hok]. split.
      * intros (l' & Hin & Hout).
        destruct (Hdec l) as [Hl1|Hl1].
        -- rewrite (Hpanic Hl1). reflexivity.
        -- destruct (Hok Hl1) as (a & -> & _).
           apply elem_of_cons in Hin. destruct Hin as [->|Hin]; [contradiction|].
           rewrite IHbad by eauto. reflexivity.
      * intros Hall.
        destruct (Hok (Hall l ltac:(left))) as (a & Hrun & Hid & Hrest).
        destruct IHgood as (ls & Hruns & Hids & Hall2).
        { intros l' Hl'. apply Hall. right. exact Hl'. }
        exists (a :: ls). rewrite Hrun, Hruns.
        split; [reflexivity|]. split; [cbn; rewrite Hid, Hids; reflexivity|].
        constructor; assumption.
    + rewrite Hone. split.
      * intros Hbad. rewrite (IHbad Hbad). reflexivity.
      * intros Hall. destruct (IHgood Hall) as (ls & Hruns & Hids & Hall2).
        exists ls. rewrite Hruns. repeat split; assumption.
Qed.

End AccountFacts.

(** ** A delete seen by the readers *)

Section DeleteThenRead.

Context {RC : Type} `{!LeaderboardRankCache RC}.
Variable uuid_FromString : string -> option uuid.UUID.
Variable calculateTournamentDeadlines :
  Z -> Z -> Z -> option cronexpr.Expression -> time.Time -> Z * Z * Z.
Variable leaderboardCache : LeaderboardCache.

(** X29. After a delete the owner is gone for the readers.  On a board
    that is not a tournament, once a delete of an owner's record has
    passed the guard, a listing that asks for that owner (at the current
    expiry, which is the one the delete used) finds no owner record, and
    the haystack around that owner is empty. *)
Theorem delete_then_owner_is_gone (leaderboard : Leaderboard)
    (caller owner : uuid.UUID) (leaderboardId ownerID cursor : string) (limit : Z)
    (w : World RC) :
  leaderboardCache leaderboardId = Some leaderboard ->
  Id leaderboard = leaderboardId ->
  IsTournament leaderboard = false ->
  may_write leaderboard caller ->
  uuid_FromString ownerID = Some owner ->
  exists (w1 w2 w3 : World RC) (l : api.LeaderboardRecordList),
    LeaderboardRecordDelete uuid_FromString leaderboardCache caller leaderboardId ownerID w
    = (Ok tt, w1)
    /\ LeaderboardRecordsList calculateTournamentDeadlines leaderboardCache leaderboardId
         None cursor [ownerID] 0 w1 = (Ok l, w2)
    /\ api.OwnerRecords l = []
    /\ LeaderboardRecordsHaystack calculateTournamentDeadlines leaderboardCache
         leaderboardId "" ownerID limit 0 w1 = (Ok no_records, w3).
Proof.
  intros Hboard Hid Htour Hguard Huuid.
  set (expiryTime := expiryAt leaderboard (now w)).
  set (w1 := {| table := db.delete_record (table w) leaderboardId ownerID
                           (time.Unix expiryTime 0);
                rankCache := rank_Delete (rankCache w) leaderboardId expiryTime owner;
                now := now w;
                events := rankCache_Delete :: db_ExecContext :: events w |}).
  assert (Hdelete : LeaderboardRecordDelete uuid_FromString leaderboardCache caller
                      leaderboardId ownerID w = (Ok tt, w1)).
  { unfold LeaderboardRecordDelete. rewrite Hboard, (guard_passes uuid_FromString _ _ Hguard).
    unfold mbind, M_bind. rewrite currentExpiry_run. fold expiryTime.
    unfold db_write, uuid_Must_FromString. rewrite Huuid. reflexivity. }
  assert (Hgone : forall row, row ∈ table w1 ->
                    db.same_key leaderboardId ownerID (time.Unix expiryTime 0) row = false).
  { intros row Hrow. subst w1. cbn [table] in Hrow. unfold db.delete_record in Hrow.
    rewrite list_elem_of_In in Hrow. apply filter_In in Hrow.
    destruct Hrow as [_ Hnot]. apply negb_true_iff in Hnot. exact Hnot. }
  assert (Hexpiry : calculateExpiryOverride calculateTournamentDeadlines 0 leaderboard w1
                    = (Ok (expiryTime, true), w1)).
  { destruct (calculateExpiryOverride_run calculateTournamentDeadlines 0 leaderboard w1)
      as (e & possible & Hrun & _ & Hnon & _).
    destruct (Hnon eq_refl Htour) as [-> ->]. exact Hrun. }
  exists w1. eexists _, _, _. split; [exact Hdelete|].
  split; [eapply LeaderboardRecordsList_run_no_limit; eassumption|].
  split.
  - cbn [api.OwnerRecords]. unfold owner_rows.
    rewrite (filter_none _ (table w1)); [reflexivity|].
    apply Forall_forall. intros row Hrow. specialize (Hgone row Hrow).
    unfold db.same_key in Hgone. unfold db.in_board.
    destruct (bool_decide (db.leaderboard_id row = leaderboardId)); [|reflexivity].
    destruct (db.expiry_time row =? time.Unix expiryTime 0); [|reflexivity].
    cbn [andb] in *. rewrite andb_true_r in Hgone.
    apply bool_decide_eq_false in Hgone. apply bool_decide_eq_false_2.
    intros Hin. apply list_elem_of_singleton in Hin. contradiction.
  - rewrite (LeaderboardRecordsHaystack_run calculateTournamentDeadlines leaderboardCache
               leaderboard leaderboardId "" ownerID limit 0 expiryTime w1 Hboard Hexpiry).
    unfold getLeaderboardRecordsHaystack.
    rewrite bool_decide_eq_true_2 by reflexivity.
    unfold mbind, M_bind, db_read, db.select_record. rewrite Hid.
    destruct (List.find _ (table w1)) as [row|] eqn:Hfind; [|reflexivity].
    apply find_some in Hfind. destruct Hfind as [Hin Hkey].
    rewrite (Hgone row) in Hkey by (apply list_elem_of_In, Hin). discriminate.
Qed.

End DeleteThenRead.

(** Owner [o3] is deleted from the descending board of five, then asked
    for. *)
Lemma delete_then_owner_is_gone_witness :
  exists (w1 w2 w3 : World unit) (l : api.LeaderboardRecordList),
    LeaderboardRecordDelete Example.uuid_FromString (Example.cache Example.descending)
      "" "lb" "o3" (Example.world Example.five) = (Ok tt, w1)
    /\ LeaderboardRecordsList Example.noTournament (Example.cache Example.descending) "lb"
         None "" ["o3"] 0 w1 = (Ok l, w2)
    /\ api.OwnerRecords l = []
    /\ LeaderboardRecordsHaystack Example.noTournament (Example.cache Example.descending)
         "lb" "" "o3" 3 0 w1 = (Ok no_records, w3).
Proof.
  apply (delete_then_owner_is_gone (RC:=unit) Example.uuid_FromString Example.noTournament
           (Example.cache Example.descending) Example.descending "" "o3" "lb" "o3" "" 3
           (Example.world Example.five)).
  - reflexivity.
  - reflexivity.
  - reflexivity.
  - left. reflexivity.
  - reflexivity.
Defined.

(** ** A write seen by the readers *)


Section WriteThenRead.

Context {RC : Type} `{!LeaderboardRankCache RC}.
Variable uuid_FromString : string -> option uuid.UUID.
Variable calculateTournamentDeadlines :
  Z -> Z -> Z -> option cronexpr.Expression -> time.Time -> Z * Z * Z.
Variable default_max_num_score : Z.
Variable leaderboardCache : LeaderboardCache.



End WriteThenRead.

